(** * go-todoist: the wire encoding of timestamps and the item commands

    A shallow embedding of [todoist/time.go] (the [Time] type with its JSON
    marshalling) and of the item sub-commands of [cmd/todoist/cmd/item.go].

    The file has two parts.  Part I holds the definitions: the pieces of the
    Go standard library that the code calls ([unicode/utf8], [strconv],
    [time], [strings]), then the repository's own code.  Part II holds the
    lemmas and the theorems about them. *)

From Stdlib Require Import ZArith String Ascii List Bool Lia.
From Stdlib Require Import Permutation Sorted.
Import ListNotations.

Local Open Scope list_scope.
Local Open Scope string_scope.
Local Open Scope Z_scope.

(* ================================================================= *)
(** * Part I: definitions *)
(* ================================================================= *)

(** ** Bytes and strings

    A Go [string] and a Go [[]byte] are both sequences of bytes; both are
    modelled by [string], whose characters are 8-bit [ascii] values. *)

Definition byteZ (c : ascii) : Z := Z.of_N (N_of_ascii c).

Definition ofByte (z : Z) : ascii := ascii_of_N (Z.to_N z).

(** The double quote, the single quote, the back quote and the backslash. *)
Definition dquote : ascii := "034"%char.
Definition squote : ascii := "039"%char.
Definition bquote : ascii := "096"%char.
Definition bslash : ascii := "092"%char.

Definition char (c : ascii) : string := String c EmptyString.

Definition len (s : string) : Z := Z.of_nat (String.length s).

Fixpoint contains (s : string) (c : ascii) : bool :=
  match s with
  | EmptyString => false
  | String a r => Ascii.eqb a c || contains r c
  end.

Fixpoint filterOut (c : ascii) (s : string) : string :=
  match s with
  | EmptyString => EmptyString
  | String a r => if Ascii.eqb a c then filterOut c r else String a (filterOut c r)
  end.

(** [splitLast s] is [Some (init, last)] for a non-empty [s]. *)
Fixpoint splitLast (s : string) : option (string * ascii) :=
  match s with
  | EmptyString => None
  | String a r =>
      match splitLast r with
      | None => Some (EmptyString, a)
      | Some (i, l) => Some (String a i, l)
      end
  end.

Definition isDigit (c : ascii) : bool := (48 <=? byteZ c) && (byteZ c <=? 57).

Definition digitVal (c : ascii) : Z := byteZ c - 48.

(** ** Go's [error] interface

    An error value is one of the three concrete errors this code can meet:
    an [errorString] ([errors.New], [fmt.Errorf]), [strconv.ErrSyntax], or a
    [*time.ParseError] with its five fields.  [nil] is [None] of
    [option error]. *)

Inductive error : Type :=
| errorString (s : string)
| ErrSyntax
| ParseError (Layout Value LayoutElem ValueElem Message : string).

(** [s] between double quotes. *)
Definition quoted (s : string) : string := String dquote (s ++ char dquote).

(** The method [Error()].  The message of a [ParseError] shows its texts
    between double quotes as they are; Go also escapes the bytes in them
    that do not print. *)
Definition Error (e : error) : string :=
  match e with
  | errorString s => s
  | ErrSyntax => "invalid syntax"
  | ParseError l v le ve m =>
      if (String.length m =? 0)%nat
      then "parsing time " ++ quoted v ++ " as " ++ quoted l
           ++ ": cannot parse " ++ quoted ve ++ " as " ++ quoted le
      else "parsing time " ++ quoted v ++ m
  end.

Inductive result (A : Type) : Type :=
| Ok (a : A)
| Err (e : error).
Arguments Ok {A} a.
Arguments Err {A} e.

(** ** Package [unicode/utf8] *)

Module utf8.

Definition RuneError : Z := 65533.
Definition RuneSelf : Z := 128.
Definition MaxRune : Z := 1114111.

Definition inRange (lo hi b : Z) : bool := (lo <=? b) && (b <=? hi).

(** The size of the encoding announced by a leading byte and the range the
    second byte must lie in (Go's tables [first] and [acceptRanges]). *)
Definition first (b0 : Z) : option (nat * Z * Z) :=
  if b0 <? 194 then None
  else if b0 <? 224 then Some (2%nat, 128, 191)
  else if b0 =? 224 then Some (3%nat, 160, 191)
  else if b0 =? 237 then Some (3%nat, 128, 159)
  else if b0 <? 240 then Some (3%nat, 128, 191)
  else if b0 =? 240 then Some (4%nat, 144, 191)
  else if b0 <? 244 then Some (4%nat, 128, 191)
  else if b0 =? 244 then Some (4%nat, 128, 143)
  else None.

(** [DecodeRuneInString s] is the first rune of [s] and its width in bytes;
    [(RuneError, 0)] on the empty string, [(RuneError, 1)] on an invalid
    encoding. *)
Definition DecodeRuneInString (s : string) : Z * nat :=
  match s with
  | EmptyString => (RuneError, 0%nat)
  | String c0 r0 =>
      let b0 := byteZ c0 in
      if b0 <? RuneSelf then (b0, 1%nat)
      else
        match first b0 with
        | None => (RuneError, 1%nat)
        | Some (sz, lo, hi) =>
            match r0 with
            | EmptyString => (RuneError, 1%nat)
            | String c1 r1 =>
                let b1 := byteZ c1 in
                if negb (inRange lo hi b1) then (RuneError, 1%nat)
                else if (sz <=? 2)%nat
                then (Z.lor (Z.shiftl (Z.land b0 31) 6) (Z.land b1 63), 2%nat)
                else
                  match r1 with
                  | EmptyString => (RuneError, 1%nat)
                  | String c2 r2 =>
                      let b2 := byteZ c2 in
                      if negb (inRange 128 191 b2) then (RuneError, 1%nat)
                      else if (sz <=? 3)%nat
                      then (Z.lor (Z.lor (Z.shiftl (Z.land b0 15) 12)
                                         (Z.shiftl (Z.land b1 63) 6))
                                  (Z.land b2 63), 3%nat)
                      else
                        match r2 with
                        | EmptyString => (RuneError, 1%nat)
                        | String c3 _ =>
                            let b3 := byteZ c3 in
                            if negb (inRange 128 191 b3) then (RuneError, 1%nat)
                            else (Z.lor (Z.lor (Z.lor (Z.shiftl (Z.land b0 7) 18)
                                                      (Z.shiftl (Z.land b1 63) 12))
                                               (Z.shiftl (Z.land b2 63) 6))
                                        (Z.land b3 63), 4%nat)
                        end
                  end
            end
        end
  end.

(** [validFrom skip s]: the bytes of [s] after the first [skip] ones (the
    tail of a rune already checked) are valid UTF-8. *)
Fixpoint validFrom (skip : nat) (s : string) : bool :=
  match s with
  | EmptyString => true
  | String _ r =>
      match skip with
      | S k => validFrom k r
      | O =>
          let '(ru, sz) := DecodeRuneInString s in
          if (ru =? RuneError) && (sz =? 1)%nat then false
          else validFrom (sz - 1) r
      end
  end.

Definition ValidString (s : string) : bool := validFrom 0 s.

Definition ValidRune (r : Z) : bool :=
  inRange 0 55295 r || inRange 57344 MaxRune r.

(** [EncodeRune r]: the UTF-8 encoding of [r]; an invalid rune is encoded as
    [RuneError]. *)
Definition EncodeRune (r : Z) : string :=
  let three (r : Z) :=
    String (ofByte (Z.lor 224 (Z.shiftr r 12)))
      (String (ofByte (Z.lor 128 (Z.land (Z.shiftr r 6) 63)))
         (char (ofByte (Z.lor 128 (Z.land r 63))))) in
  if inRange 0 127 r then char (ofByte r)
  else if inRange 128 2047 r then
    String (ofByte (Z.lor 192 (Z.shiftr r 6)))
      (char (ofByte (Z.lor 128 (Z.land r 63))))
  else if negb (ValidRune r) then three RuneError
  else if r <=? 65535 then three r
  else
    String (ofByte (Z.lor 240 (Z.shiftr r 18)))
      (String (ofByte (Z.lor 128 (Z.land (Z.shiftr r 12) 63)))
         (String (ofByte (Z.lor 128 (Z.land (Z.shiftr r 6) 63)))
            (char (ofByte (Z.lor 128 (Z.land r 63)))))).

End utf8.

(** ** Package [strconv]: [Quote] and [Unquote] *)

Module strconv.

Definition lowerhex (n : Z) : ascii :=
  if n <? 10 then ofByte (48 + n) else ofByte (97 + n - 10).

(** [\x] followed by the two hexadecimal digits of a byte. *)
Definition hexEscape (b : Z) : string :=
  String bslash (String "x"%char
    (String (lowerhex (Z.shiftr b 4)) (char (lowerhex (Z.land b 15))))).

(** [appendEscapedRune] for the double quote, on one byte.  A byte from 128
    up is escaped the way Go escapes a byte that is not part of a valid
    UTF-8 sequence; the decoding of multi-byte runes and the Unicode table
    behind [IsPrint] are not modelled, and [MarshalJSON] never needs them:
    [Format] produces ASCII only. *)
Definition quoteByte (c : ascii) : string :=
  let b := byteZ c in
  if Ascii.eqb c dquote || Ascii.eqb c bslash then String bslash (char c)
  else if (32 <=? b) && (b <? 127) then char c
  else if b =? 7 then String bslash "a"
  else if b =? 8 then String bslash "b"
  else if b =? 12 then String bslash "f"
  else if b =? 10 then String bslash "n"
  else if b =? 13 then String bslash "r"
  else if b =? 9 then String bslash "t"
  else if b =? 11 then String bslash "v"
  else hexEscape b.

Fixpoint quoteBody (s : string) : string :=
  match s with
  | EmptyString => char dquote
  | String c r => quoteByte c ++ quoteBody r
  end.

(** [strconv.Quote]: a double-quoted Go string literal. *)
Definition Quote (s : string) : string := String dquote (quoteBody s).

Definition unhex (c : ascii) : option Z :=
  let b := byteZ c in
  if (48 <=? b) && (b <=? 57) then Some (b - 48)
  else if (97 <=? b) && (b <=? 102) then Some (b - 97 + 10)
  else if (65 <=? b) && (b <=? 70) then Some (b - 65 + 10)
  else None.

(** [n] hexadecimal digits at the head of [s], accumulated into [v]. *)
Fixpoint hexDigits (n : nat) (v : Z) (s : string) : option (Z * string) :=
  match n with
  | O => Some (v, s)
  | S k =>
      match s with
      | EmptyString => None
      | String c r =>
          match unhex c with
          | None => None
          | Some x => hexDigits k (Z.lor (Z.shiftl v 4) x) r
          end
      end
  end.

(** [n] octal digits at the head of [s], accumulated into [v]. *)
Fixpoint octDigits (n : nat) (v : Z) (s : string) : option (Z * string) :=
  match n with
  | O => Some (v, s)
  | S k =>
      match s with
      | EmptyString => None
      | String c r =>
          let x := byteZ c - 48 in
          if (x <? 0) || (7 <? x) then None
          else octDigits k (Z.lor (Z.shiftl v 3) x) r
      end
  end.

Fixpoint dropN (n : nat) (s : string) : string :=
  match n, s with
  | S k, String _ r => dropN k r
  | _, _ => s
  end.

(** [strconv.UnquoteChar s quote]: the first character or escape of [s],
    whether it is to be written as a multi-byte rune, and what follows. *)
Definition UnquoteChar (s : string) (quote : ascii) : option (Z * bool * string) :=
  match s with
  | EmptyString => None
  | String c r =>
      if Ascii.eqb c quote && (Ascii.eqb quote squote || Ascii.eqb quote dquote)
      then None
      else if utf8.RuneSelf <=? byteZ c then
        let '(ru, sz) := utf8.DecodeRuneInString s in Some (ru, true, dropN sz s)
      else if negb (Ascii.eqb c bslash) then Some (byteZ c, false, r)
      else
        match r with
        | EmptyString => None
        | String e t =>
            let simple (v : Z) := Some (v, false, t) in
            let b := byteZ e in
            if b =? 97 then simple 7            (* \a *)
            else if b =? 98 then simple 8       (* \b *)
            else if b =? 102 then simple 12     (* \f *)
            else if b =? 110 then simple 10     (* \n *)
            else if b =? 114 then simple 13     (* \r *)
            else if b =? 116 then simple 9      (* \t *)
            else if b =? 118 then simple 11     (* \v *)
            else if b =? 120 then               (* \x: one byte *)
              match hexDigits 2 0 t with
              | Some (v, t') => Some (v, false, t')
              | None => None
              end
            else if (b =? 117) || (b =? 85) then   (* \u and \U: a rune *)
              match hexDigits (if b =? 117 then 4 else 8) 0 t with
              | Some (v, t') =>
                  if utf8.ValidRune v then Some (v, true, t') else None
              | None => None
              end
            else if (48 <=? b) && (b <=? 55) then   (* three octal digits *)
              match octDigits 2 (b - 48) t with
              | Some (v, t') => if 255 <? v then None else Some (v, false, t')
              | None => None
              end
            else if Ascii.eqb e bslash then simple 92
            else if Ascii.eqb e squote || Ascii.eqb e dquote then
              if Ascii.eqb e quote then simple b else None
            else None
        end
  end.

(** The loop of [Unquote] over the characters of the body.  [fuel] bounds
    the number of turns; every turn consumes at least one byte, so the
    length of the body is enough. *)
Fixpoint unquoteLoop (fuel : nat) (quote : ascii) (s buf : string) : result string :=
  match s with
  | EmptyString => Ok buf
  | String _ _ =>
      match fuel with
      | O => Err ErrSyntax
      | S k =>
          match UnquoteChar s quote with
          | None => Err ErrSyntax
          | Some (c, multibyte, ss) =>
              let buf' :=
                if (c <? utf8.RuneSelf) || negb multibyte
                then buf ++ char (ofByte c)
                else buf ++ utf8.EncodeRune c in
              if Ascii.eqb quote squote && negb (String.length ss =? 0)%nat
              then Err ErrSyntax
              else unquoteLoop k quote ss buf'
          end
      end
  end.

(** [strconv.Unquote]: the string a Go literal in single, double or back
    quotes denotes, or [ErrSyntax]. *)
Definition Unquote (s : string) : result string :=
  match s with
  | EmptyString => Err ErrSyntax
  | String quote rest =>
      match splitLast rest with
      | None => Err ErrSyntax
      | Some (body, last) =>
          if negb (Ascii.eqb quote last) then Err ErrSyntax
          else if Ascii.eqb quote bquote then
            if contains body bquote then Err ErrSyntax
            else Ok (filterOut "013"%char body)
          else if negb (Ascii.eqb quote dquote) && negb (Ascii.eqb quote squote)
          then Err ErrSyntax
          else if contains body "010"%char then Err ErrSyntax
          else
            let trivial :=
              if contains body bslash || contains body quote then false
              else if Ascii.eqb quote dquote then utf8.ValidString body
              else
                let '(ru, sz) := utf8.DecodeRuneInString body in
                (sz =? String.length body)%nat
                && (negb (ru =? utf8.RuneError) || negb (sz =? 1)%nat) in
            if trivial then Ok body
            else unquoteLoop (String.length body) quote body EmptyString
      end
  end.

End strconv.

(** ** Package [time]

    A [time.Time] is an instant and a [Location].  The instant is [sec]
    seconds and [nsec] nanoseconds since January 1 of year 1, 00:00:00 UTC
    (what Go's [t.sec()] and [t.nsec()] return).  Of the location the code
    here uses one thing only, the offset in seconds east of UTC that it
    gives at this instant: that is [offset].  The zero [time.Time] is the
    instant 0 in UTC.  Go keeps [sec] in 64 bits; the model keeps it in [Z]
    and does not wrap.

    [Format] and [Parse] are modelled on the elements of the layout of this
    program and follow the current releases of Go, where [Parse] checks the
    range of a zone offset and accepts a fraction of a second after the
    seconds even if the layout has none. *)

Module time.

Record Time : Type := mkTime { sec : Z; nsec : Z; offset : Z }.

Definition zero : Time := mkTime 0 0 0.

Definition IsZero (t : Time) : bool := (sec t =? 0) && (nsec t =? 0).

Definition Equal (t u : Time) : bool := (sec t =? sec u) && (nsec t =? nsec u).

Definition Before (t u : Time) : bool :=
  (sec t <? sec u) || ((sec t =? sec u) && (nsec t <? nsec u)).

Definition secondsPerMinute : Z := 60.
Definition secondsPerHour : Z := 3600.
Definition secondsPerDay : Z := 86400.
Definition daysPer400Years : Z := 146097.
Definition daysPer100Years : Z := 36524.
Definition daysPer4Years : Z := 1461.

Definition isLeap (year : Z) : bool :=
  (Z.rem year 4 =? 0) && (negb (Z.rem year 100 =? 0) || (Z.rem year 400 =? 0)).

(** [daysBefore[m]] counts the days of a non-leap year before month [m+1]. *)
Definition daysBefore : list Z :=
  [0; 31; 59; 90; 120; 151; 181; 212; 243; 273; 304; 334; 365].

Definition daysBeforeAt (m : Z) : Z := nth (Z.to_nat m) daysBefore 0.

Definition daysIn (m year : Z) : Z :=
  if (m =? 2) && isLeap year then 29
  else daysBeforeAt m - daysBeforeAt (m - 1).

(** The wall-clock seconds of [t] in its own zone, counted from year 1.  Go
    counts them from the year -292277022399 in an unsigned word, a year
    that is 1 modulo 400: the cycle arithmetic below is the same, written
    on [Z] with floor division. *)
Definition abs (t : Time) : Z := sec t + offset t.

(** [absDate]: the year, month, day of the month and day of the year of a
    count of days since January 1 of year 1. *)
Definition absDate (d : Z) : Z * Z * Z * Z :=
  (* 400-year cycles *)
  let n := d / daysPer400Years in
  let y := 400 * n in
  let d := d - daysPer400Years * n in
  (* 100-year cycles: the last one is a day longer, cut at 3 *)
  let n := d / daysPer100Years in
  let n := n - Z.shiftr n 2 in
  let y := y + 100 * n in
  let d := d - daysPer100Years * n in
  (* 4-year cycles *)
  let n := d / daysPer4Years in
  let y := y + 4 * n in
  let d := d - daysPer4Years * n in
  (* years of a 4-year cycle: the last one is a day longer, cut at 3 *)
  let n := d / 365 in
  let n := n - Z.shiftr n 2 in
  let y := y + n in
  let d := d - 365 * n in
  let year := y + 1 in
  let yday := d in
  if isLeap year && (yday =? 31 + 29 - 1) then (year, 2, 29, yday)
  else
    let day := if isLeap year && (yday >? 31 + 29 - 1) then yday - 1 else yday in
    (* every month taken as 31 days long: too low by one month at most *)
    let month := day / 31 in
    let e := daysBeforeAt (month + 1) in
    let '(month, begin) :=
      if day >=? e then (month + 1, e) else (month, daysBeforeAt month) in
    (year, month + 1, day - begin + 1, yday).

(** [t.Year()]: the year of [t] in its own zone. *)
Definition Year (t : Time) : Z :=
  let '(year, _, _, _) := absDate (abs t / secondsPerDay) in year.

(** [absClock]: hour, minute and second within the day. *)
Definition absClock (a : Z) : Z * Z * Z :=
  let s := a mod secondsPerDay in
  let hour := s / secondsPerHour in
  let s := s - hour * secondsPerHour in
  let min := s / secondsPerMinute in
  (hour, min, s - min * secondsPerMinute).

(** [absWeekday]: 0 is Sunday; January 1 of year 1 is a Monday. *)
Definition absWeekday (a : Z) : Z := (a / secondsPerDay + 1) mod 7.

Definition longDayNames : list string :=
  ["Sunday"; "Monday"; "Tuesday"; "Wednesday"; "Thursday"; "Friday"; "Saturday"].

Definition shortDayNames : list string :=
  ["Sun"; "Mon"; "Tue"; "Wed"; "Thu"; "Fri"; "Sat"].

Definition longMonthNames : list string :=
  ["January"; "February"; "March"; "April"; "May"; "June"; "July"; "August";
   "September"; "October"; "November"; "December"].

Definition shortMonthNames : list string :=
  ["Jan"; "Feb"; "Mar"; "Apr"; "May"; "Jun"; "Jul"; "Aug"; "Sep"; "Oct"; "Nov"; "Dec"].

Definition Weekday_String (d : Z) : string := nth (Z.to_nat d) longDayNames "".

Definition Month_String (m : Z) : string := nth (Z.to_nat (m - 1)) longMonthNames "".

(** The decimal digits of [u >= 0], most significant first, in front of
    [acc].  A number has no more digits than bits, which bounds [fuel]. *)
Fixpoint digitsOf (fuel : nat) (u : Z) (acc : string) : string :=
  let acc' := String (ofByte (48 + u mod 10)) acc in
  match fuel with
  | O => acc'
  | S k => if u <? 10 then acc' else digitsOf k (u / 10) acc'
  end.

Fixpoint zeros (n : nat) : string :=
  match n with
  | O => ""
  | S k => String "0" (zeros k)
  end.

(** [appendInt]: [x] in decimal, padded with zeros to [width] digits, after
    a minus sign when [x] is negative. *)
Definition appendInt (x : Z) (width : nat) : string :=
  let u := Z.abs x in
  let ds := digitsOf (Z.to_nat (Z.log2 u)) u "" in
  (if x <? 0 then "-" else "") ++ zeros (width - String.length ds) ++ ds.

(** The elements of a layout.  Go knows many more; these are the ones that
    occur in the layout of this program. *)
Inductive std : Type :=
| stdWeekDay      (* Mon *)
| stdDay          (* 2 *)
| stdMonth        (* Jan *)
| stdLongYear     (* 2006 *)
| stdHour         (* 15 *)
| stdZeroMinute   (* 04 *)
| stdZeroSecond   (* 05 *)
| stdNumTZ.       (* -0700 *)

Definition stdText (e : std) : string :=
  match e with
  | stdWeekDay => "Mon"
  | stdDay => "2"
  | stdMonth => "Jan"
  | stdLongYear => "2006"
  | stdHour => "15"
  | stdZeroMinute => "04"
  | stdZeroSecond => "05"
  | stdNumTZ => "-0700"
  end.

Fixpoint hasPrefix (s p : string) : bool :=
  match p, s with
  | EmptyString, _ => true
  | String a p', String b s' => Ascii.eqb a b && hasPrefix s' p'
  | String _ _, EmptyString => false
  end.

(** The element that starts [l], if one does.  The order of the tests is
    Go's: [2006] is tried before [2]. *)
Definition stdAt (l : string) : option std :=
  if hasPrefix l "Jan" then Some stdMonth
  else if hasPrefix l "Mon" then Some stdWeekDay
  else if hasPrefix l "04" then Some stdZeroMinute
  else if hasPrefix l "05" then Some stdZeroSecond
  else if hasPrefix l "15" then Some stdHour
  else if hasPrefix l "2006" then Some stdLongYear
  else if hasPrefix l "2" then Some stdDay
  else if hasPrefix l "-0700" then Some stdNumTZ
  else None.

(** [nextStdChunk layout]: the literal text before the first element of the
    layout, that element, and the rest of the layout. *)
Fixpoint nextStdChunk (l : string) : string * option std * string :=
  match l with
  | EmptyString => ("", None, "")
  | String c r =>
      match stdAt l with
      | Some e => ("", Some e, strconv.dropN (String.length (stdText e)) l)
      | None => let '(p, e, suf) := nextStdChunk r in (String c p, e, suf)
      end
  end.

(** One element of [appendFormat]. *)
Definition formatStd (t : Time) (e : std) : string :=
  let a := abs t in
  let '(year, month, day, _) := absDate (a / secondsPerDay) in
  let '(hour, min, s) := absClock a in
  match e with
  | stdLongYear => appendInt year 4
  | stdMonth => substring 0 3 (Month_String month)
  | stdWeekDay => substring 0 3 (Weekday_String (absWeekday a))
  | stdDay => appendInt day 0
  | stdHour => appendInt hour 2
  | stdZeroMinute => appendInt min 2
  | stdZeroSecond => appendInt s 2
  | stdNumTZ =>
      let zone := Z.quot (offset t) 60 in    (* minutes *)
      let sign := if zone <? 0 then "-" else "+" in
      let zone := if zone <? 0 then - zone else zone in
      sign ++ appendInt (Z.quot zone 60) 2 ++ appendInt (Z.rem zone 60) 2
  end.

(** The loop of [appendFormat]; every turn shortens the layout, whose
    length bounds [fuel]. *)
Fixpoint formatLoop (fuel : nat) (t : Time) (l : string) : string :=
  match fuel with
  | O => ""
  | S k =>
      if (String.length l =? 0)%nat then ""
      else
        let '(prefix, e, suffix) := nextStdChunk l in
        match e with
        | None => prefix
        | Some e => prefix ++ formatStd t e ++ formatLoop k t suffix
        end
  end.

(** [t.Format(layout)]. *)
Definition Format (t : Time) (l : string) : string :=
  formatLoop (String.length l) t l.

(** *** Parsing *)

Fixpoint cutspace (s : string) : string :=
  match s with
  | String c r => if Ascii.eqb c " " then cutspace r else s
  | EmptyString => s
  end.

(** The loop of [skip]: a space of the layout stands for any run of spaces
    of the value, any other byte for itself.  The result is what is left of
    the value and whether the prefix was matched.  A turn shortens the
    prefix, whose length bounds [fuel]. *)
Fixpoint skipLoop (fuel : nat) (value prefix : string) : string * bool :=
  match prefix with
  | EmptyString => (value, true)
  | String p0 pr =>
      match fuel with
      | O => (value, false)
      | S k =>
          if Ascii.eqb p0 " " then
            match value with
            | String v0 _ =>
                if negb (Ascii.eqb v0 " ") then (value, false)
                else skipLoop k (cutspace value) (cutspace prefix)
            | EmptyString => skipLoop k (cutspace value) (cutspace prefix)
            end
          else
            match value with
            | String v0 vr =>
                if Ascii.eqb v0 p0 then skipLoop k vr pr else (value, false)
            | EmptyString => (value, false)
            end
      end
  end.

Definition skip (value prefix : string) : string * bool :=
  skipLoop (String.length prefix) value prefix.

(** [v] is a prefix of [val] up to the case of letters ([match] of Go on
    the first [len(v)] bytes); the rest of [val]. *)
Fixpoint matchPrefix (v val : string) : option string :=
  match v, val with
  | EmptyString, _ => Some val
  | String c2 v', String c1 val' =>
      let l1 := Z.lor (byteZ c1) 32 in
      let l2 := Z.lor (byteZ c2) 32 in
      if Ascii.eqb c1 c2 || ((l1 =? l2) && (97 <=? l1) && (l1 <=? 122))
      then matchPrefix v' val' else None
  | String _ _, EmptyString => None
  end.

(** [lookup]: the index of the first name of [tab] that starts [val]. *)
Fixpoint lookup (tab : list string) (i : Z) (val : string) : option (Z * string) :=
  match tab with
  | [] => None
  | v :: tab' =>
      match matchPrefix v val with
      | Some rest => Some (i, rest)
      | None => lookup tab' (i + 1) val
      end
  end.

(** [getnum]: one or two decimal digits, exactly two when [fixed]. *)
Definition getnum (s : string) (fixed : bool) : option (Z * string) :=
  match s with
  | String c0 r0 =>
      if negb (isDigit c0) then None
      else
        match r0 with
        | String c1 r1 =>
            if isDigit c1 then Some (digitVal c0 * 10 + digitVal c1, r1)
            else if fixed then None else Some (digitVal c0, r0)
        | EmptyString => if fixed then None else Some (digitVal c0, r0)
        end
  | EmptyString => None
  end.

(** The value of a run of decimal digits, [None] when a byte is no digit
    ([atoi] on text that starts with a digit). *)
Fixpoint atoiFrom (acc : Z) (s : string) : option Z :=
  match s with
  | EmptyString => Some acc
  | String c r => if isDigit c then atoiFrom (acc * 10 + digitVal c) r else None
  end.

Definition commaOrPeriod (c : ascii) : bool := Ascii.eqb c "." || Ascii.eqb c ",".

(** The digits at the head of [s], at most [n] of them kept, and what
    follows all of them. *)
Fixpoint spanDigits (n : nat) (s : string) : string * string :=
  match s with
  | String c r =>
      if isDigit c then
        match n with
        | O => let '(_, rest) := spanDigits O r in ("", rest)
        | S k => let '(ds, rest) := spanDigits k r in (String c ds, rest)
        end
      else ("", s)
  | EmptyString => ("", s)
  end.

(** [parseNanoseconds] on a separator and the digits after it: nine digits
    at most count, scaled to nanoseconds. *)
Definition parseNanoseconds (digits : string) : option Z :=
  match atoiFrom 0 digits with
  | Some ns => Some (ns * 10 ^ (9 - len digits))
  | None => None
  end.

(** The fields [parse] collects. *)
Record fields : Type := mkFields {
  p_year : Z; p_month : Z; p_day : Z;
  p_hour : Z; p_min : Z; p_sec : Z; p_nsec : Z;
  p_zoneOffset : Z
}.

Definition fields0 : fields := mkFields 0 (-1) (-1) 0 0 0 0 (-1).

(** What one element leaves behind: the fields, the rest of the value, the
    name of a field out of range (empty when none), and whether the text
    could not be read. *)
Record step : Type := mkStep {
  s_fields : fields; s_value : string; s_range : string; s_bad : bool
}.

Definition parseStd (e : std) (f : fields) (value : string) : step :=
  let '(mkFields year month day hour min sc ns zo) := f in
  match e with
  | stdLongYear =>
      match value with
      | String c0 (String c1 (String c2 (String c3 rest))) =>
          if negb (isDigit c0) then mkStep f value "" true
          else
            match atoiFrom 0 (String c0 (String c1 (String c2 (char c3)))) with
            | Some y => mkStep (mkFields y month day hour min sc ns zo) rest "" false
            | None => mkStep (mkFields 0 month day hour min sc ns zo) rest "" true
            end
      | _ => mkStep f value "" true
      end
  | stdMonth =>
      match lookup shortMonthNames 0 value with
      | Some (i, rest) => mkStep (mkFields year (i + 1) day hour min sc ns zo) rest "" false
      | None => mkStep (mkFields year 0 day hour min sc ns zo) value "" true
      end
  | stdWeekDay =>
      match lookup shortDayNames 0 value with
      | Some (_, rest) => mkStep f rest "" false
      | None => mkStep f value "" true
      end
  | stdDay =>
      match getnum value false with
      | Some (d, rest) => mkStep (mkFields year month d hour min sc ns zo) rest "" false
      | None => mkStep (mkFields year month 0 hour min sc ns zo) value "" true
      end
  | stdHour =>
      match getnum value false with
      | Some (h, rest) =>
          mkStep (mkFields year month day h min sc ns zo) rest
                 (if (h <? 0) || (24 <=? h) then "hour" else "") false
      | None => mkStep (mkFields year month day 0 min sc ns zo) value "" true
      end
  | stdZeroMinute =>
      match getnum value true with
      | Some (m, rest) =>
          mkStep (mkFields year month day hour m sc ns zo) rest
                 (if (m <? 0) || (60 <=? m) then "minute" else "") false
      | None => mkStep (mkFields year month day hour 0 sc ns zo) value "" true
      end
  | stdZeroSecond =>
      match getnum value true with
      | None => mkStep (mkFields year month day hour min 0 ns zo) value "" true
      | Some (s, rest) =>
          let f' := mkFields year month day hour min s ns zo in
          if (s <? 0) || (60 <=? s) then mkStep f' rest "second" false
          else
            (* a fraction of a second in the value, none in the layout *)
            match rest with
            | String c0 (String c1 r1) =>
                if commaOrPeriod c0 && isDigit c1 then
                  let '(ds, rest') := spanDigits 9 (String c1 r1) in
                  match parseNanoseconds ds with
                  | Some n => mkStep (mkFields year month day hour min s n zo) rest' "" false
                  | None => mkStep f' rest' "" true
                  end
                else mkStep f' rest "" false
            | _ => mkStep f' rest "" false
            end
      end
  | stdNumTZ =>
      match value with
      | String sg (String h0 (String h1 (String m0 (String m1 rest)))) =>
          let hr := getnum (String h0 (char h1)) true in
          let mm := match hr with
                    | Some _ => getnum (String m0 (char m1)) true
                    | None => None
                    end in
          let hv := match hr with Some (v, _) => v | None => 0 end in
          let mv := match mm with Some (v, _) => v | None => 0 end in
          let bad := match mm with Some _ => false | None => true end in
          let range := if 24 <? hv then "time zone offset hour" else "" in
          let range := if 60 <? mv then "time zone offset minute" else range in
          let z := (hv * 60 + mv) * 60 + 0 in
          if Ascii.eqb sg "+" then
            mkStep (mkFields year month day hour min sc ns z) rest range bad
          else if Ascii.eqb sg "-" then
            mkStep (mkFields year month day hour min sc ns (- z)) rest range bad
          else mkStep (mkFields year month day hour min sc ns z) rest range true
      | _ => mkStep f value "" true
      end
  end.

(** [norm hi lo base]: [lo] brought into [0, base), the carry into [hi]. *)
Definition norm (hi lo base : Z) : Z * Z :=
  let '(hi, lo) :=
    if lo <? 0 then
      let n := Z.quot (- lo - 1) base + 1 in (hi - n, lo + n * base)
    else (hi, lo) in
  if lo >=? base then
    let n := Z.quot lo base in (hi + n, lo - n * base)
  else (hi, lo).

(** The days from January 1 of year 1 to January 1 of [year]. *)
Definition daysSinceEpoch (year : Z) : Z :=
  let y := year - 1 in
  let n := y / 400 in
  let y := y - 400 * n in
  let d := daysPer400Years * n in
  let n := y / 100 in
  let y := y - 100 * n in
  let d := d + daysPer100Years * n in
  let n := y / 4 in
  let y := y - 4 * n in
  let d := d + daysPer4Years * n in
  d + 365 * y.

(** [time.Date] in UTC. *)
Definition Date (year month day hour min sc ns : Z) : Time :=
  let m := month - 1 in
  let '(year, m) := norm year m 12 in
  let month := m + 1 in
  let '(sc, ns) := norm sc ns 1000000000 in
  let '(min, sc) := norm min sc 60 in
  let '(hour, min) := norm hour min 60 in
  let '(day, hour) := norm day hour 24 in
  let d := daysSinceEpoch year in
  let d := d + daysBeforeAt (month - 1) in
  let d := if isLeap year && (month >=? 3) then d + 1 else d in
  let d := d + (day - 1) in
  let a := d * secondsPerDay in
  let a := a + (hour * secondsPerHour + min * secondsPerMinute + sc) in
  mkTime a ns 0.

(** The end of [parse], once the layout is used up: the day is checked
    against the month, and the wall clock read in the zone of the value. *)
Definition finish (alayout avalue value : string) (f : fields) : result Time :=
  let '(mkFields year month day hour min sc ns zo) := f in
  if (day <? 1) || (day >? daysIn month year)
  then Err (ParseError alayout avalue "" value ": day out of range")
  else
    let t := Date year month day hour min sc ns in
    if negb (zo =? -1) then Ok (mkTime (sec t - zo) (nsec t) zo)
    else Ok t.

(** The loop of [parse], one element of the layout a turn. *)
Fixpoint parseLoop (fuel : nat) (alayout avalue l value : string) (f : fields)
  : result Time :=
  match fuel with
  | O => Err (ParseError alayout avalue "" value "")
  | S k =>
      let '(prefix, e, suffix) := nextStdChunk l in
      match skip value prefix with
      | (value, false) => Err (ParseError alayout avalue prefix value "")
      | (value, true) =>
          match e with
          | None =>
              if negb (String.length value =? 0)%nat
              then Err (ParseError alayout avalue "" value
                          (": extra text: " ++ quoted value))
              else finish alayout avalue value f
          | Some e =>
              let '(mkStep f' value' range bad) := parseStd e f value in
              if negb (String.length range =? 0)%nat
              then Err (ParseError alayout avalue (stdText e) value'
                          (": " ++ range ++ " out of range"))
              else if bad
              then Err (ParseError alayout avalue (stdText e) value "")
              else parseLoop k alayout avalue suffix value' f'
          end
      end
  end.

(** [time.Parse(layout, value)]. *)
Definition Parse (l value : string) : result Time :=
  parseLoop (S (String.length l)) l value l value fields0.

End time.

(** ** Package [strings] *)

Module strings.

(** [strings.Join(elems, sep)]. *)
Definition Join (elems : list string) (sep : string) : string :=
  String.concat sep elems.

(** [strings.Split(s, sep)] for a separator of one byte. *)
Fixpoint Split (s : string) (sep : ascii) : list string :=
  match s with
  | EmptyString => [""]
  | String c r =>
      if Ascii.eqb c sep then "" :: Split r sep
      else
        match Split r sep with
        | h :: t => String c h :: t
        | [] => [char c]
        end
  end.

(** A substring test, for reading error messages. *)
Fixpoint Contains (s sub : string) : bool :=
  time.hasPrefix s sub ||
  match s with
  | EmptyString => false
  | String _ r => Contains r sub
  end.

End strings.

(** ** Package [todoist]: [time.go] *)

Module todoist.

Definition layout : string := "Mon 2 Jan 2006 15:04:05 -0700".

(** [type Time struct { time.Time }]. *)
Record Time : Type := mkTime { Time_ : time.Time }.

Definition zero : Time := mkTime time.zero.

(** [Parse] returns a pair: the zero [Time] comes with every error. *)
Definition Parse (value : string) : Time * option error :=
  match time.Parse layout value with
  | Err err => (zero, Some err)
  | Ok t => (mkTime t, None)
  end.

Definition Equal (t u : Time) : bool := time.Equal (Time_ t) (Time_ u).

Definition IsZero (t : Time) : bool := time.IsZero (Time_ t).

Definition Before (t u : Time) : bool := time.Before (Time_ t) (Time_ u).

Definition MarshalJSON (t : Time) : string * option error :=
  if IsZero t then ("null", None)
  else (strconv.Quote (time.Format (Time_ t) layout), None).

(** [UnmarshalJSON] has a pointer receiver: it takes the [Time] it is
    called on and returns the [Time] it leaves there, with the error. *)
Definition UnmarshalJSON (t : Time) (b : string) : Time * option error :=
  match strconv.Unquote b with
  | Err _ => (mkTime time.zero, None)        (* null value *)
  | Ok s =>
      let '(t', err) := Parse s in
      match err with
      | Some e => (t', Some e)
      | None => (t', None)
      end
  end.

End todoist.

(** ** Package [todoist]: what [item.go] uses of it

    The files that declare these types are not part of the sources at
    hand; the records hold the fields that [item.go] reads or writes. *)

(** Modelled from the spec: the type [todoist.ID] is absent; section 3
    calls an identifier a permanent integer-like value or a temporary one,
    and [item.go] prints identifiers with [%s]: an identifier is kept as its
    text. *)
Definition ID : Type := string.

Fixpoint allDigits (s : string) : bool :=
  match s with
  | EmptyString => true
  | String c r => isDigit c && allDigits r
  end.

(** Modelled from the spec: [todoist.NewID] is absent; section 4.1 has
    [parse(text)] accept only the canonical syntax of a permanent
    identifier, all digits, and yield an error on any other input.  The text
    of that error is not given. *)
Definition NewID (s : string) : result ID :=
  if negb (String.length s =? 0)%nat && allDigits s then Ok s
  else Err (errorString ("Invalid ID: " ++ s)).

(** Modelled from the spec: the declaration of [todoist.Due] is absent;
    section 3 gives the due date a text and a [Time], which are the two
    fields [item.go] uses. *)
Record Due : Type := mkDue { Due_String : string; Due_Date : todoist.Time }.

(** Modelled from the spec: the declaration of [todoist.Item] is absent;
    section 3 makes an entity a record keyed by its identifier with domain
    fields (content, due date, priority, project reference, labels).  The
    record holds those that [item.go] reads or writes, and [DateAdded]. *)
Record Item : Type := mkItem {
  Item_ID : ID;
  Content : string;
  ProjectID : ID;
  Labels : list ID;
  Item_Due : Due;
  Priority : Z;
  DateAdded : todoist.Time
}.

(** [todoist.Item{}], every field at its zero value. *)
Definition Item0 : Item :=
  mkItem "" "" "" [] (mkDue "" todoist.zero) 0 todoist.zero.

(** Modelled from the spec: the declarations of [todoist.Project] and
    [todoist.Label] are absent; section 4.2 looks both up by identifier and
    by name. *)
Record Project : Type := mkProject { Project_ID : ID; Project_Name : string }.

Record Label : Type := mkLabel { Label_ID : ID; Label_Name : string }.

(** Modelled from the spec: the declaration of [todoist.ItemMoveOpts] is
    absent; [item.go] sets its fields [ParentID] and [ProjectID], the two
    references of an item that section 3 names. *)
Record ItemMoveOpts : Type := mkItemMoveOpts { Opts_ParentID : ID; Opts_ProjectID : ID }.

(** Modelled from the spec: the type [todoist.Command] is absent; section 3
    gives a command a type, a target kind, a target identifier and a
    payload.  [item.go] only ever builds the empty list of commands. *)
Record Command : Type := mkCommand {
  Command_Type : string; Command_Kind : string;
  Command_Target : ID; Command_Payload : string
}.

Definition withContent (i : Item) (c : string) : Item :=
  mkItem (Item_ID i) c (ProjectID i) (Labels i) (Item_Due i) (Priority i) (DateAdded i).

Definition withProjectID (i : Item) (p : ID) : Item :=
  mkItem (Item_ID i) (Content i) p (Labels i) (Item_Due i) (Priority i) (DateAdded i).

Definition withLabel (i : Item) (l : ID) : Item :=
  mkItem (Item_ID i) (Content i) (ProjectID i) (Labels i ++ [l])%list
         (Item_Due i) (Priority i) (DateAdded i).

Definition withDueString (i : Item) (d : string) : Item :=
  mkItem (Item_ID i) (Content i) (ProjectID i) (Labels i)
         (mkDue d (Due_Date (Item_Due i))) (Priority i) (DateAdded i).

Definition withPriority (i : Item) (p : Z) : Item :=
  mkItem (Item_ID i) (Content i) (ProjectID i) (Labels i) (Item_Due i) p (DateAdded i).

(** ** The flags of a command ([cobra], [pflag]) *)

Inductive FlagValue : Type :=
| FString (s : string)
| FInt (n : Z).

(** The flag set of a command: names and values, as [init] registers them
    and the command line sets them. *)
Definition FlagSet : Type := list (string * FlagValue).

Fixpoint Lookup (fs : FlagSet) (name : string) : option FlagValue :=
  match fs with
  | [] => None
  | (n, v) :: r => if String.eqb n name then Some v else Lookup r name
  end.

Definition GetString (fs : FlagSet) (name : string) : result string :=
  match Lookup fs name with
  | Some (FString s) => Ok s
  | Some (FInt _) =>
      Err (errorString "trying to get string value of flag of type int")
  | None => Err (errorString ("flag accessed but not defined: " ++ name))
  end.

Definition GetInt (fs : FlagSet) (name : string) : result Z :=
  match Lookup fs name with
  | Some (FInt n) => Ok n
  | Some (FString _) =>
      Err (errorString "trying to get int value of flag of type string")
  | None => Err (errorString ("flag accessed but not defined: " ++ name))
  end.

(** The flags of each command with the defaults of [init]. *)
Definition itemAddFlags : FlagSet :=
  [("project", FString "inbox"); ("label", FString ""); ("due", FString "");
   ("priority", FInt 1)].

Definition itemUpdateFlags : FlagSet :=
  [("label", FString ""); ("due", FString ""); ("priority", FInt 1)].

Definition itemMoveFlags : FlagSet :=
  [("parent", FString ""); ("project", FString "")].

(** ** The commands of [item.go]

    A command talks to collaborators that are not part of the sources at
    hand: the client with its stores, the sync engine, the relation index,
    the table printer, the terminal.  A command is modelled as a program
    that calls them, and a run of a command as the list of the calls it
    made with the answers it got, whatever the collaborators are. *)

Section Commands.

(** The value [client.Relation.Items] returns; its type is not at hand. *)
Variable Relations : Type.

(** [sort.Slice]: it sorts by the given order and promises nothing on the
    order of equal elements. *)
Variable sort_Slice : (Item -> Item -> bool) -> list Item -> list Item.

(** The calls: [Call X] is a call that answers with an [X]. *)
Inductive Call : Type -> Type :=
| NewClient : Call (option error)
| Project_FindOneByName (name : string) : Call (option Project)
| Label_FindOneByName (name : string) : Call (option Label)
| Item_Add (item : Item) : Call (ID * option error)
| Item_Update (item : Item) : Call (ID * option error)
| Item_Delete (id : ID) : Call (option error)
| Item_Move (id : ID) (opts : ItemMoveOpts) : Call (option error)
| Item_Resolve (id : ID) : Call (option Item)
| Item_FindByContent (content : string) : Call (list Item)
| Commit : Call (option error)
| FullSync (commands : list Command) : Call (option error)
| Relation_Items (items : list Item) : Call Relations
| ItemTableString (items : list Item) (relations : Relations) : Call string
| Println (s : string) : Call unit
| Print (s : string) : Call unit
| ReadString (delim : ascii) : Call (string * option error).

(** A call together with its answer, as a run records it. *)
Inductive Event : Type :=
| ENewClient (r : option error)
| EProject_FindOneByName (name : string) (r : option Project)
| ELabel_FindOneByName (name : string) (r : option Label)
| EItem_Add (item : Item) (r : ID * option error)
| EItem_Update (item : Item) (r : ID * option error)
| EItem_Delete (id : ID) (r : option error)
| EItem_Move (id : ID) (opts : ItemMoveOpts) (r : option error)
| EItem_Resolve (id : ID) (r : option Item)
| EItem_FindByContent (content : string) (r : list Item)
| ECommit (r : option error)
| EFullSync (commands : list Command) (r : option error)
| ERelation_Items (items : list Item) (r : Relations)
| EItemTableString (items : list Item) (relations : Relations) (r : string)
| EPrintln (s : string)
| EPrint (s : string)
| EReadString (delim : ascii) (r : string * option error).

Definition event {X : Type} (c : Call X) : X -> Event :=
  match c in Call X return X -> Event with
  | NewClient => ENewClient
  | Project_FindOneByName n => EProject_FindOneByName n
  | Label_FindOneByName n => ELabel_FindOneByName n
  | Item_Add i => EItem_Add i
  | Item_Update i => EItem_Update i
  | Item_Delete id => EItem_Delete id
  | Item_Move id o => EItem_Move id o
  | Item_Resolve id => EItem_Resolve id
  | Item_FindByContent c => EItem_FindByContent c
  | Commit => ECommit
  | FullSync cs => EFullSync cs
  | Relation_Items l => ERelation_Items l
  | ItemTableString l r => EItemTableString l r
  | Println s => fun _ => EPrintln s
  | Print s => fun _ => EPrint s
  | ReadString d => EReadString d
  end.

(** Programs: return a value, or make a call and go on with its answer. *)
Inductive Prog (A : Type) : Type :=
| Ret (a : A)
| Vis {X : Type} (c : Call X) (k : X -> Prog A).
Arguments Ret {A} a.
Arguments Vis {A X} c k.

Fixpoint bind {A B : Type} (p : Prog A) (f : A -> Prog B) : Prog B :=
  match p with
  | Ret a => f a
  | Vis c k => Vis c (fun x => bind (k x) f)
  end.

Definition call {X : Type} (c : Call X) : Prog X := Vis c Ret.

(** [runs p tr a]: [p] can make exactly the calls [tr], get the answers
    recorded there, and return [a]. *)
Fixpoint runs {A : Type} (p : Prog A) (tr : list Event) (a : A) : Prop :=
  match p with
  | Ret x => tr = [] /\ a = x
  | Vis c k => exists x tr', tr = event c x :: tr' /\ runs (k x) tr' a
  end.

(** A collaborator as a machine with a state: it answers a call and moves
    on.  [exec] runs a program against it. *)
Definition Handler (S : Type) : Type := forall X : Type, Call X -> S -> X * S.

Fixpoint exec {S A : Type} (h : Handler S) (p : Prog A) (s : S)
  : list Event * A * S :=
  match p with
  | Ret a => ([], a, s)
  | Vis c k =>
      let '(x, s') := h _ c s in
      let '(tr, a, s'') := exec h (k x) s' in
      (event c x :: tr, a, s'')
  end.

Notation "x <- c ;; k" := (bind c (fun x => k))
  (at level 61, c at next level, right associativity).

(** [if err = c; err != nil { return err }]. *)
Notation "'check' c ;; k" :=
  (bind c (fun e => match e with Some err => Ret (Some err) | None => k end))
  (at level 61, c at next level, right associativity).

Definition errors_New (s : string) : error := errorString s.

(** The loop over the names of [--label], the same in [add] and [update]:
    a value that is no identifier is looked up by name, and dropped when no
    label has that name. *)
Fixpoint labelsLoop (names : list string) (item : Item) : Prog Item :=
  match names with
  | [] => Ret item
  | labelIDorName :: rest =>
      item' <- match NewID labelIDorName with
               | Err _ =>
                   label <- call (Label_FindOneByName labelIDorName) ;;
                   Ret (match label with
                        | Some l => withLabel item (Label_ID l)
                        | None => item
                        end)
               | Ok lid => Ret (withLabel item lid)
               end ;;
      labelsLoop rest item'
  end.

Definition labelsOf (labelIDorNames : string) (item : Item) : Prog Item :=
  if 0 <? len labelIDorNames
  then labelsLoop (strings.Split labelIDorNames ",") item
  else Ret item.

Definition byDateAdded (a b : Item) : bool :=
  todoist.Before (DateAdded a) (DateAdded b).

(** [itemAddCmd.RunE]. *)
Definition itemAddCmd (args : list string) (flags : FlagSet) : Prog (option error) :=
  check call NewClient ;;
  let content := strings.Join args " " in
  let item := withContent Item0 content in
  match GetString flags "project" with
  | Err _ => Ret (Some (errors_New "invalid project id or name"))
  | Ok projectIDorName =>
  item <- match NewID projectIDorName with
          | Err _ =>
              project <- call (Project_FindOneByName projectIDorName) ;;
              Ret (match project with
                   | Some p => withProjectID item (Project_ID p)
                   | None => item
                   end)
          | Ok pid => Ret (withProjectID item pid)
          end ;;
  match GetString flags "label" with
  | Err _ => Ret (Some (errors_New "invalid label id(s) or name(s)"))
  | Ok labelIDorNames =>
  item <- labelsOf labelIDorNames item ;;
  match GetString flags "due" with
  | Err _ => Ret (Some (errors_New "invalid due date format"))
  | Ok due =>
  let item := if 0 <? len due then withDueString item due else item in
  match GetInt flags "priority" with
  | Err _ => Ret (Some (errors_New "invalid priority"))
  | Ok priority =>
  let item := withPriority item priority in
  r <- call (Item_Add item) ;;
  match snd r with
  | Some err => Ret (Some err)
  | None =>
  check call Commit ;;
  check call (FullSync []) ;;
  (* retrieve the item *)
  items <- call (Item_FindByContent content) ;;
  if (List.length items =? 0)%nat
  then Ret (Some (errors_New "Failed to add this item. It may be failed to sync."))
  else
    let items := sort_Slice byDateAdded items in
    let syncedItem := nth (List.length items - 1) items Item0 in
    relations <- call (Relation_Items [syncedItem]) ;;
    _ <- call (Println "Successful addition of an item.") ;;
    table <- call (ItemTableString [syncedItem] relations) ;;
    _ <- call (Println table) ;;
    Ret None
  end end end end end.

(** [itemUpdateCmd.RunE]. *)
Definition itemUpdateCmd (args : list string) (flags : FlagSet) : Prog (option error) :=
  match args with
  | [] => Ret (Some (errors_New "require item id to update"))
  | arg0 :: rest =>
  match NewID arg0 with
  | Err _ => Ret (Some (errorString ("invalid id: " ++ arg0)))
  | Ok id =>
  check call NewClient ;;
  item <- call (Item_Resolve id) ;;
  match item with
  | None => Ret (Some (errorString ("no such item id: " ++ id)))
  | Some item =>
  let item := match rest with
              | [] => item
              | _ :: _ => withContent item (strings.Join rest " ")
              end in
  match GetString flags "label" with
  | Err _ => Ret (Some (errors_New "invalid label id(s) or name(s)"))
  | Ok labelIDorNames =>
  item <- labelsOf labelIDorNames item ;;
  match GetString flags "due" with
  | Err _ => Ret (Some (errors_New "invalid due date format"))
  | Ok due =>
  let item := if 0 <? len due then withDueString item due else item in
  match GetInt flags "priority" with
  | Err _ => Ret (Some (errors_New "invalid priority"))
  | Ok priority =>
  let item := withPriority item priority in
  r <- call (Item_Update item) ;;
  match snd r with
  | Some err => Ret (Some err)
  | None =>
  check call Commit ;;
  check call (FullSync []) ;;
  syncedItem <- call (Item_Resolve id) ;;
  match syncedItem with
  | None => Ret (Some (errors_New "failed to add this item. it may be failed to sync"))
  | Some syncedItem =>
    relations <- call (Relation_Items [syncedItem]) ;;
    _ <- call (Println "success to update the item") ;;
    table <- call (ItemTableString [syncedItem] relations) ;;
    _ <- call (Println table) ;;
    Ret None
  end end end end end end end end.

(** Modelled from the spec: [util.AutoCommit] is absent.  Following the
    combined flow of section 4.5 and the rule of section 7 that errors
    propagate to the caller as values, it builds the client, runs the
    function it is given, returns its error when it has one, and otherwise
    commits and then syncs with no extra commands. *)
Definition AutoCommit (f : Prog (option error)) : Prog (option error) :=
  check call NewClient ;;
  check f ;;
  check call Commit ;;
  check call (FullSync []) ;;
  Ret None.

(** The function [itemDeleteCmd] hands to [AutoCommit]. *)
Definition itemDeleteFunc (args : list string) : Prog (option error) :=
  match args with
  | [arg0] =>
      match NewID arg0 with
      | Err err => Ret (Some err)
      | Ok id =>
          item <- call (Item_Resolve id) ;;
          match item with
          | None => Ret (Some (errorString ("invalid id: " ++ id)))
          | Some item =>
              relations <- call (Relation_Items [item]) ;;
              table <- call (ItemTableString [item] relations) ;;
              _ <- call (Println table) ;;
              _ <- call (Print "are you sure to delete above item(s)? (y/[n]): ") ;;
              r <- call (ReadString "010"%char) ;;
              let '(ans, err) := r in
              if negb (String.eqb ans (String "y" (char "010"%char)))
                 || match err with Some _ => true | None => false end
              then
                _ <- call (Println "abort") ;;
                Ret (Some (errors_New "abort"))
              else call (Item_Delete id)
          end
      end
  | _ => Ret (Some (errorString "require one item id"))
  end.

(** [itemDeleteCmd.RunE]. *)
Definition itemDeleteCmd (args : list string) : Prog (option error) :=
  err <- AutoCommit (itemDeleteFunc args) ;;
  match err with
  | Some err =>
      if String.eqb (Error err) "abort" then Ret None else Ret (Some err)
  | None =>
      _ <- call (Println "Successful deleting of item(s).") ;;
      Ret None
  end.

(** [itemMoveCmd.RunE]. *)
Definition itemMoveCmd (args : list string) (flags : FlagSet) : Prog (option error) :=
  check call NewClient ;;
  match args with
  | [] => Ret (Some (errors_New "Require item ID to move"))
  | arg0 :: _ =>
  match NewID arg0 with
  | Err _ => Ret (Some (errorString ("Invalid ID: " ++ arg0)))
  | Ok id =>
  item <- call (Item_Resolve id) ;;
  match item with
  | None => Ret (Some (errorString ("No such item id: " ++ id)))
  | Some _ =>
  let opts := mkItemMoveOpts "" "" in
  let parent :=
    match GetString flags "parent" with
    | Ok parentID =>
        match NewID parentID with
        | Err _ => Err (errorString ("invalid parent id: " ++ parentID))
        | Ok pid => Ok (mkItemMoveOpts pid (Opts_ProjectID opts))
        end
    | Err _ => Ok opts
    end in
  match parent with
  | Err err => Ret (Some err)
  | Ok opts =>
  let project :=
    match GetString flags "project" with
    | Ok projectID =>
        match NewID projectID with
        | Err _ => Err (errorString ("invalid project id: " ++ projectID))
        | Ok pid => Ok (mkItemMoveOpts (Opts_ParentID opts) pid)
        end
    | Err _ => Ok opts
    end in
  match project with
  | Err err => Ret (Some err)
  | Ok opts =>
  check call (Item_Move id opts) ;;
  check call Commit ;;
  check call (FullSync []) ;;
  syncedItem <- call (Item_Resolve id) ;;
  match syncedItem with
  | None => Ret (Some (errors_New "Failed to move this item. It may be failed to sync."))
  | Some syncedItem =>
    relations <- call (Relation_Items [syncedItem]) ;;
    _ <- call (Println "Successful move item.") ;;
    table <- call (ItemTableString [syncedItem] relations) ;;
    _ <- call (Println table) ;;
    Ret None
  end end end end end end.

End Commands.

Arguments Ret {Relations A} a.
Arguments Vis {Relations A X} c k.
Arguments NewClient {Relations}.
Arguments Project_FindOneByName {Relations} name.
Arguments Label_FindOneByName {Relations} name.
Arguments Item_Add {Relations} item.
Arguments Item_Update {Relations} item.
Arguments Item_Delete {Relations} id.
Arguments Item_Move {Relations} id opts.
Arguments Item_Resolve {Relations} id.
Arguments Item_FindByContent {Relations} content.
Arguments Commit {Relations}.
Arguments FullSync {Relations} commands.
Arguments Relation_Items {Relations} items.
Arguments ItemTableString {Relations} items relations.
Arguments Println {Relations} s.
Arguments Print {Relations} s.
Arguments ReadString {Relations} delim.
Arguments ENewClient {Relations} r.
Arguments EProject_FindOneByName {Relations} name r.
Arguments ELabel_FindOneByName {Relations} name r.
Arguments EItem_Add {Relations} item r.
Arguments EItem_Update {Relations} item r.
Arguments EItem_Delete {Relations} id r.
Arguments EItem_Move {Relations} id opts r.
Arguments EItem_Resolve {Relations} id r.
Arguments EItem_FindByContent {Relations} content r.
Arguments ECommit {Relations} r.
Arguments EFullSync {Relations} commands r.
Arguments ERelation_Items {Relations} items r.
Arguments EItemTableString {Relations} items relations r.
Arguments EPrintln {Relations} s.
Arguments EPrint {Relations} s.
Arguments EReadString {Relations} delim r.
Arguments event {Relations X} c _.
Arguments bind {Relations A B} p f.
Arguments call {Relations X} c.
Arguments runs {Relations A} p tr a.
Arguments exec {Relations S A} h p s.
Arguments labelsLoop {Relations} names item.
Arguments labelsOf {Relations} labelIDorNames item.

(* ================================================================= *)
(** ** Definitions for the statements and the proofs *)
(* ================================================================= *)

(** *** Decimal digits *)

(** The character of the digit [n], for [n] from 0 to 9. *)
Definition digit (n : Z) : ascii := ofByte (48 + n).

(** The integers from 0 up to [n - 1], to check a property of a small
    range by computation. *)
Definition range (n : nat) : list Z := map Z.of_nat (seq 0 n).

(** What [appendInt] writes for a number under 100 in width 2, and for a
    number under 10000 in width 4. *)
Definition twoDigits (u : Z) : string := String (digit (u / 10)) (char (digit (u mod 10))).

Definition fourDigits (u : Z) : string :=
  String (digit (u / 1000)) (String (digit (u / 100 mod 10))
    (String (digit (u / 10 mod 10)) (char (digit (u mod 10))))).

(** The digits [appendInt] writes after the sign. *)
Definition intBody (x : Z) (width : nat) : string :=
  let u := Z.abs x in
  let ds := time.digitsOf (Z.to_nat (Z.log2 u)) u "" in
  time.zeros (width - String.length ds) ++ ds.

(** *** The two halves of [absDate] *)

(** The first half: the year and the day of the year. *)
Definition yearDay (d : Z) : Z * Z :=
  let n := d / time.daysPer400Years in
  let y := 400 * n in
  let d := d - time.daysPer400Years * n in
  let n := d / time.daysPer100Years in
  let n := n - Z.shiftr n 2 in
  let y := y + 100 * n in
  let d := d - time.daysPer100Years * n in
  let n := d / time.daysPer4Years in
  let y := y + 4 * n in
  let d := d - time.daysPer4Years * n in
  let n := d / 365 in
  let n := n - Z.shiftr n 2 in
  let y := y + n in
  let d := d - 365 * n in
  (y + 1, d).

(** The second half: the month and the day of the month, from the day of
    the year and whether the year is a leap year. *)
Definition monthDay (leap : bool) (yday : Z) : Z * Z :=
  if leap && (yday =? 31 + 29 - 1) then (2, 29)
  else
    let day := if leap && (yday >? 31 + 29 - 1) then yday - 1 else yday in
    let month := day / 31 in
    let e := time.daysBeforeAt (month + 1) in
    let '(month, begin) :=
      if day >=? e then (month + 1, e) else (month, time.daysBeforeAt month) in
    (month + 1, day - begin + 1).

(** [monthDay] gives a month from 1 to 12 and a day that exists in it, and
    counting the days before them gives the day of the year back. *)
Definition monthDay_ok (leap : bool) (yday : Z) : bool :=
  let '(m, dd) := monthDay leap yday in
  (1 <=? m) && (m <=? 12) && (1 <=? dd)
  && (dd <=? (if (m =? 2) && leap then 29
              else time.daysBeforeAt m - time.daysBeforeAt (m - 1)))
  && (time.daysBeforeAt (m - 1) + (if leap && (m >=? 3) then 1 else 0) + (dd - 1)
      =? yday).

(** What [Format] writes for the element [-0700] at the offset [o]. *)
Definition zoneText (o : Z) : string :=
  let zone := Z.quot o 60 in
  let sign := if zone <? 0 then "-" else "+" in
  let zone := if zone <? 0 then - zone else zone in
  sign ++ time.appendInt (Z.quot zone 60) 2 ++ time.appendInt (Z.rem zone 60) 2.

(** *** Texts that [Quote] leaves as they are *)

(** A printable ASCII byte other than the double quote and the backslash. *)
Definition plainByte (c : ascii) : bool :=
  (32 <=? byteZ c) && (byteZ c <? 127)
  && negb (Ascii.eqb c dquote) && negb (Ascii.eqb c bslash).

Fixpoint plain (s : string) : bool :=
  match s with
  | EmptyString => true
  | String c r => plainByte c && plain r
  end.

(** *** The pattern of the layout *)

(** Exactly [n] decimal digits; at least [n] decimal digits. *)
Definition digitsN (n : nat) (s : string) : bool :=
  (String.length s =? n)%nat && allDigits s.

Definition digitsFrom (n : nat) (s : string) : bool :=
  (n <=? String.length s)%nat && allDigits s.

(** A day of the month: one or two digits. *)
Definition isDayText (s : string) : bool := digitsN 1 s || digitsN 2 s.

(** A year: four digits or more, after a minus sign for a year before 0. *)
Definition isYearText (s : string) : bool :=
  digitsFrom 4 s ||
  match s with
  | String c r => Ascii.eqb c "-" && digitsFrom 4 r
  | EmptyString => false
  end.

(** A text in the pattern of [layout]: an abbreviated weekday, the day of
    the month, an abbreviated month, the year, hours, minutes and seconds
    of two digits each, and the offset from UTC as a sign, hours and
    minutes. *)
Inductive InLayout : string -> Prop :=
| InLayout_intro wd day mon year hh mi ss sign zh zm :
    In wd time.shortDayNames ->
    isDayText day = true ->
    In mon time.shortMonthNames ->
    isYearText year = true ->
    digitsN 2 hh = true -> digitsN 2 mi = true -> digitsN 2 ss = true ->
    sign = "+" \/ sign = "-" ->
    digitsFrom 2 zh = true -> digitsN 2 zm = true ->
    InLayout (wd ++ " " ++ day ++ " " ++ mon ++ " " ++ year ++ " "
              ++ hh ++ ":" ++ mi ++ ":" ++ ss ++ " " ++ sign ++ zh ++ zm).

(** *** The inputs of [UnmarshalJSON], and sample times *)

(** [b] is a Go string literal that [strconv.Unquote] accepts. *)
Definition isQuotedLiteral (b : string) : bool :=
  match strconv.Unquote b with
  | Ok _ => true
  | Err _ => false
  end.

(** [b] starts with one of the three quote characters of Go. *)
Definition startsWithQuote (b : string) : bool :=
  match b with
  | String c _ => Ascii.eqb c dquote || Ascii.eqb c squote || Ascii.eqb c bquote
  | EmptyString => false
  end.

(** Sample times: noon of 29 February 2024 in a zone five and a half hours
    east of UTC; the same instant five nanoseconds later; the first second
    of year 1. *)
Definition sampleTime : todoist.Time :=
  todoist.mkTime (time.mkTime 63844804800 0 19800).

Definition sampleTimeNanos : todoist.Time :=
  todoist.mkTime (time.mkTime 63844804800 5 19800).

Definition oneSecond : todoist.Time := todoist.mkTime (time.mkTime 1 0 0).

(** The first second of the year 10000, in UTC; and noon of 29 February
    2024 in a zone thirty seconds east of UTC. *)
Definition year10000 : todoist.Time := todoist.mkTime (time.mkTime 315537897600 0 0).

Definition halfMinuteEast : todoist.Time :=
  todoist.mkTime (time.mkTime 63844804800 0 30).

(** ** Reading a run *)

(** A call that writes to a store and so puts a command on the queue. *)
Definition isMutation {R : Type} (e : Event R) : bool :=
  match e with
  | EItem_Add _ _ | EItem_Update _ _ | EItem_Delete _ _ | EItem_Move _ _ _ => true
  | _ => false
  end.

(** A call to the sync engine: [Commit] sends the queue, [FullSync] pulls. *)
Definition isSync {R : Type} (e : Event R) : bool :=
  match e with
  | ECommit _ | EFullSync _ _ => true
  | _ => false
  end.

(** A call that changes a store, the queue, or goes to the network. *)
Definition changesState {R : Type} (e : Event R) : bool := isMutation e || isSync e.

(** A lookup of a project or a label by its name. *)
Definition isNameLookup {R : Type} (e : Event R) : bool :=
  match e with
  | EProject_FindOneByName _ _ | ELabel_FindOneByName _ _ => true
  | _ => false
  end.

(** A call that shows something: the relation index, the table, a line. *)
Definition isDisplay {R : Type} (e : Event R) : bool :=
  match e with
  | ERelation_Items _ _ | EItemTableString _ _ _ | EPrintln _ | EPrint _ => true
  | _ => false
  end.

Definition isPrintln {R : Type} (e : Event R) : bool :=
  match e with
  | EPrintln _ => true
  | _ => false
  end.

Definition isDelete {R : Type} (e : Event R) : bool :=
  match e with
  | EItem_Delete _ _ => true
  | _ => false
  end.

Definition isFullSync {R : Type} (e : Event R) : bool :=
  match e with
  | EFullSync _ _ => true
  | _ => false
  end.

Definition none {R : Type} (p : Event R -> bool) (tr : list (Event R)) : bool :=
  forallb (fun e => negb (p e)) tr.

(** The first lookup of an item by identifier in a run, with its answer. *)
Fixpoint firstResolve {R : Type} (tr : list (Event R)) : option (ID * option Item) :=
  match tr with
  | [] => None
  | EItem_Resolve id r :: _ => Some (id, r)
  | _ :: tr' => firstResolve tr'
  end.

(** The answer [y] and a newline, the one that confirms a deletion. *)
Definition yes : string := String "y" (char "010"%char).

Definition declined (ans : string) (err : option error) : bool :=
  negb (String.eqb ans yes) || match err with Some _ => true | None => false end.

Definition isLabelLookup {R : Type} (e : Event R) : bool :=
  match e with
  | ELabel_FindOneByName _ _ => true
  | _ => false
  end.

(** A view [q] of the state of a collaborator (the command queue, say) that
    only the calls that change state can alter. *)
Definition preserves {R S Q : Type} (h : Handler R S) (q : S -> Q) : Prop :=
  forall (X : Type) (c : Call R X) (s : S),
    changesState (event c (fst (h X c s))) = false -> q (snd (h X c s)) = q s.

Definition isErr {A : Type} (r : result A) : bool :=
  match r with
  | Ok _ => false
  | Err _ => true
  end.

(** The flag [name] has a text that is no identifier. *)
Definition badFlag (flags : FlagSet) (name : string) : bool :=
  match GetString flags name with
  | Ok v => isErr (NewID v)
  | Err _ => false
  end.

Definition flagText (flags : FlagSet) (name : string) : string :=
  match GetString flags name with
  | Ok v => v
  | Err _ => ""
  end.

Definition isAdd {R : Type} (e : Event R) : bool :=
  match e with
  | EItem_Add _ _ => true
  | _ => false
  end.

Definition isUpdate {R : Type} (e : Event R) : bool :=
  match e with
  | EItem_Update _ _ => true
  | _ => false
  end.

Definition isMove {R : Type} (e : Event R) : bool :=
  match e with
  | EItem_Move _ _ _ => true
  | _ => false
  end.

(** A store mutation that returned no error. *)
Definition succeeded {R : Type} (e : Event R) : bool :=
  match e with
  | EItem_Add _ (_, None) | EItem_Update _ (_, None)
  | EItem_Delete _ None | EItem_Move _ _ None => true
  | _ => false
  end.

(** A lookup of an item in the local store. *)
Definition isLookup {R : Type} (e : Event R) : bool :=
  match e with
  | EItem_FindByContent _ _ | EItem_Resolve _ _ => true
  | _ => false
  end.

(** The calls of a run before the first one that changes state, and the
    calls from that one on. *)
Fixpoint takeReads {R : Type} (tr : list (Event R)) : list (Event R) :=
  match tr with
  | [] => []
  | e :: r => if changesState e then [] else e :: takeReads r
  end.

Fixpoint dropReads {R : Type} (tr : list (Event R)) : list (Event R) :=
  match tr with
  | [] => []
  | e :: r => if changesState e then tr else dropReads r
  end.

(** The entity of a command: [add] names it by the content it adds, the
    arguments joined by spaces; [update] and [move] by the identifier that
    is their first argument. *)
Definition contentOf (args : list string) : string := strings.Join args " ".

Definition idOf (args : list string) : ID := hd "" args.

(** The store mutation [m] is on the entity of key [key]: [Add] of an item
    with that content, [Move] of that identifier, [Update] of the item
    that the store first resolved for that identifier, [pre] being the
    calls before [m]. *)
Definition onEntity {R : Type} (key : string) (pre : list (Event R)) (m : Event R) : Prop :=
  match m with
  | EItem_Add item _ => Content item = key
  | EItem_Move id _ _ => id = key
  | EItem_Update item _ =>
      exists old, firstResolve pre = Some (key, Some old) /\ Item_ID item = Item_ID old
  | _ => False
  end.

(** The lookup of the entity after the sync, with the items it found:
    [FindByContent] of the content in [add], [Resolve] of the identifier
    in [update] and [move]. *)
Definition foundByContent {R : Type} (content : string) (l : Event R)
  : option (list Item) :=
  match l with
  | EItem_FindByContent c items => if String.eqb c content then Some items else None
  | _ => None
  end.

Definition resolvedAs {R : Type} (id : ID) (l : Event R) : option (list Item) :=
  match l with
  | EItem_Resolve i r =>
      if String.eqb i id
      then Some match r with
                | Some item => [item]
                | None => []
                end
      else None
  | _ => None
  end.

(** What a run does after a store mutation that succeeded, and what it
    then returns: [Commit] fails and ends the run with its error; or
    [Commit] succeeds and [FullSync], passed no command, fails and ends
    the run with its error; or both succeed and the entity is looked up,
    by [look]: when nothing is found the run ends there with an error;
    otherwise one of the items found is shown (the relation index is asked
    about it, the success line [line] is printed, its table is made and
    printed) and the run returns no error. *)
Inductive NetworkPhase {R : Type} (look : Event R -> option (list Item)) (line : string)
  : list (Event R) -> option error -> Prop :=
| Phase_commit_failed (e : error) :
    NetworkPhase look line [ECommit (Some e)] (Some e)
| Phase_sync_failed (e : error) :
    NetworkPhase look line [ECommit None; EFullSync [] (Some e)] (Some e)
| Phase_not_found (l : Event R) (e : error) :
    look l = Some [] ->
    NetworkPhase look line [ECommit None; EFullSync [] None; l] (Some e)
| Phase_shown (l : Event R) (items : list Item) (item : Item)
              (relations : R) (table : string) :
    look l = Some items -> In item items ->
    NetworkPhase look line
      [ECommit None; EFullSync [] None; l;
       ERelation_Items [item] relations; EPrintln line;
       EItemTableString [item] relations table; EPrintln table]
      None.

(** Every [FullSync] of the run comes after a [Commit] that returned no
    error, and is passed the empty list of commands.  [committed] tells
    whether such a [Commit] has been seen. *)
Fixpoint syncFollowsCommit {R : Type} (committed : bool) (tr : list (Event R)) : bool :=
  match tr with
  | [] => true
  | ECommit None :: r => syncFollowsCommit true r
  | EFullSync commands _ :: r =>
      committed && (List.length commands =? 0)%nat && syncFollowsCommit committed r
  | _ :: r => syncFollowsCommit committed r
  end.

(** No later element of [l] is less than an earlier one: what a sort by
    [less] leaves. *)
Definition sortedBy {A : Type} (less : A -> A -> bool) (l : list A) : Prop :=
  StronglySorted (fun a b => less b a = false) l.

(** A sort that meets the contract of [sort.Slice], to run [item add]
    with: insertion sort. *)
Fixpoint insert {A : Type} (less : A -> A -> bool) (x : A) (l : list A) : list A :=
  match l with
  | [] => [x]
  | y :: r => if less x y then x :: l else y :: insert less x r
  end.

Fixpoint insertionSort {A : Type} (less : A -> A -> bool) (l : list A) : list A :=
  match l with
  | [] => []
  | x :: r => insert less x (insertionSort less r)
  end.

(** ** Sample runs

    Data for concrete runs: a project, two items with the same content
    added ten seconds apart, command lines, and the calls of some runs with
    the answers the collaborators gave.  The relation index answers with
    [tt]. *)

Definition inbox : Project := mkProject "1" "inbox".

Definition atSecond (s : Z) : todoist.Time := todoist.mkTime (time.mkTime s 0 0).

Definition milkOld : Item :=
  mkItem "7" "milk" "1" [] (mkDue "" todoist.zero) 1 (atSecond 63844804800).

Definition milkNew : Item :=
  mkItem "8" "milk" "1" [] (mkDue "" todoist.zero) 1 (atSecond 63844804810).

(** What [item add milk] hands to [Item.Add] with the default flags once
    the project [inbox] is found. *)
Definition milkToAdd : Item :=
  mkItem "" "milk" "1" [] (mkDue "" todoist.zero) 1 todoist.zero.

Definition offline : error := errorString "offline".

(** [item add milk]: everything succeeds, two items have that content. *)
Definition addRun : list (Event unit) :=
  [ENewClient None;
   EProject_FindOneByName "inbox" (Some inbox);
   EItem_Add milkToAdd ("", None);
   ECommit None;
   EFullSync [] None;
   EItem_FindByContent "milk" [milkOld; milkNew];
   ERelation_Items [milkNew] tt;
   EPrintln "Successful addition of an item.";
   EItemTableString [milkNew] tt "table";
   EPrintln "table"].

(** [item add milk]: the network is down when [Commit] is called. *)
Definition addRunOffline : list (Event unit) :=
  [ENewClient None;
   EProject_FindOneByName "inbox" (Some inbox);
   EItem_Add milkToAdd ("", None);
   ECommit (Some offline)].

(** [item add milk]: the sync succeeds and the lookup finds nothing. *)
Definition addRunLost : list (Event unit) :=
  [ENewClient None;
   EProject_FindOneByName "inbox" (Some inbox);
   EItem_Add milkToAdd ("", None);
   ECommit None;
   EFullSync [] None;
   EItem_FindByContent "milk" []].

(** [item delete 7]: the item is shown and the user answers [n]. *)
Definition deleteRunDeclined : list (Event unit) :=
  [ENewClient None;
   EItem_Resolve "7" (Some milkOld);
   ERelation_Items [milkOld] tt;
   EItemTableString [milkOld] tt "table";
   EPrintln "table";
   EPrint "are you sure to delete above item(s)? (y/[n]): ";
   EReadString "010"%char (String "n" (char "010"%char), None);
   EPrintln "abort"].

(** [item delete 9]: no item has that identifier. *)
Definition deleteRunUnknown : list (Event unit) :=
  [ENewClient None; EItem_Resolve "9" None].

(** [item move 9 --parent abc]: no item has the identifier 9. *)
Definition moveFlagsBad : FlagSet :=
  [("parent", FString "abc"); ("project", FString "")].

Definition moveRunUnknown : list (Event unit) :=
  [ENewClient None; EItem_Resolve "9" None].

(** [item move 7] with both flags left empty: the item is found. *)
Definition moveRunDefaults : list (Event unit) :=
  [ENewClient None; EItem_Resolve "7" (Some milkOld)].

(* ================================================================= *)
(** ** The rest of the two files

    [ShortString] of [time.go], and the commands [list], [complete] and
    [uncomplete] of [item.go]. *)
(* ================================================================= *)

(** ** Package [time]: the elements of [shortLayout]

    [shortLayout] has two elements that [layout] has not: the month and the
    day of the month in two digits.  The elements of [layout] are kept as
    they are above. *)

Module timeShort.

Inductive std : Type :=
| stdZeroMonth              (* 01 *)
| stdZeroDay                (* 02 *)
| stdOf (e : time.std).     (* an element of [layout] *)

Definition stdText (e : std) : string :=
  match e with
  | stdZeroMonth => "01"
  | stdZeroDay => "02"
  | stdOf e => time.stdText e
  end.

(** Go tells the elements that start with [0] apart by their second
    digit. *)
Definition stdAt (l : string) : option std :=
  if time.hasPrefix l "01" then Some stdZeroMonth
  else if time.hasPrefix l "02" then Some stdZeroDay
  else option_map stdOf (time.stdAt l).

Fixpoint nextStdChunk (l : string) : string * option std * string :=
  match l with
  | EmptyString => ("", None, "")
  | String c r =>
      match stdAt l with
      | Some e => ("", Some e, strconv.dropN (String.length (stdText e)) l)
      | None => let '(p, e, suf) := nextStdChunk r in (String c p, e, suf)
      end
  end.

Definition formatStd (t : time.Time) (e : std) : string :=
  match e with
  | stdZeroMonth =>
      let '(_, month, _, _) := time.absDate (time.abs t / time.secondsPerDay) in
      time.appendInt month 2
  | stdZeroDay =>
      let '(_, _, day, _) := time.absDate (time.abs t / time.secondsPerDay) in
      time.appendInt day 2
  | stdOf e => time.formatStd t e
  end.

Fixpoint formatLoop (fuel : nat) (t : time.Time) (l : string) : string :=
  match fuel with
  | O => ""
  | S k =>
      if (String.length l =? 0)%nat then ""
      else
        let '(prefix, e, suffix) := nextStdChunk l in
        match e with
        | None => prefix
        | Some e => prefix ++ formatStd t e ++ formatLoop k t suffix
        end
  end.

(** [t.Format(layout)] for a layout with these elements. *)
Definition Format (t : time.Time) (l : string) : string :=
  formatLoop (String.length l) t l.

End timeShort.

(** ** Package [todoist]: [ShortString] *)

Definition shortLayout : string := "2006-01-02(Mon) 15:04".

Section Local.

(** The zone of the machine is not part of the sources: [localOffset s] is
    the offset of that zone, in seconds east of UTC, at the second [s]. *)
Variable localOffset : Z -> Z.

(** [t.Local()]: the same instant in the zone of the machine. *)
Definition Local (t : time.Time) : time.Time :=
  time.mkTime (time.sec t) (time.nsec t) (localOffset (time.sec t)).

(** [ShortString] has a pointer receiver and only reads it. *)
Definition ShortString (t : todoist.Time) : string :=
  if todoist.IsZero t then ""
  else timeShort.Format (Local (todoist.Time_ t)) shortLayout.

End Local.

(** ** The other commands of [item.go]: [list], [complete], [uncomplete]

    These commands make three calls to the item store that the commands
    above do not make, and read the clock.  Their programs are built over
    the calls above and these four. *)

Section MoreCommands.

Variable Relations : Type.

Inductive MoreCall : Type -> Type :=
| Item_GetAll : MoreCall (list Item)
| Item_Complete (id : ID) (date : todoist.Time) (force : bool) : MoreCall (option error)
| Item_Uncomplete (id : ID) : MoreCall (option error)
| time_Now : MoreCall time.Time
| Base {X : Type} (c : Call Relations X) : MoreCall X.

Inductive MoreEvent : Type :=
| EItem_GetAll (r : list Item)
| EItem_Complete (id : ID) (date : todoist.Time) (force : bool) (r : option error)
| EItem_Uncomplete (id : ID) (r : option error)
| Etime_Now (r : time.Time)
| EBase (e : Event Relations).

Definition moreEvent {X : Type} (c : MoreCall X) : X -> MoreEvent :=
  match c in MoreCall X return X -> MoreEvent with
  | Item_GetAll => EItem_GetAll
  | Item_Complete id date force => EItem_Complete id date force
  | Item_Uncomplete id => EItem_Uncomplete id
  | time_Now => Etime_Now
  | Base c => fun x => EBase (event c x)
  end.

Inductive MoreProg (A : Type) : Type :=
| MRet (a : A)
| MVis {X : Type} (c : MoreCall X) (k : X -> MoreProg A).
Arguments MRet {A} a.
Arguments MVis {A X} c k.

Fixpoint mbind {A B : Type} (p : MoreProg A) (f : A -> MoreProg B) : MoreProg B :=
  match p with
  | MRet a => f a
  | MVis c k => MVis c (fun x => mbind (k x) f)
  end.

Definition mcall {X : Type} (c : MoreCall X) : MoreProg X := MVis c MRet.

(** A program over the calls above is one over these. *)
Fixpoint lift {A : Type} (p : Prog Relations A) : MoreProg A :=
  match p with
  | Ret a => MRet a
  | Vis c k => MVis (Base c) (fun x => lift (k x))
  end.

Fixpoint mruns {A : Type} (p : MoreProg A) (tr : list MoreEvent) (a : A) : Prop :=
  match p with
  | MRet x => tr = [] /\ a = x
  | MVis c k => exists x tr', tr = moreEvent c x :: tr' /\ mruns (k x) tr' a
  end.

Notation "x <-- c ;; k" := (mbind c (fun x => k))
  (at level 61, c at next level, right associativity).

Notation "'mcheck' c ;; k" :=
  (mbind c (fun e => match e with Some err => MRet (Some err) | None => k end))
  (at level 61, c at next level, right associativity).

(** [t.UTC()]: the same instant in UTC. *)
Definition UTC (t : time.Time) : time.Time :=
  time.mkTime (time.sec t) (time.nsec t) 0.

(** [itemListCmd.RunE]. *)
Definition itemListCmd (args : list string) : MoreProg (option error) :=
  mcheck mcall (Base (NewClient)) ;;
  items <-- mcall Item_GetAll ;;
  relations <-- mcall (Base (Relation_Items items)) ;;
  table <-- mcall (Base (ItemTableString items relations)) ;;
  _ <-- mcall (Base (Println table)) ;;
  MRet None.

(** Modelled from the spec: [util.AutoCommit], as above, for a function
    that makes these calls. *)
Definition MoreAutoCommit (f : MoreProg (option error)) : MoreProg (option error) :=
  mcheck mcall (Base NewClient) ;;
  mcheck f ;;
  mcheck mcall (Base Commit) ;;
  mcheck mcall (Base (FullSync [])) ;;
  MRet None.

(** The function [itemCompleteCmd] hands to [AutoCommit]. *)
Definition itemCompleteFunc (args : list string) : MoreProg (option error) :=
  match args with
  | [arg0] =>
      match NewID arg0 with
      | Err err => MRet (Some err)
      | Ok id =>
          (* FIXME: support date_completed option *)
          now <-- mcall time_Now ;;
          let date := todoist.mkTime (UTC now) in
          mcall (Item_Complete id date true)
      end
  | _ => MRet (Some (errorString "require one item id"))
  end.

(** [itemCompleteCmd.RunE]. *)
Definition itemCompleteCmd (args : list string) : MoreProg (option error) :=
  mcheck MoreAutoCommit (itemCompleteFunc args) ;;
  _ <-- mcall (Base (Println "Successful completion of item(s).")) ;;
  MRet None.

(** The function [itemUncompleteCmd] hands to [AutoCommit]. *)
Definition itemUncompleteFunc (args : list string) : MoreProg (option error) :=
  match args with
  | [arg0] =>
      match NewID arg0 with
      | Err err => MRet (Some err)
      | Ok id => mcall (Item_Uncomplete id)
      end
  | _ => MRet (Some (errorString "require one item id"))
  end.

(** [itemUncompleteCmd.RunE]. *)
Definition itemUncompleteCmd (args : list string) : MoreProg (option error) :=
  mcheck MoreAutoCommit (itemUncompleteFunc args) ;;
  _ <-- mcall (Base (Println "Successful uncompletion of item(s).")) ;;
  MRet None.

End MoreCommands.

Arguments MRet {Relations A} a.
Arguments MVis {Relations A X} c k.
Arguments Item_GetAll {Relations}.
Arguments Item_Complete {Relations} id date force.
Arguments Item_Uncomplete {Relations} id.
Arguments time_Now {Relations}.
Arguments Base {Relations X} c.
Arguments EItem_GetAll {Relations} r.
Arguments EItem_Complete {Relations} id date force r.
Arguments EItem_Uncomplete {Relations} id r.
Arguments Etime_Now {Relations} r.
Arguments EBase {Relations} e.
Arguments moreEvent {Relations X} c _.
Arguments mbind {Relations A B} p f.
Arguments mcall {Relations X} c.
Arguments lift {Relations A} p.
Arguments mruns {Relations A} p tr a.

(* ================================================================= *)
(** ** Definitions for the statements about the rest of the code *)
(* ================================================================= *)

(** *** Times and texts *)

(** [t] cut to the whole second: the same second and zone, no nanoseconds. *)
Definition wholeSecond (t : time.Time) : time.Time :=
  time.mkTime (time.sec t) 0 (time.offset t).

(** The times the layout can carry: a year of four digits in the zone of
    the time, and an offset of whole minutes under 25 hours either way. *)
Definition fitsLayout (t : time.Time) : bool :=
  (0 <=? time.Year t) && (time.Year t <=? 9999)
  && (Z.rem (time.offset t) 60 =? 0)
  && (-90000 <? time.offset t) && (time.offset t <? 90000).

(** A Go raw string literal: the text between back quotes. *)
Definition rawQuoted (s : string) : string := String bquote (s ++ char bquote).

(** A byte that [Format] can write for the layout: a digit, a letter, a
    space, a colon or a sign. *)
Definition layoutByte (c : ascii) : bool :=
  isDigit c
  || ((65 <=? byteZ c) && (byteZ c <=? 90))
  || ((97 <=? byteZ c) && (byteZ c <=? 122))
  || Ascii.eqb c " " || Ascii.eqb c ":" || Ascii.eqb c "+" || Ascii.eqb c "-".

Fixpoint allBytes (p : ascii -> bool) (s : string) : bool :=
  match s with
  | EmptyString => true
  | String c r => p c && allBytes p r
  end.

(** The minute of the wall clock of [t] in the zone of offset [o], counted
    from year 1. *)
Definition wallMinute (o : Z) (t : time.Time) : Z := (time.sec t + o) / 60.

(** A text in the pattern of [shortLayout]: year, month and day, the
    abbreviated weekday between brackets, hours and minutes. *)
Inductive InShortLayout : string -> Prop :=
| InShortLayout_intro year mon day wd hh mi :
    isYearText year = true ->
    digitsN 2 mon = true -> digitsN 2 day = true ->
    In wd time.shortDayNames ->
    digitsN 2 hh = true -> digitsN 2 mi = true ->
    InShortLayout (year ++ "-" ++ mon ++ "-" ++ day ++ "(" ++ wd ++ ") "
                   ++ hh ++ ":" ++ mi).

(** The times [Parse] can give for the layout: nanoseconds within a second,
    an offset of whole minutes of 25 hours at most either way, and a year
    of four digits in the zone of the time. *)
Definition parseRange (t : time.Time) : bool :=
  (0 <=? time.nsec t) && (time.nsec t <? 1000000000)
  && (Z.rem (time.offset t) 60 =? 0)
  && (-90000 <=? time.offset t) && (time.offset t <=? 90000)
  && (0 <=? time.Year t) && (time.Year t <=? 9999).

(** The day count of a date: what [Date] adds up. *)
Definition dayCount (year month day : Z) : Z :=
  time.daysSinceEpoch year + time.daysBeforeAt (month - 1)
  + (if time.isLeap year && (month >=? 3) then 1 else 0) + (day - 1).

(** [monthDay] finds the month and the day again from the day of the
    year of a date that exists. *)
Definition monthDay_back (leap : bool) (month day : Z) : bool :=
  negb ((1 <=? day)
        && (day <=? (if (month =? 2) && leap then 29
                     else time.daysBeforeAt month - time.daysBeforeAt (month - 1))))
  || (let '(m, dd) :=
        monthDay leap (time.daysBeforeAt (month - 1)
                       + (if leap && (month >=? 3) then 1 else 0) + (day - 1)) in
      (m =? month) && (dd =? day)).

(** What reading one element of the layout does to the fields, when it
    succeeds: it sets the one field of the element to a value in range. *)
Definition reads (e : time.std) (f f' : time.fields) : Prop :=
  let '(time.mkFields y mo d h mi s ns zo) := f in
  match e with
  | time.stdWeekDay => f' = f
  | time.stdDay => exists v, 0 <= v <= 99 /\ f' = time.mkFields y mo v h mi s ns zo
  | time.stdMonth => exists v, 1 <= v <= 12 /\ f' = time.mkFields y v d h mi s ns zo
  | time.stdLongYear => exists v, 0 <= v <= 9999 /\ f' = time.mkFields v mo d h mi s ns zo
  | time.stdHour => exists v, 0 <= v < 24 /\ f' = time.mkFields y mo d v mi s ns zo
  | time.stdZeroMinute => exists v, 0 <= v < 60 /\ f' = time.mkFields y mo d h v s ns zo
  | time.stdZeroSecond =>
      exists v n, 0 <= v < 60 /\ (n = ns \/ 0 <= n < 1000000000) /\
                  f' = time.mkFields y mo d h mi v n zo
  | time.stdNumTZ =>
      exists z, Z.rem z 60 = 0 /\ -90000 <= z <= 90000 /\
                f' = time.mkFields y mo d h mi s ns z
  end.

(** *** The labels of [add] and [update] *)

(** The names that a run looked up as labels, in the order of the calls. *)
Fixpoint labelLookups {R : Type} (tr : list (Event R)) : list string :=
  match tr with
  | [] => []
  | ELabel_FindOneByName name _ :: r => name :: labelLookups r
  | _ :: r => labelLookups r
  end.

(** The pieces of the text of [--label]: none when the text is empty. *)
Definition labelPieces (labelIDorNames : string) : list string :=
  if 0 <? len labelIDorNames then strings.Split labelIDorNames "," else [].

(** A text that is no identifier. *)
Definition notID (s : string) : bool := isErr (NewID s).

(** [item] with the labels [ls] after its own. *)
Definition addLabels (item : Item) (ls : list ID) : Item :=
  mkItem (Item_ID item) (Content item) (ProjectID item) (Labels item ++ ls)%list
         (Item_Due item) (Priority item) (DateAdded item).

(** Where a label that was appended comes from: it is a piece of the flag
    that is an identifier, or the identifier of the label that a lookup
    of a piece found. *)
Definition fromPieceOrLookup {R : Type} (pieces : list string) (tr : list (Event R))
           (l : ID) : Prop :=
  (In l pieces /\ notID l = false) \/
  exists name label,
    In name pieces /\ notID name = true /\
    In (ELabel_FindOneByName name (Some label)) tr /\ Label_ID label = l.

Definition isProjectLookup {R : Type} (e : Event R) : bool :=
  match e with
  | EProject_FindOneByName _ _ => true
  | _ => false
  end.

(** The flag [name] is registered with a text as its value, or with a
    number. *)
Definition hasString (flags : FlagSet) (name : string) : bool :=
  negb (isErr (GetString flags name)).

Definition hasInt (flags : FlagSet) (name : string) : bool :=
  negb (isErr (GetInt flags name)).

(** The error that a call of a run answered with, if it did. *)
Definition failure {R : Type} (e : Event R) : option error :=
  match e with
  | ENewClient r | EItem_Delete _ r | EItem_Move _ _ r | ECommit r | EFullSync _ r => r
  | EItem_Add _ r | EItem_Update _ r => snd r
  | EReadString _ r => snd r
  | _ => None
  end.


(** The last call of a run. *)
Definition endsWith {A : Type} (l : list A) (x : A) : Prop :=
  exists pre, l = (pre ++ [x])%list.


(** *** Reading a run of these commands *)

(** A call that writes to the item store. *)
Definition isStoreWrite {R : Type} (e : MoreEvent R) : bool :=
  match e with
  | EItem_Complete _ _ _ _ | EItem_Uncomplete _ _ => true
  | EBase e => isMutation e
  | _ => false
  end.

(** A call that changes a store, the queue, or goes to the network. *)
Definition moreChangesState {R : Type} (e : MoreEvent R) : bool :=
  match e with
  | EBase e => changesState e
  | e => isStoreWrite e
  end.

Definition mnone {R : Type} (p : MoreEvent R -> bool) (tr : list (MoreEvent R)) : bool :=
  forallb (fun e => negb (p e)) tr.

(** The arguments are not one identifier. *)
Definition notOneID (args : list string) : bool :=
  match args with
  | [arg0] => isErr (NewID arg0)
  | _ => true
  end.

Definition isNone {A : Type} (o : option A) : bool :=
  match o with
  | None => true
  | Some _ => false
  end.


(** *** More sample times, texts and runs *)

(** A text with a fraction of a second and names in small letters; a text
    with an offset of 24 hours and 60 minutes; the instant 0 with five
    nanoseconds. *)
Definition fractionText : string := quoted "thu 29 feb 2024 12:00:00.25 +0530".

Definition wideOffsetText : string := quoted "Thu 29 Feb 2024 12:00:00 +2460".

Definition fiveNanoseconds : todoist.Time := todoist.mkTime (time.mkTime 0 5 0).

Definition urgent : Label := mkLabel "9" "urgent".

(** An item of priority 4 with one label. *)
Definition milkMarked : Item :=
  mkItem "7" "milk" "1" ["3"] (mkDue "" todoist.zero) 4 (atSecond 63844804800).

(** [item update 7 --label 5,urgent]: the priority is left to its default. *)
Definition updateFlags : FlagSet :=
  [("label", FString "5,urgent"); ("due", FString ""); ("priority", FInt 1)].

Definition milkSent : Item :=
  mkItem "7" "milk" "1" ["3"; "5"; "9"] (mkDue "" todoist.zero) 1 (atSecond 63844804800).

Definition updateRun : list (Event unit) :=
  [ENewClient None;
   EItem_Resolve "7" (Some milkMarked);
   ELabel_FindOneByName "urgent" (Some urgent);
   EItem_Update milkSent ("7", None);
   ECommit (Some offline)].

(** [item add milk --project shopping --label later]: no project and no
    label has these names. *)
Definition addFlagsUnknown : FlagSet :=
  [("project", FString "shopping"); ("label", FString "later"); ("due", FString "");
   ("priority", FInt 1)].

Definition milkPlain : Item :=
  mkItem "" "milk" "" [] (mkDue "" todoist.zero) 1 todoist.zero.

Definition addRunUnknown : list (Event unit) :=
  [ENewClient None;
   EProject_FindOneByName "shopping" None;
   ELabel_FindOneByName "later" None;
   EItem_Add milkPlain ("", None);
   ECommit (Some offline)].

(** [item delete 7]: the user answers [y]; the store accepts the
    deletion, and the network is down when [Commit] is called. *)
Definition deleteRunConfirmed : list (Event unit) :=
  [ENewClient None;
   EItem_Resolve "7" (Some milkOld);
   ERelation_Items [milkOld] tt;
   EItemTableString [milkOld] tt "table";
   EPrintln "table";
   EPrint "are you sure to delete above item(s)? (y/[n]): ";
   EReadString "010"%char (yes, None);
   EItem_Delete "7" None;
   ECommit (Some offline)].

(** [item delete 7]: the user answers [y] and the store fails with an
    error whose text is [abort]. *)
Definition deleteRunStoreAborts : list (Event unit) :=
  [ENewClient None;
   EItem_Resolve "7" (Some milkOld);
   ERelation_Items [milkOld] tt;
   EItemTableString [milkOld] tt "table";
   EPrintln "table";
   EPrint "are you sure to delete above item(s)? (y/[n]): ";
   EReadString "010"%char (yes, None);
   EItem_Delete "7" (Some (errorString "abort"))].

(** [item move 7 --parent 8 --project 2]. *)
Definition moveFlagsGood : FlagSet :=
  [("parent", FString "8"); ("project", FString "2")].

Definition moveRunGood : list (Event unit) :=
  [ENewClient None;
   EItem_Resolve "7" (Some milkOld);
   EItem_Move "7" (mkItemMoveOpts "8" "2") None;
   ECommit (Some offline)].

(** [item delete 7]: the user answers [y] and everything succeeds. *)
Definition deleteRunDone : list (Event unit) :=
  [ENewClient None;
   EItem_Resolve "7" (Some milkOld);
   ERelation_Items [milkOld] tt;
   EItemTableString [milkOld] tt "table";
   EPrintln "table";
   EPrint "are you sure to delete above item(s)? (y/[n]): ";
   EReadString "010"%char (yes, None);
   EItem_Delete "7" None;
   ECommit None;
   EFullSync [] None;
   EPrintln "Successful deleting of item(s)."].

(** Sample runs of [item complete 7]: the clock reads noon of 29 February
    2024 in a zone five and a half hours east of UTC. *)
Definition completeRun : list (MoreEvent unit) :=
  [EBase (ENewClient None);
   Etime_Now (todoist.Time_ sampleTime);
   EItem_Complete "7" (todoist.mkTime (UTC (todoist.Time_ sampleTime))) true None;
   EBase (ECommit None);
   EBase (EFullSync [] None);
   EBase (EPrintln "Successful completion of item(s).")].

(** [item complete] with no argument. *)
Definition completeRunNoArgs : list (MoreEvent unit) :=
  [EBase (ENewClient None)].

(** [item list] with two items in the store. *)
Definition listRun : list (MoreEvent unit) :=
  [EBase (ENewClient None);
   EItem_GetAll [milkOld; milkNew];
   EBase (ERelation_Items [milkOld; milkNew] tt);
   EBase (EItemTableString [milkOld; milkNew] tt "table");
   EBase (EPrintln "table")].

(* ================================================================= *)
(** * Part II: lemmas and theorems *)
(* ================================================================= *)

(** ** Digits and small ranges *)

(** Case analysis on an integer known to lie in a small range: one goal for
    each value from [lo] on, until the bounds in the context rule the next
    one out. *)
Ltac each_value z lo :=
  tryif (exfalso; lia) then idtac
  else (destruct (Z.eq_dec z lo) as [->|?];
        [ | let lo' := eval compute in (lo + 1) in each_value z lo' ]).

(** A property checked on every integer of [range n] holds below [n]. *)
Lemma forall_range (P : Z -> bool) (n : Z) :
  forallb P (range (Z.to_nat n)) = true -> forall z, 0 <= z < n -> P z = true.
Proof.
  intros H z Hz. rewrite forallb_forall in H. apply H.
  unfold range. apply in_map_iff. exists (Z.to_nat z). split; [lia|].
  apply in_seq. lia.
Qed.

Lemma byteZ_ofByte z : 0 <= z < 256 -> byteZ (ofByte z) = z.
Proof.
  intros H. unfold byteZ, ofByte. rewrite N_ascii_embedding; lia.
Qed.

Lemma isDigit_digit n : 0 <= n <= 9 -> isDigit (digit n) = true.
Proof.
  intros H. unfold isDigit, digit. rewrite byteZ_ofByte by lia.
  apply andb_true_iff; split; apply Z.leb_le; lia.
Qed.

Lemma digitVal_digit n : 0 <= n <= 9 -> digitVal (digit n) = n.
Proof. intros H. unfold digitVal, digit. rewrite byteZ_ofByte by lia. lia. Qed.

Lemma digit_not_space n : 0 <= n <= 9 -> Ascii.eqb (digit n) " " = false.
Proof.
  intros H. apply Ascii.eqb_neq. intros E.
  apply (f_equal byteZ) in E. unfold digit in E. rewrite byteZ_ofByte in E by lia.
  change (byteZ " "%char) with 32 in E. lia.
Qed.

(** [appendInt] on small numbers, checked value by value. *)
Lemma appendInt_2 u : 0 <= u < 100 -> time.appendInt u 2 = twoDigits u.
Proof.
  intros H. apply String.eqb_eq.
  apply (forall_range (fun u => String.eqb (time.appendInt u 2) (twoDigits u)) 100); [|lia].
  vm_compute. reflexivity.
Qed.

Lemma appendInt_0 u :
  0 <= u < 100 ->
  time.appendInt u 0 = if u <? 10 then char (digit u) else twoDigits u.
Proof.
  intros H. apply String.eqb_eq.
  apply (forall_range (fun u => String.eqb (time.appendInt u 0) (if u <? 10 then char (digit u) else twoDigits u)) 100); [|lia].
  vm_compute. reflexivity.
Qed.

Lemma appendInt_4 u : 0 <= u < 10000 -> time.appendInt u 4 = fourDigits u.
Proof.
  intros H. apply String.eqb_eq.
  apply (forall_range (fun u => String.eqb (time.appendInt u 4) (fourDigits u)) 10000); [|lia].
  vm_compute. reflexivity.
Qed.

(** ** The calendar: years and days of the year *)

Lemma absDate_split d :
  time.absDate d =
  let '(year, yday) := yearDay d in
  let '(m, dd) := monthDay (time.isLeap year) yday in
  (year, m, dd, yday).
Proof.
  unfold time.absDate, yearDay, monthDay. cbv zeta.
  match goal with |- context [time.isLeap ?y && (?d =? _)] =>
    destruct (time.isLeap y && (d =? 31 + 29 - 1)); [reflexivity|] end.
  match goal with |- context [if ?c then (_ + 1, _) else _] => destruct c; reflexivity end.
Qed.

Lemma rem_eqb0 a b : 0 < b -> (Z.rem a b =? 0) = (a mod b =? 0).
Proof.
  intros Hb.
  destruct (Z.eqb_spec (Z.rem a b) 0) as [H|H]; destruct (Z.eqb_spec (a mod b) 0) as [H'|H']; try reflexivity.
  - exfalso. apply H'. apply Z.rem_divide in H; [|lia]. apply Z.mod_divide; [lia|exact H].
  - exfalso. apply H. apply Z.mod_divide in H'; [|lia]. apply Z.rem_divide; [lia|exact H'].
Qed.

Lemma isLeap_mod y :
  time.isLeap y = (y mod 4 =? 0) && (negb (y mod 100 =? 0) || (y mod 400 =? 0)).
Proof. unfold time.isLeap. rewrite !rem_eqb0 by lia. reflexivity. Qed.

(** The day of the year is within the year, and counting the days up to the
    year and adding it gives the day count back. *)
Lemma yearDay_spec d :
  let '(year, yday) := yearDay d in
  0 <= yday /\ (yday <= 364 \/ (yday = 365 /\ time.isLeap year = true)) /\
  time.daysSinceEpoch year + yday = d.
Proof.
  unfold yearDay, time.daysSinceEpoch, time.daysPer400Years, time.daysPer100Years, time.daysPer4Years.
  cbv zeta. rewrite isLeap_mod. rewrite !Z.shiftr_div_pow2 by lia.
  change (2 ^ 2) with 4.
  repeat match goal with |- context [Z.eqb ?a ?b] => destruct (Z.eqb_spec a b) end; cbn [andb orb negb];
  (split; [|split]); try (Z.div_mod_to_equations; lia).
Qed.

(** ** Reading back, element by element, what [Format] wrote *)

Lemma getnum_two a b r fixed :
  0 <= a <= 9 -> 0 <= b <= 9 ->
  time.getnum (String (digit a) (String (digit b) r)) fixed = Some (a * 10 + b, r).
Proof.
  intros Ha Hb. unfold time.getnum.
  rewrite !isDigit_digit, !digitVal_digit by lia. reflexivity.
Qed.

Lemma getnum_one a c r :
  0 <= a <= 9 -> isDigit c = false ->
  time.getnum (String (digit a) (String c r)) false = Some (a, String c r).
Proof.
  intros Ha Hc. unfold time.getnum.
  rewrite isDigit_digit, digitVal_digit, Hc by lia. reflexivity.
Qed.

Lemma getnum_twoDigits u r fixed :
  0 <= u < 100 -> time.getnum (twoDigits u ++ r) fixed = Some (u, r).
Proof.
  intros H. unfold twoDigits, char. cbn [append].
  rewrite getnum_two by (Z.div_mod_to_equations; lia).
  f_equal. f_equal. Z.div_mod_to_equations; lia.
Qed.

Lemma skip_space c r :
  Ascii.eqb c " " = false ->
  time.skip (String " " (String c r)) " " = (String c r, true).
Proof.
  intros H. unfold time.skip. cbn. rewrite H. reflexivity.
Qed.

Lemma skip_colon r : time.skip (String ":" r) ":" = (r, true).
Proof. reflexivity. Qed.

Lemma skip_nothing r : time.skip r "" = (r, true).
Proof. reflexivity. Qed.

Lemma parseStd_weekday f w rest :
  0 <= w < 7 ->
  time.parseStd time.stdWeekDay f (substring 0 3 (time.Weekday_String w) ++ rest)
  = time.mkStep f rest "" false.
Proof.
  intros H. destruct f.
  each_value w 0; reflexivity.
Qed.

Lemma parseStd_month y mo d h mi s ns zo m rest :
  1 <= m <= 12 ->
  time.parseStd time.stdMonth (time.mkFields y mo d h mi s ns zo)
    (substring 0 3 (time.Month_String m) ++ rest)
  = time.mkStep (time.mkFields y m d h mi s ns zo) rest "" false.
Proof.
  intros H.
  each_value m 1; reflexivity.
Qed.

Lemma isDigit_space : isDigit " " = false.
Proof. reflexivity. Qed.

Lemma parseStd_day y mo d h mi s ns zo v rest :
  0 <= v < 100 ->
  time.parseStd time.stdDay (time.mkFields y mo d h mi s ns zo)
    (time.appendInt v 0 ++ String " " rest)
  = time.mkStep (time.mkFields y mo v h mi s ns zo) (String " " rest) "" false.
Proof.
  intros H. rewrite appendInt_0 by lia. unfold time.parseStd.
  destruct (Z.ltb_spec v 10).
  - unfold char. cbn [append]. rewrite getnum_one by (lia || reflexivity). reflexivity.
  - rewrite getnum_twoDigits by lia. reflexivity.
Qed.

Lemma atoi_fourDigits u :
  0 <= u < 10000 -> time.atoiFrom 0 (fourDigits u) = Some u.
Proof.
  intros H. unfold fourDigits, char, time.atoiFrom.
  rewrite !isDigit_digit, !digitVal_digit by (Z.div_mod_to_equations; lia).
  f_equal. Z.div_mod_to_equations; lia.
Qed.

Lemma parseStd_year y mo d h mi s ns zo v rest :
  0 <= v < 10000 ->
  time.parseStd time.stdLongYear (time.mkFields y mo d h mi s ns zo)
    (time.appendInt v 4 ++ rest)
  = time.mkStep (time.mkFields v mo d h mi s ns zo) rest "" false.
Proof.
  intros H. rewrite appendInt_4 by lia. unfold time.parseStd.
  pose proof (atoi_fourDigits v H) as A. unfold fourDigits, char in *.
  cbn [append]. rewrite isDigit_digit by (Z.div_mod_to_equations; lia).
  cbn [negb]. rewrite A. reflexivity.
Qed.

Lemma parseStd_hour y mo d h mi s ns zo v rest :
  0 <= v < 24 ->
  time.parseStd time.stdHour (time.mkFields y mo d h mi s ns zo)
    (time.appendInt v 2 ++ rest)
  = time.mkStep (time.mkFields y mo d v mi s ns zo) rest "" false.
Proof.
  intros H. rewrite appendInt_2 by lia. unfold time.parseStd.
  rewrite getnum_twoDigits by lia.
  destruct (Z.ltb_spec v 0); [lia|]. destruct (Z.leb_spec 24 v); [lia|]. reflexivity.
Qed.

Lemma parseStd_minute y mo d h mi s ns zo v rest :
  0 <= v < 60 ->
  time.parseStd time.stdZeroMinute (time.mkFields y mo d h mi s ns zo)
    (time.appendInt v 2 ++ rest)
  = time.mkStep (time.mkFields y mo d h v s ns zo) rest "" false.
Proof.
  intros H. rewrite appendInt_2 by lia. unfold time.parseStd.
  rewrite getnum_twoDigits by lia.
  destruct (Z.ltb_spec v 0); [lia|]. destruct (Z.leb_spec 60 v); [lia|]. reflexivity.
Qed.

Lemma parseStd_second y mo d h mi s ns zo v rest :
  0 <= v < 60 ->
  time.parseStd time.stdZeroSecond (time.mkFields y mo d h mi s ns zo)
    (time.appendInt v 2 ++ String " " rest)
  = time.mkStep (time.mkFields y mo d h mi v ns zo) (String " " rest) "" false.
Proof.
  intros H. rewrite appendInt_2 by lia. unfold time.parseStd.
  rewrite getnum_twoDigits by lia.
  destruct (Z.ltb_spec v 0); [lia|]. destruct (Z.leb_spec 60 v); [lia|].
  cbn [orb]. destruct rest as [|c r]; reflexivity.
Qed.

Lemma formatStd_zone t : time.formatStd t time.stdNumTZ = zoneText (time.offset t).
Proof.
  unfold time.formatStd, zoneText.
  destruct (time.absDate _) as [[[? ?] ?] ?]. destruct (time.absClock _) as [[? ?] ?].
  reflexivity.
Qed.

Lemma parseStd_zone y mo d h mi s ns zo o :
  Z.rem o 60 = 0 -> -90000 < o < 90000 ->
  time.parseStd time.stdNumTZ (time.mkFields y mo d h mi s ns zo) (zoneText o ++ "")
  = time.mkStep (time.mkFields y mo d h mi s ns o) "" "" false.
Proof.
  intros Hr Hb. unfold zoneText.
  set (zone := Z.quot o 60).
  assert (Hz : o = 60 * zone) by (subst zone; Z.quot_rem_to_equations; lia).
  set (az := if zone <? 0 then - zone else zone).
  assert (Haz : 0 <= az < 1500) by (subst az; destruct (Z.ltb_spec zone 0); lia).
  assert (Hq : 0 <= Z.quot az 60 <= 24) by (Z.quot_rem_to_equations; lia).
  assert (Hm : 0 <= Z.rem az 60 < 60) by (Z.quot_rem_to_equations; lia).
  rewrite !appendInt_2 by lia.
  assert (Hv : (Z.quot az 60 * 60 + Z.rem az 60) * 60 + 0 = 60 * az)
    by (Z.quot_rem_to_equations; lia).
  unfold time.parseStd, twoDigits, char.
  destruct (Z.ltb_spec zone 0) as [Hneg|Hpos]; cbn [append];
    rewrite !getnum_two by (Z.div_mod_to_equations; lia);
    replace (Z.quot az 60 / 10 * 10 + Z.quot az 60 mod 10) with (Z.quot az 60)
      by (Z.div_mod_to_equations; lia);
    replace (Z.rem az 60 / 10 * 10 + Z.rem az 60 mod 10) with (Z.rem az 60)
      by (Z.div_mod_to_equations; lia);
    destruct (Z.ltb_spec 24 (Z.quot az 60)); try lia;
    destruct (Z.ltb_spec 60 (Z.rem az 60)); try lia;
    cbn; rewrite Hv; subst az; f_equal; f_equal; lia.
Qed.

(** ** The calendar: months, and [Date] after [absDate] *)

Lemma monthDay_common yday : 0 <= yday < 365 -> monthDay_ok false yday = true.
Proof. apply (forall_range (monthDay_ok false) 365). vm_compute. reflexivity. Qed.

Lemma monthDay_leap yday : 0 <= yday < 366 -> monthDay_ok true yday = true.
Proof. apply (forall_range (monthDay_ok true) 366). vm_compute. reflexivity. Qed.

(** The date [absDate] gives exists, and [daysSinceEpoch] with the days
    before the month and the day finds the day count again. *)
Lemma absDate_spec d :
  let '(year, month, day, _) := time.absDate d in
  1 <= month <= 12 /\ 1 <= day <= time.daysIn month year /\
  time.daysSinceEpoch year + time.daysBeforeAt (month - 1)
  + (if time.isLeap year && (month >=? 3) then 1 else 0) + (day - 1) = d.
Proof.
  rewrite absDate_split. pose proof (yearDay_spec d) as Y.
  destruct (yearDay d) as [year yday]. destruct Y as (Y0 & Y1 & Y2).
  assert (OK : monthDay_ok (time.isLeap year) yday = true).
  { destruct (time.isLeap year).
    - apply monthDay_leap. lia.
    - apply monthDay_common. destruct Y1 as [|[_ ?]]; [lia|discriminate]. }
  unfold monthDay_ok in OK. destruct (monthDay (time.isLeap year) yday) as [m dd].
  rewrite !andb_true_iff in OK. destruct OK as ((((A & B) & C) & D) & E).
  apply Z.leb_le in A, B, C, D. apply Z.eqb_eq in E.
  unfold time.daysIn. repeat split; try lia.
Qed.

Lemma absClock_spec a :
  let '(h, mi, s) := time.absClock a in
  0 <= h < 24 /\ 0 <= mi < 60 /\ 0 <= s < 60 /\
  a / time.secondsPerDay * time.secondsPerDay
  + (h * time.secondsPerHour + mi * time.secondsPerMinute + s) = a.
Proof.
  unfold time.absClock, time.secondsPerDay, time.secondsPerHour, time.secondsPerMinute.
  cbv zeta. repeat split; Z.div_mod_to_equations; lia.
Qed.

Lemma norm_id hi lo base : 0 <= lo < base -> time.norm hi lo base = (hi, lo).
Proof.
  intros H. unfold time.norm.
  destruct (Z.ltb_spec lo 0); [lia|]. destruct (Z.geb_spec lo base); [lia|]. reflexivity.
Qed.

(** [Date] on the fields of a wall-clock time gives that time back. *)
Lemma Date_absDate a :
  let '(year, month, day, _) := time.absDate (a / time.secondsPerDay) in
  let '(h, mi, s) := time.absClock a in
  time.Date year month day h mi s 0 = time.mkTime a 0 0.
Proof.
  pose proof (absDate_spec (a / time.secondsPerDay)) as D.
  pose proof (absClock_spec a) as C.
  destruct (time.absDate _) as [[[year month] day] yday].
  destruct (time.absClock a) as [[h mi] s].
  destruct D as (D1 & D2 & D3). destruct C as (C1 & C2 & C3 & C4).
  unfold time.Date.
  rewrite (norm_id year (month - 1) 12) by lia.
  rewrite (norm_id s 0 1000000000) by lia.
  rewrite (norm_id mi s 60) by lia.
  rewrite (norm_id h mi 60) by lia.
  rewrite (norm_id day h 24) by lia.
  replace (month - 1 + 1) with month by lia.
  f_equal.
  destruct (time.isLeap year && (month >=? 3)); lia.
Qed.

(** ** [Parse] after [Format] *)

(** [Format] goes through the eight elements of the layout. *)
Lemma Format_layout t :
  time.Format t todoist.layout =
  time.formatStd t time.stdWeekDay ++ " " ++ time.formatStd t time.stdDay ++ " " ++
  time.formatStd t time.stdMonth ++ " " ++ time.formatStd t time.stdLongYear ++ " " ++
  time.formatStd t time.stdHour ++ ":" ++ time.formatStd t time.stdZeroMinute ++ ":" ++
  time.formatStd t time.stdZeroSecond ++ " " ++ time.formatStd t time.stdNumTZ ++ "".
Proof. reflexivity. Qed.

(** One turn of the loop of [parse] on an element that reads well. *)
Lemma parseLoop_step k al av l value f prefix e suffix value1 f' value' :
  time.nextStdChunk l = (prefix, Some e, suffix) ->
  time.skip value prefix = (value1, true) ->
  time.parseStd e f value1 = time.mkStep f' value' "" false ->
  time.parseLoop (S k) al av l value f = time.parseLoop k al av suffix value' f'.
Proof.
  intros H1 H2 H3. cbn [time.parseLoop]. rewrite H1, H2, H3. reflexivity.
Qed.

Lemma absWeekday_range a : 0 <= time.absWeekday a < 7.
Proof. unfold time.absWeekday. Z.div_mod_to_equations; lia. Qed.

Lemma zoneText_head o :
  exists c r, zoneText o = String c r /\ Ascii.eqb c " " = false.
Proof.
  unfold zoneText. destruct (Z.quot o 60 <? 0); eexists; eexists; (split; [reflexivity|reflexivity]).
Qed.

Lemma month3_head m rest :
  1 <= m <= 12 ->
  exists c r, substring 0 3 (time.Month_String m) ++ rest = String c r
              /\ Ascii.eqb c " " = false.
Proof.
  intros H.
  each_value m 1;
    eexists; eexists; (split; [reflexivity|reflexivity]).
Qed.

Lemma twoDigits_head u rest :
  0 <= u < 100 ->
  exists c r, twoDigits u ++ rest = String c r /\ Ascii.eqb c " " = false.
Proof.
  intros H. unfold twoDigits. eexists; eexists; split; [reflexivity|].
  apply digit_not_space. Z.div_mod_to_equations; lia.
Qed.

Lemma appendInt0_head u rest :
  0 <= u < 100 ->
  exists c r, time.appendInt u 0 ++ rest = String c r /\ Ascii.eqb c " " = false.
Proof.
  intros H. rewrite appendInt_0 by lia. destruct (Z.ltb_spec u 10).
  - eexists; eexists; split; [reflexivity|]. apply digit_not_space. lia.
  - apply twoDigits_head. lia.
Qed.

Lemma appendInt4_head u rest :
  0 <= u < 10000 ->
  exists c r, time.appendInt u 4 ++ rest = String c r /\ Ascii.eqb c " " = false.
Proof.
  intros H. rewrite appendInt_4 by lia. unfold fourDigits.
  eexists; eexists; split; [reflexivity|]. apply digit_not_space.
  Z.div_mod_to_equations; lia.
Qed.

Lemma skip_space_head x :
  (exists c r, x = String c r /\ Ascii.eqb c " " = false) ->
  time.skip (String " " x) " " = (x, true).
Proof. intros (c & r & -> & H). apply skip_space. exact H. Qed.

Lemma daysIn_bound m y : 1 <= m <= 12 -> time.daysIn m y <= 31.
Proof.
  intros H.
  unfold time.daysIn.
  destruct (time.isLeap y);
  each_value m 1;
    apply Z.leb_le; vm_compute; reflexivity.
Qed.

(** A time of whole seconds, with a year of four digits and an offset of
    whole minutes under 25 hours, is parsed back from its text. *)
Lemma Parse_Format t :
  time.nsec t = 0 -> 0 <= time.Year t <= 9999 ->
  Z.rem (time.offset t) 60 = 0 -> -90000 < time.offset t < 90000 ->
  time.Parse todoist.layout (time.Format t todoist.layout) = Ok t.
Proof.
  intros Hns Hy Hr Hb. rewrite Format_layout. unfold time.Parse.
  rewrite formatStd_zone.
  set (av := _ ++ _) at 1.
  unfold time.Year in Hy.
  pose proof (absDate_spec (time.abs t / time.secondsPerDay)) as D.
  pose proof (absClock_spec (time.abs t)) as C.
  pose proof (Date_absDate (time.abs t)) as DA.
  pose proof (absWeekday_range (time.abs t)) as W.
  unfold time.formatStd in *.
  destruct (time.absDate _) as [[[year month] day] yday].
  destruct (time.absClock _) as [[h mi] s].
  destruct D as (D1 & D2 & D3). destruct C as (C1 & C2 & C3 & C4).
  assert (Hday : 0 <= day < 100).
  { pose proof (daysIn_bound month year D1). lia. }
  unfold time.fields0. change (String.length todoist.layout) with 29%nat.
  cbv [todoist.layout].
  (* Mon *)
  erewrite parseLoop_step;
    [ | reflexivity | apply skip_nothing | apply parseStd_weekday; exact W ].
  (* 2 *)
  cbn [strconv.dropN String.length time.stdText append].
  erewrite parseLoop_step;
    [ | reflexivity | apply skip_space_head, appendInt0_head; lia
      | apply parseStd_day; lia ].
  (* Jan *)
  cbn [strconv.dropN String.length time.stdText].
  erewrite parseLoop_step;
    [ | reflexivity | apply skip_space_head, month3_head; lia
      | apply parseStd_month; lia ].
  (* 2006 *)
  cbn [strconv.dropN String.length time.stdText].
  erewrite parseLoop_step;
    [ | reflexivity | apply skip_space_head, appendInt4_head; lia
      | apply parseStd_year; lia ].
  (* 15 *)
  cbn [strconv.dropN String.length time.stdText].
  erewrite parseLoop_step;
    [ | reflexivity
      | apply skip_space_head; rewrite appendInt_2 by lia; apply twoDigits_head; lia
      | apply parseStd_hour; lia ].
  (* 04 *)
  cbn [strconv.dropN String.length time.stdText].
  erewrite parseLoop_step;
    [ | reflexivity | apply skip_colon | apply parseStd_minute; lia ].
  (* 05 *)
  cbn [strconv.dropN String.length time.stdText].
  erewrite parseLoop_step;
    [ | reflexivity | apply skip_colon | apply parseStd_second; lia ].
  (* -0700 *)
  cbn [strconv.dropN String.length time.stdText].
  erewrite parseLoop_step;
    [ | reflexivity
      | apply skip_space_head;
        destruct (zoneText_head (time.offset t)) as (c & r & -> & Hc);
        exists c, (r ++ ""); split; [reflexivity | exact Hc]
      | apply parseStd_zone; assumption ].
  (* the end of the layout *)
  cbn [strconv.dropN String.length time.stdText].
  cbn [time.parseLoop time.nextStdChunk time.skip time.skipLoop String.length
       Nat.eqb negb time.finish].
  destruct D2 as [D2a D2b].
  destruct (Z.ltb_spec day 1); [lia|]. destruct (Z.gtb_spec day (time.daysIn month year)); [lia|].
  cbn [orb]. rewrite DA. cbn [time.sec time.nsec].
  destruct (Z.eqb_spec (time.offset t) (-1)) as [E|_].
  { rewrite E in Hr. vm_compute in Hr. discriminate. }
  cbn [negb]. destruct t as [sc ns off]. cbn in *. subst ns.
  unfold time.abs. cbn [time.sec time.offset]. f_equal. f_equal. lia.
Qed.

(** ** [Unquote] after [Quote] *)

Lemma plain_app a b : plain (a ++ b) = plain a && plain b.
Proof. induction a as [|c a IH]; cbn; [reflexivity|]. rewrite IH, andb_assoc. reflexivity. Qed.

Lemma quoteByte_plain c : plainByte c = true -> strconv.quoteByte c = char c.
Proof.
  unfold plainByte, strconv.quoteByte. rewrite !andb_true_iff, !negb_true_iff.
  intros [[[A B] C] D]. rewrite C, D, A, B. reflexivity.
Qed.

(** [Quote] only adds the two quotes to a plain text. *)
Lemma Quote_plain s : plain s = true -> strconv.Quote s = quoted s.
Proof.
  unfold strconv.Quote, quoted. intros H. f_equal.
  induction s as [|c s IH]; cbn in *; [reflexivity|].
  apply andb_true_iff in H. destruct H as [Hc Hs].
  rewrite quoteByte_plain, IH by assumption. reflexivity.
Qed.

Lemma splitLast_app s c : splitLast (s ++ char c) = Some (s, c).
Proof.
  induction s as [|a s IH]; cbn; [reflexivity|]. rewrite IH. reflexivity.
Qed.

Lemma contains_plain s c :
  plain s = true -> plainByte c = false -> contains s c = false.
Proof.
  intros H Hc. induction s as [|a s IH]; cbn in *; [reflexivity|].
  apply andb_true_iff in H. destruct H as [Ha Hs]. rewrite IH by assumption.
  destruct (Ascii.eqb_spec a c) as [->|]; [congruence|reflexivity].
Qed.

Lemma validFrom_plain s : plain s = true -> utf8.validFrom 0 s = true.
Proof.
  induction s as [|a s IH]; cbn [plain utf8.validFrom]; [reflexivity|].
  intros H. apply andb_true_iff in H. destruct H as [Ha Hs].
  unfold plainByte in Ha. rewrite !andb_true_iff in Ha. destruct Ha as [[[A B] _] _].
  apply Z.leb_le in A. apply Z.ltb_lt in B.
  unfold utf8.DecodeRuneInString, utf8.RuneSelf, utf8.RuneError.
  destruct (Z.ltb_spec (byteZ a) 128); [|lia].
  destruct (Z.eqb_spec (byteZ a) 65533); [lia|]. cbn. apply IH, Hs.
Qed.

(** [Unquote] takes them off again. *)
Lemma Unquote_quoted s : plain s = true -> strconv.Unquote (quoted s) = Ok s.
Proof.
  intros H. unfold strconv.Unquote, quoted. rewrite splitLast_app.
  change (Ascii.eqb dquote dquote) with true.
  change (Ascii.eqb dquote bquote) with false.
  change (Ascii.eqb dquote squote) with false.
  cbn [negb andb orb].
  rewrite !contains_plain by (assumption || reflexivity). cbn [orb].
  unfold utf8.ValidString. rewrite validFrom_plain by assumption. reflexivity.
Qed.

(** ** Every text [Format] writes is in the pattern of the layout *)

Lemma plain_digit n : 0 <= n <= 9 -> plainByte (digit n) = true.
Proof.
  intros H.
  each_value n 0; reflexivity.
Qed.

Lemma allDigits_plain s : allDigits s = true -> plain s = true.
Proof.
  induction s as [|c s IH]; cbn; [reflexivity|]. intros H.
  apply andb_true_iff in H. destruct H as [Hc Hs]. rewrite IH by assumption.
  rewrite andb_true_r. unfold isDigit in Hc. apply andb_true_iff in Hc.
  destruct Hc as [A B]. apply Z.leb_le in A, B.
  unfold plainByte. rewrite !andb_true_iff, !negb_true_iff. repeat split.
  - apply Z.leb_le. lia.
  - apply Z.ltb_lt. lia.
  - apply Ascii.eqb_neq. intros ->. change (byteZ dquote) with 34 in A. lia.
  - apply Ascii.eqb_neq. intros ->. change (byteZ bslash) with 92 in B. lia.
Qed.

Lemma allDigits_app a b : allDigits (a ++ b) = allDigits a && allDigits b.
Proof. induction a as [|c a IH]; cbn; [reflexivity|]. rewrite IH, andb_assoc. reflexivity. Qed.

Lemma allDigits_zeros n : allDigits (time.zeros n) = true.
Proof. induction n; cbn; [reflexivity|]. exact IHn. Qed.

Lemma allDigits_digitsOf fuel u acc :
  0 <= u -> allDigits acc = true -> allDigits (time.digitsOf fuel u acc) = true.
Proof.
  revert u acc. induction fuel as [|k IH]; intros u acc Hu Hacc; cbn [time.digitsOf].
  - cbn [allDigits]. change (ofByte (48 + u mod 10)) with (digit (u mod 10)).
    rewrite isDigit_digit by (Z.div_mod_to_equations; lia). exact Hacc.
  - assert (D : allDigits (String (ofByte (48 + u mod 10)) acc) = true).
    { cbn [allDigits]. change (ofByte (48 + u mod 10)) with (digit (u mod 10)).
      rewrite isDigit_digit by (Z.div_mod_to_equations; lia). exact Hacc. }
    destruct (u <? 10); [exact D|]. apply IH; [Z.div_mod_to_equations; lia|exact D].
Qed.

Lemma length_app a b : String.length (a ++ b) = (String.length a + String.length b)%nat.
Proof. induction a as [|c a IH]; cbn; [reflexivity|]. rewrite IH. reflexivity. Qed.

Lemma length_zeros n : String.length (time.zeros n) = n.
Proof. induction n; cbn; congruence. Qed.

Lemma appendInt_body x width :
  time.appendInt x width = (if x <? 0 then "-" else "") ++ intBody x width.
Proof. reflexivity. Qed.

Lemma intBody_digits x width :
  allDigits (intBody x width) = true /\ (width <= String.length (intBody x width))%nat.
Proof.
  unfold intBody. split.
  - rewrite allDigits_app, allDigits_zeros. apply allDigits_digitsOf; [lia|reflexivity].
  - rewrite length_app, length_zeros. lia.
Qed.

Lemma app_empty_r s : s ++ "" = s.
Proof. induction s as [|c s IH]; cbn; congruence. Qed.

Lemma app_assoc' a b c : (a ++ b) ++ c = a ++ b ++ c.
Proof. induction a as [|x a IH]; cbn; congruence. Qed.

Lemma digitsN_twoDigits u : 0 <= u < 100 -> digitsN 2 (twoDigits u) = true.
Proof.
  intros H. unfold digitsN, twoDigits, char. cbn [String.length Nat.eqb andb allDigits].
  rewrite !isDigit_digit by (Z.div_mod_to_equations; lia). reflexivity.
Qed.

Lemma weekday_name w :
  0 <= w < 7 -> In (substring 0 3 (time.Weekday_String w)) time.shortDayNames.
Proof.
  intros H.
  each_value w 0; cbn; tauto.
Qed.

Lemma month_name m :
  1 <= m <= 12 -> In (substring 0 3 (time.Month_String m)) time.shortMonthNames.
Proof.
  intros H.
  each_value m 1; cbn; tauto.
Qed.

Lemma isDayText_appendInt d : 0 <= d < 100 -> isDayText (time.appendInt d 0) = true.
Proof.
  intros H. rewrite appendInt_0 by lia. unfold isDayText.
  destruct (Z.ltb_spec d 10).
  - unfold digitsN, char. cbn [String.length Nat.eqb andb allDigits].
    rewrite isDigit_digit by lia. reflexivity.
  - rewrite (digitsN_twoDigits d) by lia. apply orb_true_r.
Qed.

Lemma isYearText_appendInt y : isYearText (time.appendInt y 4) = true.
Proof.
  rewrite appendInt_body. destruct (intBody_digits y 4) as [A B].
  unfold isYearText, digitsFrom.
  destruct (y <? 0); cbn [append].
  - change (Ascii.eqb "-" "-") with true. rewrite A.
    apply Nat.leb_le in B. rewrite B. apply orb_true_r.
  - rewrite A. apply Nat.leb_le in B. rewrite B. reflexivity.
Qed.

Lemma digitsFrom_appendInt x : 0 <= x -> digitsFrom 2 (time.appendInt x 2) = true.
Proof.
  intros H. rewrite appendInt_body. destruct (intBody_digits x 2) as [A B].
  destruct (Z.ltb_spec x 0); [lia|]. cbn [append].
  unfold digitsFrom. rewrite A. apply Nat.leb_le in B. rewrite B. reflexivity.
Qed.

Lemma Format_fields t :
  time.Format t todoist.layout =
  time.formatStd t time.stdWeekDay ++ " " ++ time.formatStd t time.stdDay ++ " " ++
  time.formatStd t time.stdMonth ++ " " ++ time.formatStd t time.stdLongYear ++ " " ++
  time.formatStd t time.stdHour ++ ":" ++ time.formatStd t time.stdZeroMinute ++ ":" ++
  time.formatStd t time.stdZeroSecond ++ " " ++ zoneText (time.offset t).
Proof. rewrite Format_layout, formatStd_zone, app_empty_r. reflexivity. Qed.

(** Whatever the time. *)
Lemma Format_InLayout t : InLayout (time.Format t todoist.layout).
Proof.
  rewrite Format_fields.
  pose proof (absDate_spec (time.abs t / time.secondsPerDay)) as D.
  pose proof (absClock_spec (time.abs t)) as C.
  pose proof (absWeekday_range (time.abs t)) as W.
  unfold time.formatStd, zoneText.
  destruct (time.absDate _) as [[[year month] day] yday].
  destruct (time.absClock _) as [[h mi] s].
  destruct D as (D1 & D2 & _). destruct C as (C1 & C2 & C3 & _).
  pose proof (daysIn_bound month year D1) as D3.
  set (zone := Z.quot (time.offset t) 60).
  set (az := if zone <? 0 then - zone else zone).
  assert (Haz : 0 <= az) by (subst az; destruct (Z.ltb_spec zone 0); lia).
  rewrite ?app_assoc'.
  apply InLayout_intro.
  - apply weekday_name, W.
  - apply isDayText_appendInt. lia.
  - apply month_name, D1.
  - apply isYearText_appendInt.
  - rewrite appendInt_2 by lia. apply digitsN_twoDigits. lia.
  - rewrite appendInt_2 by lia. apply digitsN_twoDigits. lia.
  - rewrite appendInt_2 by lia. apply digitsN_twoDigits. lia.
  - destruct (zone <? 0); tauto.
  - apply digitsFrom_appendInt. Z.quot_rem_to_equations; lia.
  - rewrite appendInt_2 by (Z.quot_rem_to_equations; lia).
    apply digitsN_twoDigits. Z.quot_rem_to_equations; lia.
Qed.

Lemma plain_of_In x l : In x l -> forallb plain l = true -> plain x = true.
Proof. intros H F. rewrite forallb_forall in F. apply F, H. Qed.

Lemma InLayout_plain s : InLayout s -> plain s = true.
Proof.
  intros [wd day mon year hh mi ss sign zh zm Hwd Hday Hmon Hyear Hhh Hmi Hss Hsign Hzh Hzm].
  assert (Pn : forall n x, digitsN n x = true -> plain x = true).
  { intros n x H. unfold digitsN in H. apply andb_true_iff in H. apply allDigits_plain, H. }
  assert (Pf : forall n x, digitsFrom n x = true -> plain x = true).
  { intros n x H. unfold digitsFrom in H. apply andb_true_iff in H. apply allDigits_plain, H. }
  rewrite !plain_app.
  rewrite (plain_of_In wd _ Hwd) by reflexivity.
  rewrite (plain_of_In mon _ Hmon) by reflexivity.
  rewrite (Pn _ _ Hhh), (Pn _ _ Hmi), (Pn _ _ Hss), (Pn _ _ Hzm), (Pf _ _ Hzh).
  assert (Pd : plain day = true).
  { unfold isDayText in Hday. apply orb_true_iff in Hday. destruct Hday; eapply Pn; eassumption. }
  assert (Py : plain year = true).
  { unfold isYearText in Hyear. apply orb_true_iff in Hyear. destruct Hyear as [H|H].
    - eapply Pf; eassumption.
    - destruct year as [|c r]; [discriminate|]. apply andb_true_iff in H.
      destruct H as [Hc Hr]. apply Ascii.eqb_eq in Hc. subst c.
      cbn [plain]. rewrite (Pf _ _ Hr). reflexivity. }
  rewrite Pd, Py. destruct Hsign as [-> | ->]; reflexivity.
Qed.

Lemma Format_plain t : plain (time.Format t todoist.layout) = true.
Proof. apply InLayout_plain, Format_InLayout. Qed.

(* ================================================================= *)
(** ** Runs of programs *)
(* ================================================================= *)

Lemma runs_bind {R A B} (p : Prog R A) (f : A -> Prog R B) tr b :
  runs (bind p f) tr b <->
  exists tr1 a tr2, tr = (tr1 ++ tr2)%list /\ runs p tr1 a /\ runs (f a) tr2 b.
Proof.
  revert tr. induction p as [a|X c k IH]; intros tr; cbn [bind runs].
  - split.
    + intros H. exists [], a, tr. repeat split. exact H.
    + intros (tr1 & a' & tr2 & -> & [-> ->] & H). exact H.
  - split.
    + intros (x & tr' & -> & H). apply IH in H.
      destruct H as (tr1 & a & tr2 & -> & H1 & H2).
      exists (event c x :: tr1), a, tr2. repeat split; [|exact H2].
      exists x, tr1. split; [reflexivity|exact H1].
    + intros (tr1 & a & tr2 & -> & (x & tr' & -> & H1) & H2).
      exists x, (tr' ++ tr2)%list. split; [reflexivity|].
      apply IH. exists tr', a, tr2. repeat split; assumption.
Qed.

Lemma none_app {R} (p : Event R -> bool) a b :
  none p (a ++ b)%list = none p a && none p b.
Proof. unfold none. apply forallb_app. Qed.

Ltac run_inv :=
  repeat (cbn [runs bind call] in *;
    match goal with
    | H : runs (bind _ _) _ _ |- _ =>
        apply runs_bind in H; destruct H as (? & ? & ? & ? & ? & ?); subst
    | H : runs (match ?x with _ => _ end) _ _ |- _ => destruct x eqn:?
    | H : exists _, _ |- _ => destruct H
    | H : _ /\ _ |- _ => destruct H
    | H : ?tr = _ :: _ |- _ => is_var tr; subst tr
    | H : ?tr = [] |- _ => is_var tr; subst tr
    | H : ?a = ?b |- _ => is_var a; subst a
    end).

Ltac inj_all :=
  repeat match goal with
    | H : Some _ = Some _ |- _ => injection H as H; try subst
    | H : Some _ = None |- _ => discriminate H
    | H : None = Some _ |- _ => discriminate H
    | H : Ok _ = Ok _ |- _ => injection H as H; try subst
    | H : Ok _ = Err _ |- _ => discriminate H
    | H : Err _ = Ok _ |- _ => discriminate H
    | H : Err _ = Err _ |- _ => injection H as H; try subst
    | H : (_, _) = (_, _) |- _ => injection H as ? ?; try subst
    | H : true = false |- _ => discriminate H
    | H : false = true |- _ => discriminate H
    end.

Lemma exec_runs {R S A} (h : Handler R S) (p : Prog R A) (s : S) :
  runs p (fst (fst (exec h p s))) (snd (fst (exec h p s))).
Proof.
  revert s. induction p as [a|X c k IH]; intros s; cbn [exec runs].
  - split; reflexivity.
  - destruct (h X c s) as [x s'] eqn:E. specialize (IH x s').
    destruct (exec h (k x) s') as [[tr a] s''] eqn:E'. cbn [fst snd] in *.
    exists x, tr. split; [reflexivity|exact IH].
Qed.

Lemma exec_preserves {R S Q A} (h : Handler R S) (q : S -> Q) (p : Prog R A) (s : S) :
  preserves h q ->
  none changesState (fst (fst (exec h p s))) = true ->
  q (snd (exec h p s)) = q s.
Proof.
  intros F. revert s. induction p as [a|X c k IH]; intros s; cbn [exec].
  - reflexivity.
  - pose proof (F X c s) as Fs.
    destruct (h X c s) as [x s'] eqn:E. specialize (IH x s').
    destruct (exec h (k x) s') as [[tr a] s''] eqn:E'. cbn [fst snd] in *.
    unfold none. cbn [forallb]. intros N. apply andb_true_iff in N.
    destruct N as [N1 N2]. apply negb_true_iff in N1.
    rewrite (IH N2). apply Fs, N1.
Qed.

Lemma labelsLoop_trace {R} names item (tr : list (Event R)) a :
  runs (labelsLoop names item) tr a -> forallb isLabelLookup tr = true.
Proof.
  revert item tr. induction names as [|n rest IH]; intros item tr H; cbn [labelsLoop] in H.
  - destruct H as [-> _]. reflexivity.
  - apply runs_bind in H. destruct H as (tr1 & it & tr2 & -> & H1 & H2).
    rewrite forallb_app. rewrite (IH _ _ H2), andb_true_r.
    destruct (NewID n); cbn [runs bind call] in H1.
    + destruct H1 as [-> _]. reflexivity.
    + destruct H1 as (x & tr' & -> & -> & _). reflexivity.
Qed.

Lemma labelsOf_trace {R} names item (tr : list (Event R)) a :
  runs (labelsOf names item) tr a -> forallb isLabelLookup tr = true.
Proof.
  unfold labelsOf. destruct (0 <? len names).
  - apply labelsLoop_trace.
  - intros [-> _]. reflexivity.
Qed.

(** The loop over the labels leaves the identifier and the content. *)
Lemma labelsLoop_keeps {R} names item (tr : list (Event R)) a :
  runs (labelsLoop names item) tr a ->
  Item_ID a = Item_ID item /\ Content a = Content item.
Proof.
  revert item tr. induction names as [|n rest IH]; intros item tr H; cbn [labelsLoop] in H.
  - destruct H as [_ ->]. split; reflexivity.
  - apply runs_bind in H. destruct H as (tr1 & it & tr2 & -> & H1 & H2).
    destruct (IH _ _ H2) as [-> ->].
    destruct (NewID n); cbn [runs bind call] in H1.
    + destruct H1 as [_ ->]. split; reflexivity.
    + destruct H1 as (x & tr' & _ & _ & ->). destruct x; split; reflexivity.
Qed.

Lemma labelsOf_keeps {R} names item (tr : list (Event R)) a :
  runs (labelsOf names item) tr a ->
  Item_ID a = Item_ID item /\ Content a = Content item.
Proof.
  unfold labelsOf. destruct (0 <? len names).
  - apply labelsLoop_keeps.
  - intros [_ ->]. split; reflexivity.
Qed.

Lemma labels_In {R} (tr : list (Event R)) e :
  forallb isLabelLookup tr = true -> In e tr -> isLabelLookup e = true.
Proof. intros F I. rewrite forallb_forall in F. apply F, I. Qed.

Lemma labels_none {R} (p : Event R -> bool) (tr : list (Event R)) :
  (forall e, isLabelLookup e = true -> p e = false) ->
  forallb isLabelLookup tr = true -> none p tr = true.
Proof.
  intros P F. unfold none. rewrite forallb_forall in *. intros e I.
  rewrite (P e (F e I)). reflexivity.
Qed.

Lemma labels_firstResolve {R} (tr rest : list (Event R)) :
  forallb isLabelLookup tr = true -> firstResolve (tr ++ rest)%list = firstResolve rest.
Proof.
  induction tr as [|e tr IH]; cbn [forallb app]; [reflexivity|].
  intros F. apply andb_true_iff in F. destruct F as [Fe Ft].
  destruct e; try discriminate Fe. cbn [firstResolve]. apply IH, Ft.
Qed.

Lemma labels_changesState {R} (e : Event R) :
  isLabelLookup e = true -> changesState e = false.
Proof. destruct e; (discriminate || reflexivity). Qed.

(** Turn the calls that [labelsOf] made into the fact that they are label
    lookups. *)
Ltac labels_facts :=
  repeat match goal with
    | H : runs (labelsOf _ _) _ _ |- _ => apply labelsOf_trace in H
    end.

(** The same, keeping what the loop leaves of the item. *)
Ltac labels_kept :=
  repeat match goal with
    | H : runs (labelsOf _ _) _ _ |- _ =>
        let K := fresh "K" in
        pose proof (labelsOf_keeps _ _ _ _ H) as K; destruct K;
        apply labelsOf_trace in H
    end.

(** Split [H : In e tr] over the events of a trace that is written out. *)
Ltac in_trace H :=
  cbn [event app In] in H;
  repeat match type of H with
    | _ \/ _ =>
        destruct H as [H|H];
        [ try discriminate H; try (injection H as ? ?; subst) | ]
    | In _ (_ ++ _) =>
        apply in_app_or in H; destruct H as [H|H];
        [ try (match goal with
               | L : forallb isLabelLookup _ = true |- _ =>
                   apply (labels_In _ _ L) in H; discriminate H
               end)
        | cbn [event app In] in H ]
    | False => contradiction
    end.


Lemma split_at_mutation {R} (tr : list (Event R)) m rest :
  dropReads tr = m :: rest ->
  tr = (takeReads tr ++ m :: rest)%list /\ none changesState (takeReads tr) = true.
Proof.
  induction tr as [|e tr IH]; cbn [dropReads takeReads]; [discriminate|].
  destruct (changesState e) eqn:E; intros H.
  - split; [exact H|reflexivity].
  - destruct (IH H) as [H1 H2]. split.
    + cbn [app]. f_equal. exact H1.
    + unfold none in *. cbn [forallb]. rewrite E, H2. reflexivity.
Qed.

Lemma dropReads_labels {R} (l rest : list (Event R)) :
  forallb isLabelLookup l = true -> dropReads (l ++ rest)%list = dropReads rest.
Proof.
  induction l as [|e l IH]; cbn [forallb app]; [reflexivity|].
  intros F. apply andb_true_iff in F. destruct F as [Fe Fl].
  cbn [dropReads]. rewrite (labels_changesState e Fe). apply IH, Fl.
Qed.

(** Cut a trace that is written out at its first call that changes state. *)
Ltac split_trace :=
  match goal with
  | |- exists pre m rest, ?tr = _ /\ _ =>
      let E := fresh "E" in
      let E1 := fresh "E" in
      let E2 := fresh "E" in
      eassert (E : dropReads tr = _ :: _);
      [ cbn [dropReads changesState isMutation isSync orb app];
        rewrite ?dropReads_labels by assumption;
        cbn [dropReads changesState isMutation isSync orb app];
        reflexivity
      | destruct (split_at_mutation _ _ _ E) as [E1 E2];
        eexists; eexists; eexists;
        split; [exact E1|]; split; [exact E2|] ]
  end.

Ltac answer_ok :=
  repeat match goal with
    | H : snd ?x = None |- _ => destruct x; cbn [snd] in H; subst
    end.

Lemma syncFollowsCommit_reads {R} (c : bool) (pre rest : list (Event R)) :
  none changesState pre = true ->
  syncFollowsCommit c (pre ++ rest)%list = syncFollowsCommit c rest.
Proof.
  induction pre as [|e pre IH]; cbn [app]; [reflexivity|].
  unfold none. cbn [forallb]. intros N. apply andb_true_iff in N.
  destruct N as [Ne Np]. apply negb_true_iff in Ne.
  destruct e; try discriminate Ne; cbn [syncFollowsCommit]; apply IH, Np.
Qed.

Lemma syncFollowsCommit_display {R} (post : list (Event R)) :
  forallb isDisplay post = true -> syncFollowsCommit true post = true.
Proof.
  induction post as [|e post IH]; cbn [forallb]; [reflexivity|].
  intros N. apply andb_true_iff in N. destruct N as [Ne Np].
  destruct e; try discriminate Ne; cbn [syncFollowsCommit]; apply IH, Np.
Qed.

Lemma foundByContent_isLookup {R} content (l : Event R) items :
  foundByContent content l = Some items -> isLookup l = true.
Proof. destruct l; (discriminate || reflexivity). Qed.

Lemma resolvedAs_isLookup {R} id (l : Event R) items :
  resolvedAs id l = Some items -> isLookup l = true.
Proof. destruct l; (discriminate || reflexivity). Qed.

Lemma syncFollowsCommit_phase {R} look line (pre : list (Event R)) m rest res :
  (forall l items, look l = Some items -> isLookup l = true) ->
  none changesState pre = true -> isMutation m = true ->
  NetworkPhase look line rest res ->
  syncFollowsCommit false (pre ++ m :: rest)%list = true.
Proof.
  intros K N M P. rewrite (syncFollowsCommit_reads _ _ _ N).
  destruct m; try discriminate M; cbn [syncFollowsCommit];
    destruct P as [e|e|l e F|l items shown relations table F I]; try reflexivity;
    cbn [syncFollowsCommit List.length Nat.eqb andb];
    apply K in F; destruct l; try discriminate F; reflexivity.
Qed.

(** *** Sorting by [DateAdded] *)

Lemma sorted_last {A} (R : A -> A -> Prop) (l : list A) (d : A) :
  StronglySorted R l -> l <> [] ->
  In (nth (List.length l - 1) l d) l /\
  forall y, In y l -> y = nth (List.length l - 1) l d \/ R y (nth (List.length l - 1) l d).
Proof.
  induction 1 as [|a l S IH F]; intros N; [congruence|].
  destruct l as [|b l'].
  - cbn. split; [tauto|]. intros y [->|[]]. left. reflexivity.
  - destruct (IH ltac:(discriminate)) as [I L].
    replace (nth (List.length (a :: b :: l') - 1) (a :: b :: l') d)
      with (nth (List.length (b :: l') - 1) (b :: l') d)
      by (cbn [List.length]; rewrite !Nat.sub_succ, !Nat.sub_0_r; reflexivity).
    split; [right; exact I|].
    intros y [->|Y]; [|apply L, Y].
    right. rewrite Forall_forall in F. apply F, I.
Qed.

Lemma Before_irrefl t : todoist.Before t t = false.
Proof.
  unfold todoist.Before, time.Before.
  rewrite !Z.ltb_irrefl, andb_false_r. reflexivity.
Qed.

Lemma Before_false_iff t u :
  todoist.Before t u = false <->
  time.sec (todoist.Time_ u) < time.sec (todoist.Time_ t) \/
  (time.sec (todoist.Time_ u) = time.sec (todoist.Time_ t) /\
   time.nsec (todoist.Time_ u) <= time.nsec (todoist.Time_ t)).
Proof.
  unfold todoist.Before, time.Before.
  destruct (Z.ltb_spec (time.sec (todoist.Time_ t)) (time.sec (todoist.Time_ u)));
    destruct (Z.eqb_spec (time.sec (todoist.Time_ t)) (time.sec (todoist.Time_ u)));
    destruct (Z.ltb_spec (time.nsec (todoist.Time_ t)) (time.nsec (todoist.Time_ u)));
    cbn; split; intros; try discriminate; try lia; reflexivity.
Qed.

Lemma insert_perm {A} (less : A -> A -> bool) x l :
  Permutation (x :: l) (insert less x l).
Proof.
  induction l as [|y r IH]; cbn [insert]; [reflexivity|].
  destruct (less x y); [reflexivity|].
  rewrite perm_swap. apply perm_skip, IH.
Qed.

Lemma insertionSort_perm {A} (less : A -> A -> bool) l :
  Permutation l (insertionSort less l).
Proof.
  induction l as [|x r IH]; cbn [insertionSort]; [reflexivity|].
  rewrite <- insert_perm. apply perm_skip, IH.
Qed.

Lemma insert_sorted x l :
  sortedBy byDateAdded l -> sortedBy byDateAdded (insert byDateAdded x l).
Proof.
  unfold sortedBy. induction 1 as [|y r S IH F]; cbn [insert].
  - constructor; constructor.
  - destruct (byDateAdded x y) eqn:E.
    + constructor; [constructor; assumption|].
      unfold byDateAdded in *.
      assert (Exy : todoist.Before (DateAdded y) (DateAdded x) = false).
      { apply Before_false_iff. unfold todoist.Before, time.Before in E.
        apply orb_true_iff in E. destruct E as [E|E].
        - apply Z.ltb_lt in E. lia.
        - apply andb_true_iff in E. destruct E as [E1 E2].
          apply Z.eqb_eq in E1. apply Z.ltb_lt in E2. lia. }
      constructor; [exact Exy|].
      rewrite Forall_forall in *. intros z Z. specialize (F z Z).
      apply Before_false_iff in F, Exy. apply Before_false_iff.
      unfold todoist.Before, time.Before in E.
      apply orb_true_iff in E. destruct E as [E|E].
      * apply Z.ltb_lt in E. lia.
      * apply andb_true_iff in E. destruct E as [E1 E2].
        apply Z.eqb_eq in E1. apply Z.ltb_lt in E2. lia.
    + constructor; [exact IH|].
      rewrite Forall_forall in *. intros z Z.
      apply (Permutation_in _ (Permutation_sym (insert_perm byDateAdded x r))) in Z.
      destruct Z as [->|Z]; [exact E|apply F, Z].
Qed.

Lemma insertionSort_sorted l : sortedBy byDateAdded (insertionSort byDateAdded l).
Proof.
  induction l as [|x r IH]; cbn [insertionSort].
  - constructor.
  - apply insert_sorted, IH.
Qed.

(** Find an event in a trace that is written out. *)
Ltac find_in :=
  try match goal with
    | |- In _ ?l => let l' := eval hnf in l in change l with l'
    end;
  cbn [event app];
  repeat match goal with
    | |- In _ (_ ++ _)%list => apply in_or_app; right
    | |- In _ (_ :: _) => first [ left; reflexivity | right ]
    end.

(** Check that a trace that is written out is a run of a program. *)
Ltac run_ok :=
  repeat (cbn;
          match goal with
          | |- exists x : unit, _ => exists tt
          | |- exists _, _ => eexists
          | |- _ /\ _ => split
          | |- _ = _ => reflexivity
          end).

(** *** The entity of a command *)

Lemma NewID_same s id : NewID s = Ok id -> id = s.
Proof. unfold NewID. destruct (_ && _); [|discriminate]. intros E. injection E as <-. reflexivity. Qed.

Lemma last_of_sorted_found (sort_Slice : (Item -> Item -> bool) -> list Item -> list Item)
      (items : list Item) :
  (forall l, Permutation l (sort_Slice byDateAdded l)) ->
  (List.length items =? 0)%nat = false ->
  In (nth (List.length (sort_Slice byDateAdded items) - 1)
          (sort_Slice byDateAdded items) Item0) items.
Proof.
  intros P N. apply (Permutation_in _ (Permutation_sym (P items))).
  apply nth_In. pose proof (Permutation_length (P items)) as L.
  apply Nat.eqb_neq in N. lia.
Qed.

(** The identifier that [NewID] gives is the text it was given. *)
Ltac same_id :=
  repeat match goal with
    | E : NewID ?a = Ok ?i |- _ =>
        let Q := fresh "Q" in
        pose proof (NewID_same _ _ E) as Q; clear E; try subst i; try subst a
    end.

(** The calls after the mutation are one of the four ways of the network
    phase; in the last, it is left to show that the item shown was found. *)
Ltac phase_ok :=
  first
    [ apply Phase_commit_failed
    | apply Phase_sync_failed
    | apply Phase_not_found;
      cbn [foundByContent resolvedAs]; rewrite String.eqb_refl;
      repeat match goal with
        | E : (List.length ?l =? 0)%nat = true |- _ =>
            destruct l; [clear E | discriminate E]
        end;
      reflexivity
    | eapply Phase_shown;
      [ cbn [foundByContent resolvedAs]; rewrite String.eqb_refl; reflexivity
      | try (left; reflexivity) ] ].

(* ================================================================= *)
(** ** The wire encoding of [Time] *)
(* ================================================================= *)

Lemma MarshalJSON_zero t :
  todoist.IsZero t = true -> todoist.MarshalJSON t = ("null", None).
Proof. intros H. unfold todoist.MarshalJSON. rewrite H. reflexivity. Qed.

Lemma MarshalJSON_nonzero t :
  todoist.IsZero t = false ->
  todoist.MarshalJSON t = (quoted (time.Format (todoist.Time_ t) todoist.layout), None).
Proof.
  intros H. unfold todoist.MarshalJSON. rewrite H.
  rewrite Quote_plain by apply Format_plain. reflexivity.
Qed.

Lemma UnmarshalJSON_not_literal t b :
  isQuotedLiteral b = false -> todoist.UnmarshalJSON t b = (todoist.zero, None).
Proof.
  unfold isQuotedLiteral, todoist.UnmarshalJSON.
  destruct (strconv.Unquote b); [discriminate|reflexivity].
Qed.

Lemma bare_token_not_literal b : startsWithQuote b = false -> isQuotedLiteral b = false.
Proof.
  unfold startsWithQuote, isQuotedLiteral, strconv.Unquote.
  destruct b as [|c r]; [reflexivity|]. intros H.
  apply orb_false_iff in H. destruct H as [H Hb].
  apply orb_false_iff in H. destruct H as [Hd Hs].
  destruct (splitLast r) as [[body l]|]; [|reflexivity].
  destruct (Ascii.eqb c l); [|reflexivity]. cbn [negb].
  rewrite Hb, Hd, Hs. reflexivity.
Qed.

Lemma UnmarshalJSON_parse_error t b s e :
  strconv.Unquote b = Ok s -> time.Parse todoist.layout s = Err e ->
  todoist.UnmarshalJSON t b = (todoist.zero, Some e).
Proof.
  intros U P. unfold todoist.UnmarshalJSON, todoist.Parse. rewrite U, P. reflexivity.
Qed.

(** C1 (as amended).  For every non-zero [Time] whose instant is a whole
    number of seconds, whose year in its own zone is between 0 and 9999 and
    whose zone offset is a whole number of minutes under 25 hours either
    way, unmarshalling the bytes that marshalling produced yields that same
    [Time] with no error, hence an equal instant; marshalling a zero [Time]
    yields the token [null]; and unmarshalling [null] yields the zero
    [Time]. *)
Theorem MarshalJSON_UnmarshalJSON_roundtrip :
  (forall t t0 : todoist.Time,
      todoist.IsZero t = false ->
      time.nsec (todoist.Time_ t) = 0 ->
      0 <= time.Year (todoist.Time_ t) <= 9999 ->
      Z.rem (time.offset (todoist.Time_ t)) 60 = 0 ->
      -90000 < time.offset (todoist.Time_ t) < 90000 ->
      snd (todoist.MarshalJSON t) = None /\
      todoist.UnmarshalJSON t0 (fst (todoist.MarshalJSON t)) = (t, None) /\
      todoist.Equal (fst (todoist.UnmarshalJSON t0 (fst (todoist.MarshalJSON t)))) t
      = true) /\
  (forall t : todoist.Time,
      todoist.IsZero t = true -> todoist.MarshalJSON t = ("null", None)) /\
  (forall t0 : todoist.Time,
      todoist.UnmarshalJSON t0 "null" = (todoist.zero, None)) /\
  todoist.IsZero todoist.zero = true.
Proof.
  split; [|split; [|split]].
  - intros t t0 Hz Hns Hy Hr Hb.
    rewrite (MarshalJSON_nonzero t Hz). cbn [fst snd].
    assert (U : todoist.UnmarshalJSON t0
                  (quoted (time.Format (todoist.Time_ t) todoist.layout)) = (t, None)).
    { unfold todoist.UnmarshalJSON, todoist.Parse.
      rewrite Unquote_quoted by apply Format_plain.
      rewrite Parse_Format by assumption. destruct t; reflexivity. }
    rewrite U. cbn [fst]. repeat split.
    unfold todoist.Equal, time.Equal. rewrite !Z.eqb_refl. reflexivity.
  - apply MarshalJSON_zero.
  - intros t0. reflexivity.
  - reflexivity.
Qed.

Lemma MarshalJSON_UnmarshalJSON_roundtrip_witness :
  todoist.UnmarshalJSON todoist.zero (fst (todoist.MarshalJSON sampleTime))
  = (sampleTime, None).
Proof.
  apply (proj1 MarshalJSON_UnmarshalJSON_roundtrip sampleTime todoist.zero).
  - reflexivity.
  - reflexivity.
  - vm_compute. split; discriminate.
  - reflexivity.
  - vm_compute. split; reflexivity.
Defined.

(** C1, as stated, fails: a non-zero [Time] five nanoseconds past a whole
    second marshals and unmarshals without error to a [Time] that is not
    equal to it as an instant. *)
Lemma roundtrip_loses_nanoseconds :
  todoist.IsZero sampleTimeNanos = false /\
  snd (todoist.UnmarshalJSON todoist.zero (fst (todoist.MarshalJSON sampleTimeNanos)))
  = None /\
  todoist.Equal
    (fst (todoist.UnmarshalJSON todoist.zero (fst (todoist.MarshalJSON sampleTimeNanos))))
    sampleTimeNanos = false.
Proof. vm_compute. repeat split. Qed.

(** The other bounds of C1 are needed as well.  The first second of the
    year 10000 is written with five digits for the year, which [Parse] does
    not read back; and a zone thirty seconds east of UTC is written as
    [+0000], so that the instant read back is thirty seconds off. *)
Example roundtrip_fails_in_year_10000 :
  todoist.IsZero year10000 = false /\
  isErr (time.Parse todoist.layout (time.Format (todoist.Time_ year10000) todoist.layout))
  = true /\
  snd (todoist.UnmarshalJSON todoist.zero (fst (todoist.MarshalJSON year10000))) <> None.
Proof. vm_compute. repeat split. discriminate. Qed.

Example roundtrip_fails_with_seconds_in_the_offset :
  snd (todoist.UnmarshalJSON todoist.zero (fst (todoist.MarshalJSON halfMinuteEast))) = None /\
  todoist.Equal
    (fst (todoist.UnmarshalJSON todoist.zero (fst (todoist.MarshalJSON halfMinuteEast))))
    halfMinuteEast = false.
Proof. vm_compute. repeat split. Qed.

(** C4 at the input [123]: the bytes are neither the token [null] nor a
    quoted string, let alone one in the layout, and [UnmarshalJSON] returns
    no error and leaves the zero [Time] in a receiver that held another. *)
Theorem UnmarshalJSON_bare_number_no_error :
  todoist.UnmarshalJSON oneSecond "123" = (todoist.zero, None) /\
  todoist.IsZero oneSecond = false /\
  String.eqb "123" "null" = false /\
  isQuotedLiteral "123" = false.
Proof. vm_compute. repeat split. Qed.

(** C5.  [MarshalJSON] never fails; it writes the token [null] exactly when
    the [Time] is zero, and otherwise a string in double quotes that holds
    what [Format] writes for the layout: weekday, day, month, year, time of
    day, offset from UTC.  A zero [Time] is never written as a date. *)
Theorem MarshalJSON_null_or_layout (t : todoist.Time) :
  snd (todoist.MarshalJSON t) = None /\
  String.eqb (fst (todoist.MarshalJSON t)) "null" = todoist.IsZero t /\
  (if todoist.IsZero t
   then fst (todoist.MarshalJSON t) = "null"
   else exists s, fst (todoist.MarshalJSON t) = quoted s /\ InLayout s /\
                  s = time.Format (todoist.Time_ t) todoist.layout).
Proof.
  destruct (todoist.IsZero t) eqn:Z.
  - rewrite (MarshalJSON_zero t Z). repeat split.
  - rewrite (MarshalJSON_nonzero t Z). cbn [fst snd].
    split; [reflexivity|]. split; [reflexivity|].
    exists (time.Format (todoist.Time_ t) todoist.layout).
    split; [reflexivity|]. split; [apply Format_InLayout|reflexivity].
Qed.

(** C8.  On every input that [strconv.Unquote] rejects, and so on every
    input that does not start with a quote character (the token [null], a
    bare number, a misspelled word), [UnmarshalJSON] leaves the zero [Time]
    in the receiver and returns no error. *)
Theorem UnmarshalJSON_unquoted_is_zero (t : todoist.Time) (b : string) :
  isQuotedLiteral b = false \/ startsWithQuote b = false ->
  todoist.UnmarshalJSON t b = (todoist.zero, None) /\
  todoist.IsZero (fst (todoist.UnmarshalJSON t b)) = true.
Proof.
  intros H.
  assert (L : isQuotedLiteral b = false)
    by (destruct H; [assumption | apply bare_token_not_literal; assumption]).
  rewrite (UnmarshalJSON_not_literal t b L). split; reflexivity.
Qed.

Lemma UnmarshalJSON_unquoted_is_zero_witness :
  todoist.UnmarshalJSON oneSecond "nul" = (todoist.zero, None) /\
  todoist.IsZero (fst (todoist.UnmarshalJSON oneSecond "nul")) = true.
Proof.
  apply (UnmarshalJSON_unquoted_is_zero oneSecond "nul").
  left. reflexivity.
Defined.

(* ================================================================= *)
(** ** The item commands *)
(* ================================================================= *)

(** C2 (as amended).  In every run of [item add], [item update] or [item
    move] that reaches the network phase, that is, in which [Commit] is
    called, the calls are: calls that change no state; then the store
    mutation of the command ([Add], [Update] or [Move]) on the entity of the
    command (the item with the content given in [add], the item resolved
    for the identifier given in [update], that identifier in [move]), which
    returned no error; then [Commit]; then, only if [Commit] returned no
    error, [FullSync] with the empty list of commands; then, only if
    [FullSync] returned no error, the lookup of that same entity in the
    local store ([FindByContent] of the content in [add], [Resolve] of the
    identifier in [update] and [move]); then, only if the lookup found
    something, the display of one of the items it found and of no other:
    the relation index is asked about it, the success line is printed, its
    table is made and printed.  A [Commit] or a [FullSync] that fails ends
    the run with its error, and a lookup that finds nothing ends it with an
    error.  In every such run each [FullSync] comes after a [Commit] that
    succeeded and is passed no command.  [sort.Slice] is taken to permute
    the slice. *)
Theorem mutation_commit_sync_lookup_in_order (R : Type)
        (sort_Slice : (Item -> Item -> bool) -> list Item -> list Item)
        (args : list string) (flags : FlagSet)
        (tr : list (Event R)) (res : option error) (mut : Event R -> bool)
        (key line : string) (look : Event R -> option (list Item))
        (r : option error) :
  (forall l, Permutation l (sort_Slice byDateAdded l)) ->
  (runs (itemAddCmd R sort_Slice args flags) tr res /\ mut = isAdd /\
   key = contentOf args /\ look = foundByContent key /\
   line = "Successful addition of an item.") \/
  (runs (itemUpdateCmd R args flags) tr res /\ mut = isUpdate /\
   key = idOf args /\ look = resolvedAs key /\
   line = "success to update the item") \/
  (runs (itemMoveCmd R args flags) tr res /\ mut = isMove /\
   key = idOf args /\ look = resolvedAs key /\
   line = "Successful move item.") ->
  In (ECommit r) tr ->
  (exists pre m rest,
      tr = (pre ++ m :: rest)%list /\
      none changesState pre = true /\
      mut m = true /\ onEntity key pre m /\ succeeded m = true /\
      NetworkPhase look line rest res) /\
  syncFollowsCommit false tr = true.
Proof.
  intros P H C.
  assert (G : exists pre m rest,
             tr = (pre ++ m :: rest)%list /\
             none changesState pre = true /\
             (mut m = true /\ isMutation m = true) /\ onEntity key pre m /\
             succeeded m = true /\
             NetworkPhase look line rest res).
  { destruct H as [(H & -> & -> & -> & ->)|[(H & -> & -> & -> & ->)|(H & -> & -> & -> & ->)]].
    - unfold itemAddCmd in H.
      run_inv; inj_all; labels_kept; in_trace C; try discriminate.
      all: rewrite ?app_nil_r; cbn [event app]; answer_ok; split_trace.
      all: split; [split; reflexivity|].
      all: split;
           [ cbn [onEntity]; unfold contentOf;
             repeat match goal with
               | |- context [if ?b then _ else _] => destruct b
               end;
             cbn [withPriority withDueString Content];
             match goal with
             | K : Content ?x = _ |- Content ?x = _ => rewrite K
             end;
             repeat match goal with
               | |- context [match ?x with Some _ => _ | None => _ end] => destruct x
               end;
             reflexivity
           | ].
      all: split; [reflexivity|]; unfold contentOf; phase_ok.
      all: apply last_of_sorted_found; assumption.
    - unfold itemUpdateCmd in H.
      run_inv; inj_all; labels_kept; in_trace C; try discriminate.
      all: same_id.
      all: rewrite ?app_nil_r; cbn [event app]; answer_ok; split_trace.
      all: split; [split; reflexivity|].
      all: split;
           [ cbn [onEntity idOf hd takeReads changesState isMutation isSync orb
                  firstResolve];
             eexists; split; [reflexivity|];
             repeat match goal with
               | |- context [if ?b then _ else _] => destruct b
               end;
             cbn [withPriority withDueString Item_ID];
             match goal with
             | K : Item_ID ?x = _ |- Item_ID ?x = _ => rewrite K
             end;
             repeat match goal with
               | |- context [match ?x with [] => _ | _ :: _ => _ end] => destruct x
               end;
             reflexivity
           | ].
      all: split; [reflexivity|]; cbn [idOf hd]; phase_ok.
    - unfold itemMoveCmd in H. run_inv; inj_all; in_trace C; try discriminate.
      all: same_id.
      all: rewrite ?app_nil_r; cbn [event app]; answer_ok; split_trace.
      all: split; [split; reflexivity|].
      all: split; [reflexivity|].
      all: split; [reflexivity|]; cbn [idOf hd]; phase_ok. }
  destruct G as (pre & m & rest & E & N & [M1 M2] & O & S & Ph).
  split.
  - exists pre, m, rest. repeat split; assumption.
  - rewrite E. apply (syncFollowsCommit_phase look line pre m rest res); try assumption.
    destruct H as [(_ & _ & _ & -> & _)|[(_ & _ & _ & -> & _)|(_ & _ & _ & -> & _)]].
    + apply foundByContent_isLookup.
    + apply resolvedAs_isLookup.
    + apply resolvedAs_isLookup.
Qed.

Lemma mutation_commit_sync_lookup_in_order_witness :
  (exists pre m rest,
      addRun = (pre ++ m :: rest)%list /\
      none changesState pre = true /\
      isAdd m = true /\ onEntity (contentOf ["milk"]) pre m /\ succeeded m = true /\
      NetworkPhase (foundByContent (contentOf ["milk"]))
                   "Successful addition of an item." rest None) /\
  syncFollowsCommit false addRun = true.
Proof.
  apply (mutation_commit_sync_lookup_in_order unit insertionSort ["milk"] itemAddFlags
           addRun None isAdd (contentOf ["milk"]) "Successful addition of an item."
           (foundByContent (contentOf ["milk"])) None).
  - intros l. apply insertionSort_perm.
  - left. split; [run_ok|]. repeat split.
  - find_in.
Defined.

(** C2, as stated, fails: this run of [item add] reaches the network phase
    ([Add] succeeded and [Commit] is called), and it holds no [FullSync]
    and no lookup after it, because [Commit] returned an error. *)
Lemma commit_failure_ends_the_run :
  runs (itemAddCmd unit insertionSort ["milk"] itemAddFlags) addRunOffline (Some offline) /\
  In (ECommit (Some offline)) addRunOffline /\
  none isFullSync addRunOffline = true /\
  none isLookup addRunOffline = true.
Proof.
  split; [run_ok|]. split; [find_in|]. split; reflexivity.
Qed.

(** C3.  In a run of [item add], [item update] or [item move] where
    [Commit] and [FullSync] both succeeded and the lookup that follows found
    nothing ([FindByContent] answered the empty list in [add], [Resolve]
    answered nil in [update] and [move]), the command returns an error
    whose message says that it may be failed to sync, and prints nothing. *)
Theorem lookup_failure_after_sync_is_an_error (R : Type)
        (sort_Slice : (Item -> Item -> bool) -> list Item -> list Item)
        (args : list string) (flags : FlagSet)
        (tr : list (Event R)) (res : option error)
        (content : string) (id : ID) (commands : list Command) :
  (runs (itemAddCmd R sort_Slice args flags) tr res /\
   In (EItem_FindByContent content []) tr) \/
  (runs (itemUpdateCmd R args flags) tr res /\ In (EItem_Resolve id None) tr) \/
  (runs (itemMoveCmd R args flags) tr res /\ In (EItem_Resolve id None) tr) ->
  In (ECommit None) tr ->
  In (EFullSync commands None) tr ->
  exists e, res = Some e /\
            strings.Contains (Error e) "failed to sync" = true /\
            none isPrintln tr = true.
Proof.
  intros H C F.
  destruct H as [[H L]|[[H L]|[H L]]].
  - unfold itemAddCmd in H. run_inv; inj_all; labels_facts;
      in_trace C; in_trace F; in_trace L; try discriminate.
    all: eexists; split; [reflexivity|]; split; [reflexivity|].
    all: cbn [event app]; unfold none; cbn [forallb isPrintln negb andb];
         rewrite ?forallb_app; cbn [forallb isPrintln negb andb];
         rewrite ?andb_true_r;
         apply (labels_none isPrintln); [intros [] ?; (discriminate || reflexivity) | assumption].
  - unfold itemUpdateCmd in H. run_inv; inj_all; labels_facts;
      in_trace C; in_trace F; in_trace L; try discriminate.
    all: eexists; split; [reflexivity|]; split; [reflexivity|].
    all: cbn [event app]; unfold none; cbn [forallb isPrintln negb andb];
         rewrite ?forallb_app; cbn [forallb isPrintln negb andb];
         rewrite ?andb_true_r;
         apply (labels_none isPrintln); [intros [] ?; (discriminate || reflexivity) | assumption].
  - unfold itemMoveCmd in H. run_inv; inj_all;
      in_trace C; in_trace F; in_trace L; try discriminate.
    all: eexists; split; [reflexivity|]; split; reflexivity.
Qed.

Lemma lookup_failure_after_sync_is_an_error_witness :
  exists e,
    Some (errors_New "Failed to add this item. It may be failed to sync.") = Some e /\
    strings.Contains (Error e) "failed to sync" = true /\
    none isPrintln addRunLost = true.
Proof.
  apply (lookup_failure_after_sync_is_an_error unit insertionSort ["milk"] itemAddFlags
           addRunLost _ "milk" "" []).
  - left. split; [run_ok | find_in].
  - find_in.
  - find_in.
Defined.

(** C6.  When the first lookup of the item by its identifier finds nothing
    in the local store, [item update], [item move] and [item delete] each
    return their not-found error ([no such item id], [No such item id], and
    in [delete] the wording [invalid id]) and the run holds no call that
    changes a store, the queue, or reaches the network.  Hence, whatever
    machine plays the collaborators, a view of its state that only such
    calls can alter, the command queue among them, is the same after the
    command as before. *)
Theorem not_found_before_any_mutation (R : Type)
        (args : list string) (flags : FlagSet) (cmd : Prog R (option error))
        (tr : list (Event R)) (res : option error) (id : ID) (msg : string) :
  (cmd = itemUpdateCmd R args flags /\ msg = "no such item id: ") \/
  (cmd = itemMoveCmd R args flags /\ msg = "No such item id: ") \/
  (cmd = itemDeleteCmd R args /\ msg = "invalid id: ") ->
  runs cmd tr res ->
  firstResolve tr = Some (id, None) ->
  res = Some (errorString (msg ++ id)) /\
  none changesState tr = true /\
  (forall (S Q : Type) (h : Handler R S) (q : S -> Q) (s : S),
      preserves h q -> fst (fst (exec h cmd s)) = tr -> q (snd (exec h cmd s)) = q s).
Proof.
  intros C H F.
  assert (G : res = Some (errorString (msg ++ id)) /\ none changesState tr = true).
  { destruct C as [[-> ->]|[[-> ->]|[-> ->]]].
    - unfold itemUpdateCmd in H. run_inv; inj_all; labels_facts;
        cbn [event app firstResolve] in F; inj_all; try discriminate F.
      all: try (split; reflexivity).
      all: rewrite ?labels_firstResolve in F by assumption;
           cbn [event app firstResolve] in F; inj_all; try discriminate F.
    - unfold itemMoveCmd in H. run_inv; inj_all;
        cbn [event app firstResolve] in F; inj_all; try discriminate F.
      all: try (split; reflexivity).
    - unfold itemDeleteCmd, AutoCommit, itemDeleteFunc in H. run_inv; inj_all;
        cbn [event app firstResolve] in F; inj_all; try discriminate F.
      all: try (split; reflexivity).
      all: cbn in *; try discriminate. }
  destruct G as [G1 G2]. split; [exact G1|]. split; [exact G2|].
  intros S Q h q s P E. apply exec_preserves; [exact P|]. rewrite E. exact G2.
Qed.

Lemma not_found_before_any_mutation_witness :
  Some (errorString "invalid id: 9") = Some (errorString ("invalid id: " ++ "9")) /\
  none changesState deleteRunUnknown = true /\
  (forall (S Q : Type) (h : Handler unit S) (q : S -> Q) (s : S),
      preserves h q ->
      fst (fst (exec h (itemDeleteCmd unit ["9"]) s)) = deleteRunUnknown ->
      q (snd (exec h (itemDeleteCmd unit ["9"]) s)) = q s).
Proof.
  apply (not_found_before_any_mutation unit ["9"] [] (itemDeleteCmd unit ["9"])
           deleteRunUnknown (Some (errorString "invalid id: 9")) "9" "invalid id: ").
  - right. right. split; reflexivity.
  - run_ok.
  - reflexivity.
Defined.

(** C7.  In a run of [item delete] in which the answer to the confirmation
    is declined (it is not [y] and a newline, or reading it failed), the
    command returns no error, calls neither [Delete] nor anything else that
    changes a store, the queue or reaches the network, and prints
    [abort]. *)
Theorem itemDeleteCmd_declined (R : Type) (args : list string)
        (tr : list (Event R)) (res : option error)
        (ans : string) (err : option error) :
  runs (itemDeleteCmd R args) tr res ->
  In (EReadString "010"%char (ans, err)) tr ->
  declined ans err = true ->
  res = None /\ none isDelete tr = true /\ none changesState tr = true /\
  In (EPrintln "abort") tr.
Proof.
  unfold itemDeleteCmd, AutoCommit, itemDeleteFunc. intros H I D.
  run_inv; inj_all; in_trace I; unfold declined, yes in D; try congruence.
  all: cbn [event app].
  - repeat split; try reflexivity. cbn. tauto.
  - cbn in *. discriminate.
Qed.

Lemma itemDeleteCmd_declined_witness :
  @None error = None /\ none isDelete deleteRunDeclined = true /\
  none changesState deleteRunDeclined = true /\
  In (EPrintln "abort") deleteRunDeclined.
Proof.
  apply (itemDeleteCmd_declined unit ["7"] deleteRunDeclined None
           (String "n" (char "010"%char)) None).
  - run_ok.
  - find_in.
  - reflexivity.
Defined.

(** C9 (as amended).  In every run of [item move] in which the text of
    [--parent] or of [--project] is no identifier, the command returns an
    error, makes no call that changes a store, the queue or reaches the
    network, and looks nothing up by name.  When the run got as far as
    resolving the item, the error is [invalid parent id] for a bad
    [--parent], and otherwise [invalid project id].  The empty text, the
    default of both flags, is no identifier. *)
Theorem itemMoveCmd_rejects_bad_flags (R : Type)
        (args : list string) (flags : FlagSet)
        (tr : list (Event R)) (res : option error) :
  runs (itemMoveCmd R args flags) tr res ->
  badFlag flags "parent" || badFlag flags "project" = true ->
  (exists e, res = Some e) /\
  none changesState tr = true /\
  none isNameLookup tr = true /\
  (forall id item,
      firstResolve tr = Some (id, Some item) ->
      res = Some (errorString
                    (if badFlag flags "parent"
                     then "invalid parent id: " ++ flagText flags "parent"
                     else "invalid project id: " ++ flagText flags "project"))) /\
  isErr (NewID "") = true.
Proof.
  unfold badFlag, flagText, itemMoveCmd. intros H B.
  destruct (GetString flags "parent") as [p|] eqn:GP;
    [destruct (NewID p) eqn:NP|];
    (destruct (GetString flags "project") as [q|] eqn:GQ;
     [destruct (NewID q) eqn:NQ|]);
    cbn [isErr orb] in B; try discriminate B.
  all: run_inv; inj_all.
  all: split; [eexists; reflexivity|]; split; [reflexivity|]; split; [reflexivity|];
       split; [|reflexivity].
  all: intros id item F; cbn [event app firstResolve] in F; inj_all; try discriminate F.
  all: reflexivity.
Qed.

Lemma itemMoveCmd_rejects_bad_flags_witness :
  (exists e, Some (errorString "invalid parent id: ") = Some e) /\
  none changesState moveRunDefaults = true /\
  none isNameLookup moveRunDefaults = true /\
  (forall id item,
      firstResolve moveRunDefaults = Some (id, Some item) ->
      Some (errorString "invalid parent id: ")
      = Some (errorString
                (if badFlag itemMoveFlags "parent"
                 then "invalid parent id: " ++ flagText itemMoveFlags "parent"
                 else "invalid project id: " ++ flagText itemMoveFlags "project"))) /\
  isErr (NewID "") = true.
Proof.
  apply (itemMoveCmd_rejects_bad_flags unit ["7"] itemMoveFlags moveRunDefaults).
  - run_ok.
  - reflexivity.
Defined.

(** C9, as stated, fails: in this run of [item move 9 --parent abc] the
    text of [--parent] is no identifier, and the command returns neither
    [invalid parent id] nor [invalid project id] but [No such item id],
    because no item has the identifier 9 and that is checked first. *)
Lemma item_lookup_comes_before_the_flags :
  runs (itemMoveCmd unit ["9"] moveFlagsBad) moveRunUnknown
       (Some (errorString "No such item id: 9")) /\
  badFlag moveFlagsBad "parent" = true /\
  strings.Contains "No such item id: 9" "invalid parent id" = false /\
  strings.Contains "No such item id: 9" "invalid project id" = false.
Proof.
  split; [run_ok|]. split; [reflexivity|]. split; reflexivity.
Qed.

(** C10.  Let [sort.Slice] do what it promises: permute the slice so that
    no later element is less than an earlier one.  In a run of [item add]
    whose lookup after the sync finds more than one item with the content,
    the item the command shows (it asks the relation index about it, has
    the table printed for it, and returns no error) is one of the items
    found, and no item found was added later than it. *)
Theorem itemAddCmd_shows_latest (R : Type)
        (sort_Slice : (Item -> Item -> bool) -> list Item -> list Item)
        (args : list string) (flags : FlagSet)
        (tr : list (Event R)) (res : option error)
        (content : string) (items : list Item) :
  (forall l, Permutation l (sort_Slice byDateAdded l)) ->
  (forall l, sortedBy byDateAdded (sort_Slice byDateAdded l)) ->
  runs (itemAddCmd R sort_Slice args flags) tr res ->
  In (EItem_FindByContent content items) tr ->
  (1 < List.length items)%nat ->
  exists (m : Item) (relations : R) (table : string),
    In m items /\
    (forall y, In y items -> todoist.Before (DateAdded m) (DateAdded y) = false) /\
    In (ERelation_Items [m] relations) tr /\
    In (EItemTableString [m] relations table) tr /\
    In (EPrintln table) tr /\
    res = None.
Proof.
  intros P S H F L. unfold itemAddCmd in H.
  run_inv; inj_all; labels_facts; in_trace F; try discriminate.
  all: try (match goal with
            | E : (List.length ?l =? 0)%nat = true |- _ =>
                apply Nat.eqb_eq in E; rewrite E in L; inversion L
            end).
  all: match goal with
       | |- context [nth _ (?f byDateAdded ?l) Item0] =>
           set (s := f byDateAdded l) in *;
           assert (Ns : s <> [])
             by (intros E; pose proof (Permutation_length (P l)) as PL;
                 fold s in PL; rewrite E in PL; cbn in PL; lia);
           destruct (sorted_last _ s Item0 (S l) Ns) as [I M];
           set (m := nth (List.length s - 1) s Item0) in *
       end.
  all: eexists m, _, _; split;
       [ apply (Permutation_in _ (Permutation_sym (P _))), I | ];
       split;
       [ intros y Y; apply (Permutation_in _ (P _)) in Y;
         destruct (M y Y) as [->|B]; [apply Before_irrefl | exact B]
       | ].
  all: split; [find_in|]; split; [find_in|]; split; [find_in|reflexivity].
Qed.

Lemma itemAddCmd_shows_latest_witness :
  exists (m : Item) (relations : unit) (table : string),
    In m [milkOld; milkNew] /\
    (forall y, In y [milkOld; milkNew] ->
               todoist.Before (DateAdded m) (DateAdded y) = false) /\
    In (ERelation_Items [m] relations) addRun /\
    In (EItemTableString [m] relations table) addRun /\
    In (EPrintln table) addRun /\
    @None error = None.
Proof.
  apply (itemAddCmd_shows_latest unit insertionSort ["milk"] itemAddFlags addRun None
           "milk" [milkOld; milkNew]).
  - intros l. apply insertionSort_perm.
  - intros l. apply insertionSort_sorted.
  - run_ok.
  - find_in.
  - cbn. lia.
Defined.

(** An instance of C10: [FindByContent] answers the older item first, and the
    newer one is shown. *)
Example addRun_shows_the_second_match :
  runs (itemAddCmd unit insertionSort ["milk"] itemAddFlags) addRun None /\
  In (EItem_FindByContent "milk" [milkOld; milkNew]) addRun /\
  byDateAdded milkOld milkNew = true /\
  In (ERelation_Items [milkNew] tt) addRun /\
  In (EItemTableString [milkNew] tt "table") addRun.
Proof.
  split; [run_ok|]. split; [find_in|]. split; [reflexivity|]. split; find_in.
Qed.

(* ================================================================= *)
(** ** More on the wire encoding of [Time] *)
(* ================================================================= *)

(** *** The round trip, nanoseconds and all *)

Lemma fitsLayout_spec t :
  fitsLayout t = true ->
  0 <= time.Year t <= 9999 /\ Z.rem (time.offset t) 60 = 0 /\
  -90000 < time.offset t < 90000.
Proof.
  unfold fitsLayout. rewrite !andb_true_iff.
  intros [[[[A B] C] D] E].
  apply Z.leb_le in A, B. apply Z.eqb_eq in C. apply Z.ltb_lt in D, E. lia.
Qed.

Lemma formatStd_wholeSecond t e : time.formatStd (wholeSecond t) e = time.formatStd t e.
Proof. destruct t; reflexivity. Qed.

Lemma formatLoop_wholeSecond k t l :
  time.formatLoop k (wholeSecond t) l = time.formatLoop k t l.
Proof.
  revert l. induction k as [|k IH]; intros l; cbn [time.formatLoop]; [reflexivity|].
  destruct (String.length l =? 0)%nat; [reflexivity|].
  destruct (time.nextStdChunk l) as [[prefix [e|]] suffix]; [|reflexivity].
  rewrite formatStd_wholeSecond, IH. reflexivity.
Qed.

Lemma Format_wholeSecond t l : time.Format (wholeSecond t) l = time.Format t l.
Proof. apply formatLoop_wholeSecond. Qed.

Lemma fitsLayout_wholeSecond t : fitsLayout (wholeSecond t) = fitsLayout t.
Proof. destruct t; reflexivity. Qed.

(** What [Format] wrote for a time the layout can carry is parsed back to
    that time, cut to the whole second. *)
Lemma Parse_Format_wholeSecond t :
  fitsLayout t = true ->
  time.Parse todoist.layout (time.Format t todoist.layout) = Ok (wholeSecond t).
Proof.
  intros F. rewrite <- Format_wholeSecond.
  rewrite <- fitsLayout_wholeSecond in F. apply fitsLayout_spec in F.
  apply Parse_Format; [reflexivity|tauto..].
Qed.

Lemma UnmarshalJSON_quoted_Format t0 t :
  fitsLayout t = true ->
  todoist.UnmarshalJSON t0 (quoted (time.Format t todoist.layout))
  = (todoist.mkTime (wholeSecond t), None).
Proof.
  intros F. unfold todoist.UnmarshalJSON, todoist.Parse.
  rewrite Unquote_quoted by apply Format_plain.
  rewrite Parse_Format_wholeSecond by assumption. reflexivity.
Qed.

Lemma MarshalJSON_quoted t :
  todoist.IsZero t = false ->
  fst (todoist.MarshalJSON t) = quoted (time.Format (todoist.Time_ t) todoist.layout).
Proof.
  intros Z. unfold todoist.MarshalJSON. rewrite Z. cbn [fst].
  apply Quote_plain, Format_plain.
Qed.

(** X1.  For every non-zero [Time] that the layout can carry (a year of four
    digits in its own zone, an offset of whole minutes under 25 hours),
    whatever its nanoseconds, unmarshalling what [MarshalJSON] wrote
    returns no error and leaves the same second in the same zone, with the
    nanoseconds cut off. *)
Theorem roundtrip_keeps_second_and_zone (t t0 : todoist.Time) :
  todoist.IsZero t = false ->
  fitsLayout (todoist.Time_ t) = true ->
  todoist.UnmarshalJSON t0 (fst (todoist.MarshalJSON t))
  = (todoist.mkTime (wholeSecond (todoist.Time_ t)), None).
Proof.
  intros Z F. rewrite MarshalJSON_quoted by assumption.
  apply UnmarshalJSON_quoted_Format, F.
Qed.

Lemma roundtrip_keeps_second_and_zone_witness :
  todoist.UnmarshalJSON todoist.zero (fst (todoist.MarshalJSON sampleTimeNanos))
  = (todoist.mkTime (wholeSecond (todoist.Time_ sampleTimeNanos)), None).
Proof.
  apply (roundtrip_keeps_second_and_zone sampleTimeNanos todoist.zero); reflexivity.
Defined.

(** X2.  For every [Time] that the layout can carry and that is not in the
    second 0, marshalling what the round trip gave writes the same bytes
    again: the loss of the nanoseconds happens once.  (In the second 0 the
    round trip of a non-zero [Time] gives the zero [Time], which is written
    as [null]: see the example below.) *)
Theorem MarshalJSON_again_same_bytes (t t0 : todoist.Time) :
  time.sec (todoist.Time_ t) <> 0 ->
  fitsLayout (todoist.Time_ t) = true ->
  todoist.MarshalJSON (fst (todoist.UnmarshalJSON t0 (fst (todoist.MarshalJSON t))))
  = todoist.MarshalJSON t.
Proof.
  intros S F.
  assert (Z : todoist.IsZero t = false).
  { unfold todoist.IsZero, time.IsZero. apply Z.eqb_neq in S. rewrite S. reflexivity. }
  rewrite MarshalJSON_quoted, UnmarshalJSON_quoted_Format by assumption. cbn [fst].
  unfold todoist.MarshalJSON at 1. unfold todoist.IsZero, time.IsZero at 1.
  cbn [todoist.Time_ wholeSecond time.sec time.nsec].
  apply Z.eqb_neq in S. rewrite S. cbn [andb].
  change (time.mkTime (time.sec (todoist.Time_ t)) 0 (time.offset (todoist.Time_ t)))
    with (wholeSecond (todoist.Time_ t)).
  rewrite Format_wholeSecond. unfold todoist.MarshalJSON. rewrite Z. reflexivity.
Qed.

Lemma MarshalJSON_again_same_bytes_witness :
  todoist.MarshalJSON
    (fst (todoist.UnmarshalJSON todoist.zero (fst (todoist.MarshalJSON sampleTimeNanos))))
  = todoist.MarshalJSON sampleTimeNanos.
Proof.
  apply (MarshalJSON_again_same_bytes sampleTimeNanos todoist.zero).
  - discriminate.
  - reflexivity.
Defined.

(** In the second 0 the bytes change: five nanoseconds after the instant 0
    is not the zero [Time] and is written as a date; what is read back is
    the zero [Time], which is written as [null]. *)
Example second_zero_is_written_as_null_the_second_time :
  todoist.IsZero fiveNanoseconds = false /\
  fitsLayout (todoist.Time_ fiveNanoseconds) = true /\
  fst (todoist.MarshalJSON fiveNanoseconds) = quoted "Mon 1 Jan 0001 00:00:00 +0000" /\
  todoist.MarshalJSON
    (fst (todoist.UnmarshalJSON todoist.zero (fst (todoist.MarshalJSON fiveNanoseconds))))
  = ("null", None).
Proof. vm_compute. repeat split. Qed.


(** X3.  Two non-zero [Time] values that the layout can carry and that
    [MarshalJSON] writes as the same bytes are in the same second and have
    the same offset from UTC. *)
Theorem MarshalJSON_same_bytes_same_second (t u : todoist.Time) :
  todoist.IsZero t = false -> todoist.IsZero u = false ->
  fitsLayout (todoist.Time_ t) = true -> fitsLayout (todoist.Time_ u) = true ->
  fst (todoist.MarshalJSON t) = fst (todoist.MarshalJSON u) ->
  time.sec (todoist.Time_ t) = time.sec (todoist.Time_ u) /\
  time.offset (todoist.Time_ t) = time.offset (todoist.Time_ u).
Proof.
  intros Zt Zu Ft Fu E.
  pose proof (UnmarshalJSON_quoted_Format todoist.zero _ Ft) as Pt.
  pose proof (UnmarshalJSON_quoted_Format todoist.zero _ Fu) as Pu.
  rewrite <- MarshalJSON_quoted in Pt, Pu by assumption.
  rewrite E, Pu in Pt. injection Pt as Es Eo. split; congruence.
Qed.

Lemma MarshalJSON_same_bytes_same_second_witness :
  time.sec (todoist.Time_ sampleTime) = time.sec (todoist.Time_ sampleTimeNanos) /\
  time.offset (todoist.Time_ sampleTime) = time.offset (todoist.Time_ sampleTimeNanos).
Proof.
  apply (MarshalJSON_same_bytes_same_second sampleTime sampleTimeNanos); reflexivity.
Defined.


(** X4.  Whenever [UnmarshalJSON] returns an error, the input was a
    quoted literal that [strconv.Unquote] accepted, the error is the one
    that [time.Parse] returned for its text, and the receiver holds the zero
    [Time]: an error of [Unquote] itself is never returned, and the old
    value of the receiver is never kept. *)
Theorem UnmarshalJSON_error_is_parse_error (t : todoist.Time) (b : string) (e : error) :
  snd (todoist.UnmarshalJSON t b) = Some e ->
  fst (todoist.UnmarshalJSON t b) = todoist.zero /\
  exists s, strconv.Unquote b = Ok s /\ time.Parse todoist.layout s = Err e.
Proof.
  unfold todoist.UnmarshalJSON, todoist.Parse.
  destruct (strconv.Unquote b) as [s|]; [|discriminate].
  destruct (time.Parse todoist.layout s) as [t'|e'] eqn:P; cbn [fst snd]; [discriminate|].
  intros E. injection E as ->. split; [reflexivity|]. exists s. split; [reflexivity|exact P].
Qed.

Lemma UnmarshalJSON_error_is_parse_error_witness :
  fst (todoist.UnmarshalJSON oneSecond (quoted "tomorrow")) = todoist.zero /\
  exists s, strconv.Unquote (quoted "tomorrow") = Ok s /\
            time.Parse todoist.layout s
            = Err (ParseError todoist.layout "tomorrow" "Mon" "tomorrow" "").
Proof.
  apply (UnmarshalJSON_error_is_parse_error oneSecond (quoted "tomorrow")).
  reflexivity.
Defined.

(** *** Raw string literals *)

Lemma allBytes_app p a b : allBytes p (a ++ b) = allBytes p a && allBytes p b.
Proof. induction a as [|c a IH]; cbn; [reflexivity|]. rewrite IH, andb_assoc. reflexivity. Qed.

Lemma allBytes_lacks p s c : allBytes p s = true -> p c = false -> contains s c = false.
Proof.
  intros H Hc. induction s as [|a s IH]; cbn in *; [reflexivity|].
  apply andb_true_iff in H. destruct H as [Ha Hs]. rewrite IH by assumption.
  destruct (Ascii.eqb_spec a c) as [->|]; [congruence|reflexivity].
Qed.

Lemma allDigits_layoutBytes s : allDigits s = true -> allBytes layoutByte s = true.
Proof.
  induction s as [|c s IH]; cbn [allDigits allBytes]; [reflexivity|]. intros H.
  apply andb_true_iff in H. destruct H as [Hc Hs]. rewrite IH by assumption.
  unfold layoutByte. rewrite Hc. reflexivity.
Qed.

Lemma layoutBytes_of_In x l :
  In x l -> forallb (allBytes layoutByte) l = true -> allBytes layoutByte x = true.
Proof. intros H F. rewrite forallb_forall in F. apply F, H. Qed.

Lemma InLayout_layoutBytes s : InLayout s -> allBytes layoutByte s = true.
Proof.
  intros [wd day mon year hh mi ss sign zh zm Hwd Hday Hmon Hyear Hhh Hmi Hss Hsign Hzh Hzm].
  assert (Pn : forall n x, digitsN n x = true -> allBytes layoutByte x = true).
  { intros n x H. unfold digitsN in H. apply andb_true_iff in H.
    apply allDigits_layoutBytes, H. }
  assert (Pf : forall n x, digitsFrom n x = true -> allBytes layoutByte x = true).
  { intros n x H. unfold digitsFrom in H. apply andb_true_iff in H.
    apply allDigits_layoutBytes, H. }
  rewrite !allBytes_app.
  rewrite (layoutBytes_of_In wd _ Hwd) by reflexivity.
  rewrite (layoutBytes_of_In mon _ Hmon) by reflexivity.
  rewrite (Pn _ _ Hhh), (Pn _ _ Hmi), (Pn _ _ Hss), (Pn _ _ Hzm), (Pf _ _ Hzh).
  assert (Pd : allBytes layoutByte day = true).
  { unfold isDayText in Hday. apply orb_true_iff in Hday. destruct Hday; eapply Pn; eassumption. }
  assert (Py : allBytes layoutByte year = true).
  { unfold isYearText in Hyear. apply orb_true_iff in Hyear. destruct Hyear as [H|H].
    - eapply Pf; eassumption.
    - destruct year as [|c r]; [discriminate|]. apply andb_true_iff in H.
      destruct H as [Hc Hr]. apply Ascii.eqb_eq in Hc. subst c.
      cbn [allBytes]. rewrite (Pf _ _ Hr). reflexivity. }
  rewrite Pd, Py. destruct Hsign as [-> | ->]; reflexivity.
Qed.

Lemma filterOut_lacks c s : contains s c = false -> filterOut c s = s.
Proof.
  induction s as [|a s IH]; cbn [contains filterOut]; [reflexivity|].
  intros H. apply orb_false_iff in H. destruct H as [Ha Hs].
  rewrite Ha, IH by assumption. reflexivity.
Qed.

Lemma Unquote_rawQuoted s :
  contains s bquote = false -> contains s "013"%char = false ->
  strconv.Unquote (rawQuoted s) = Ok s.
Proof.
  intros B C. unfold strconv.Unquote, rawQuoted. rewrite splitLast_app.
  change (Ascii.eqb bquote bquote) with true. cbn [negb].
  rewrite B, filterOut_lacks by assumption. reflexivity.
Qed.

(** X5.  [UnmarshalJSON] reads Go string literals, not JSON strings only: the
    text of a [Time] that the layout can carry, put between back quotes
    (which is no JSON), is unmarshalled without error to that time, cut to
    the whole second. *)
Theorem UnmarshalJSON_raw_string (t t0 : todoist.Time) :
  fitsLayout (todoist.Time_ t) = true ->
  todoist.UnmarshalJSON t0 (rawQuoted (time.Format (todoist.Time_ t) todoist.layout))
  = (todoist.mkTime (wholeSecond (todoist.Time_ t)), None).
Proof.
  intros F.
  unfold todoist.UnmarshalJSON, todoist.Parse.
  pose proof (InLayout_layoutBytes _ (Format_InLayout (todoist.Time_ t))) as L.
  rewrite Unquote_rawQuoted by (apply (allBytes_lacks _ _ _ L); reflexivity).
  rewrite Parse_Format_wholeSecond by assumption. reflexivity.
Qed.

Lemma UnmarshalJSON_raw_string_witness :
  todoist.UnmarshalJSON todoist.zero
    (rawQuoted (time.Format (todoist.Time_ sampleTime) todoist.layout))
  = (todoist.mkTime (wholeSecond (todoist.Time_ sampleTime)), None).
Proof.
  apply (UnmarshalJSON_raw_string sampleTime todoist.zero). reflexivity.
Defined.


(** *** The weekday of a text *)

(** The text of the value only goes into the error messages of [parse]. *)
Lemma parseLoop_Ok_any_value k al av av' l value f t :
  time.parseLoop k al av l value f = Ok t ->
  time.parseLoop k al av' l value f = Ok t.
Proof.
  revert l value f. induction k as [|k IH]; intros l value f; cbn [time.parseLoop];
    [discriminate|].
  destruct (time.nextStdChunk l) as [[prefix e] suffix].
  destruct (time.skip value prefix) as [value1 [|]]; [|discriminate].
  destruct e as [e|].
  - destruct (time.parseStd e f value1) as [f' value' range bad].
    destruct (negb (String.length range =? 0)%nat); [discriminate|].
    destruct bad; [discriminate|]. apply IH.
  - destruct (negb (String.length value1 =? 0)%nat); [discriminate|].
    unfold time.finish. destruct f.
    destruct ((p_day <? 1) || (p_day >? time.daysIn p_month p_year)); [discriminate|].
    intros H. exact H.
Qed.

Lemma parseStd_any_weekday f wd rest :
  In wd time.shortDayNames ->
  time.parseStd time.stdWeekDay f (wd ++ rest) = time.mkStep f rest "" false.
Proof.
  intros H. destruct f. cbn in H.
  repeat (destruct H as [<-|H]; [reflexivity|]). contradiction.
Qed.

Lemma Format_weekday_rest t :
  time.Format t todoist.layout
  = substring 0 3 (time.Weekday_String (time.absWeekday (time.abs t)))
    ++ strconv.dropN 3 (time.Format t todoist.layout).
Proof.
  rewrite Format_layout.
  assert (W : time.formatStd t time.stdWeekDay
              = substring 0 3 (time.Weekday_String (time.absWeekday (time.abs t)))).
  { unfold time.formatStd.
    destruct (time.absDate _) as [[[? ?] ?] ?]. destruct (time.absClock _) as [[? ?] ?].
    reflexivity. }
  rewrite W. pose proof (absWeekday_range (time.abs t)) as R.
  set (w := time.absWeekday (time.abs t)) in *.
  each_value w 0; reflexivity.
Qed.

(** X6.  [Parse] reads the weekday of a text and does not compare it with
    the date: the text of a time that the layout can carry is parsed to
    that time (cut to the whole second) with any of the seven abbreviated
    weekdays in front. *)
Theorem Parse_does_not_check_the_weekday (t : time.Time) (wd : string) :
  fitsLayout t = true ->
  In wd time.shortDayNames ->
  todoist.Parse (wd ++ strconv.dropN 3 (time.Format t todoist.layout))
  = (todoist.mkTime (wholeSecond t), None).
Proof.
  intros F W. pose proof (Parse_Format_wholeSecond t F) as P.
  unfold todoist.Parse.
  enough (E : time.Parse todoist.layout
                (wd ++ strconv.dropN 3 (time.Format t todoist.layout))
              = Ok (wholeSecond t)) by (rewrite E; reflexivity).
  set (rest := strconv.dropN 3 (time.Format t todoist.layout)) in *.
  rewrite (Format_weekday_rest t) in P. fold rest in P.
  unfold time.Parse in *.
  change (String.length todoist.layout) with 29%nat in *.
  erewrite parseLoop_step in P;
    [ | reflexivity | apply skip_nothing
      | apply parseStd_weekday, absWeekday_range ].
  erewrite parseLoop_step;
    [ | reflexivity | apply skip_nothing | apply parseStd_any_weekday, W ].
  eapply parseLoop_Ok_any_value, P.
Qed.

Lemma Parse_does_not_check_the_weekday_witness :
  todoist.Parse ("Sun" ++ strconv.dropN 3 (time.Format (todoist.Time_ sampleTime) todoist.layout))
  = (todoist.mkTime (wholeSecond (todoist.Time_ sampleTime)), None).
Proof.
  apply (Parse_does_not_check_the_weekday (todoist.Time_ sampleTime) "Sun").
  - reflexivity.
  - cbn. tauto.
Defined.

(** *** What [Parse] accepts *)

Lemma daysSinceEpoch_next y :
  time.daysSinceEpoch (y + 1)
  = time.daysSinceEpoch y + 365 + (if time.isLeap y then 1 else 0).
Proof.
  unfold time.daysSinceEpoch, time.daysPer400Years, time.daysPer100Years, time.daysPer4Years.
  cbv zeta. rewrite isLeap_mod. replace (y + 1 - 1) with y by lia.
  repeat match goal with |- context [Z.eqb ?a ?b] => destruct (Z.eqb_spec a b) end;
    cbn [andb orb negb]; Z.div_mod_to_equations; lia.
Qed.

Lemma daysSinceEpoch_grows y n :
  0 <= n -> time.daysSinceEpoch y + 365 * n <= time.daysSinceEpoch (y + n).
Proof.
  intros H. revert n H. apply natlike_ind.
  - replace (y + 0) with y by lia. lia.
  - intros n Hn IH. replace (y + Z.succ n) with (y + n + 1) by lia.
    rewrite daysSinceEpoch_next. destruct (time.isLeap (y + n)); lia.
Qed.

Lemma yearDay_unique y yd :
  0 <= yd -> (yd <= 364 \/ (yd = 365 /\ time.isLeap y = true)) ->
  yearDay (time.daysSinceEpoch y + yd) = (y, yd).
Proof.
  intros H0 H1. pose proof (yearDay_spec (time.daysSinceEpoch y + yd)) as S.
  destruct (yearDay _) as [y' yd']. destruct S as (S0 & S1 & S2).
  assert (E : y' = y).
  { destruct (Z.lt_trichotomy y' y) as [L|[E|G]]; [exfalso| exact E |exfalso].
    - pose proof (daysSinceEpoch_grows (y' + 1) (y - y' - 1) ltac:(lia)) as M.
      replace (y' + 1 + (y - y' - 1)) with y in M by lia.
      rewrite daysSinceEpoch_next in M.
      destruct (time.isLeap y'); destruct S1 as [?|[? ?]]; try discriminate; lia.
    - pose proof (daysSinceEpoch_grows (y + 1) (y' - y - 1) ltac:(lia)) as M.
      replace (y + 1 + (y' - y - 1)) with y' in M by lia.
      rewrite daysSinceEpoch_next in M.
      destruct (time.isLeap y); destruct H1 as [?|[? ?]]; try discriminate; lia. }
  subst y'. f_equal. lia.
Qed.

Lemma monthDay_back_ok leap month day :
  1 <= month <= 12 -> 1 <= day <= 31 -> monthDay_back leap month day = true.
Proof.
  intros Hm Hd.
  assert (A : forallb (fun m => forallb (fun d => monthDay_back leap (m + 1) (d + 1))
                                  (range (Z.to_nat 31))) (range (Z.to_nat 12)) = true)
    by (destruct leap; vm_compute; reflexivity).
  pose proof (forall_range _ 12 A (month - 1) ltac:(lia)) as B. cbv beta in B.
  pose proof (forall_range _ 31 B (day - 1) ltac:(lia)) as C. cbv beta in C.
  replace (month - 1 + 1) with month in C by lia.
  replace (day - 1 + 1) with day in C by lia. exact C.
Qed.

(** Replace the entries of [daysBefore] at known months by their values. *)
Ltac calc_days :=
  repeat match goal with
    | |- context [time.daysBeforeAt ?k] =>
        let v := eval vm_compute in (time.daysBeforeAt k) in
        change (time.daysBeforeAt k) with v
    | H : context [time.daysBeforeAt ?k] |- _ =>
        let v := eval vm_compute in (time.daysBeforeAt k) in
        change (time.daysBeforeAt k) with v in H
    | |- context [?a >=? ?b] =>
        let v := eval vm_compute in (a >=? b) in change (a >=? b) with v
    | H : context [?a =? ?b] |- _ =>
        let v := eval vm_compute in (a =? b) in change (a =? b) with v in H
    end.

(** The date of the day count of a date that exists is that date. *)
Lemma absDate_dayCount year month day :
  1 <= month <= 12 -> 1 <= day <= time.daysIn month year ->
  exists yday, time.absDate (dayCount year month day) = (year, month, day, yday).
Proof.
  intros Hm Hd. pose proof (daysIn_bound month year Hm) as B.
  pose proof (monthDay_back_ok (time.isLeap year) month day Hm ltac:(lia)) as K.
  unfold monthDay_back in K. unfold time.daysIn in Hd.
  destruct ((1 <=? day) && _) eqn:V in K.
  2:{ exfalso. rewrite andb_false_iff, Z.leb_gt, Z.leb_gt in V.
      destruct ((month =? 2) && time.isLeap year); lia. }
  cbn [negb orb] in K.
  set (yd := time.daysBeforeAt (month - 1)
             + (if time.isLeap year && (month >=? 3) then 1 else 0) + (day - 1)) in *.
  assert (Y : 0 <= yd /\ (yd <= 364 \/ (yd = 365 /\ time.isLeap year = true))).
  { subst yd. clear K V B.
    destruct (time.isLeap year); cbn [andb] in *;
      each_value month 1; calc_days; cbn [andb] in *; (split; [lia|]);
      first [ left; lia
            | destruct (Z.le_gt_cases day 30);
              [left; lia | right; split; [lia|reflexivity]] ]. }
  exists yd. rewrite absDate_split.
  replace (dayCount year month day) with (time.daysSinceEpoch year + yd)
    by (unfold dayCount; subst yd; lia).
  rewrite (yearDay_unique year yd) by tauto.
  destruct (monthDay (time.isLeap year) yd) as [m dd].
  apply andb_true_iff in K. destruct K as [K1 K2].
  apply Z.eqb_eq in K1, K2. subst. reflexivity.
Qed.

Lemma digitVal_range c : isDigit c = true -> 0 <= digitVal c <= 9.
Proof.
  unfold isDigit, digitVal. rewrite andb_true_iff, !Z.leb_le. lia.
Qed.

Lemma getnum_range s fixed v rest :
  time.getnum s fixed = Some (v, rest) -> 0 <= v <= 99.
Proof.
  unfold time.getnum. destruct s as [|c0 r0]; [discriminate|].
  destruct (isDigit c0) eqn:D0; cbn [negb]; [|discriminate].
  pose proof (digitVal_range _ D0).
  destruct r0 as [|c1 r1].
  - destruct fixed; [discriminate|]. intros E. injection E as <- _. lia.
  - destruct (isDigit c1) eqn:D1.
    + pose proof (digitVal_range _ D1). intros E. injection E as <- _. lia.
    + destruct fixed; [discriminate|]. intros E. injection E as <- _. lia.
Qed.

Lemma atoiFrom_range s acc v :
  0 <= acc -> time.atoiFrom acc s = Some v ->
  acc * 10 ^ len s <= v < (acc + 1) * 10 ^ len s.
Proof.
  revert acc. induction s as [|c r IH]; intros acc Ha; cbn [time.atoiFrom].
  - intros E. injection E as <-. change (10 ^ len "") with 1. lia.
  - destruct (isDigit c) eqn:D; [|discriminate]. intros E.
    pose proof (digitVal_range _ D) as Dv.
    apply IH in E; [|lia].
    replace (len (String c r)) with (1 + len r)
      by (unfold len; cbn [String.length]; lia).
    rewrite Z.pow_add_r by (unfold len; lia). change (10 ^ 1) with 10.
    assert (P : 0 < 10 ^ len r) by (apply Z.pow_pos_nonneg; unfold len; lia).
    nia.
Qed.

Lemma spanDigits_length n s :
  (String.length (fst (time.spanDigits n s)) <= n)%nat.
Proof.
  revert n. induction s as [|c r IH]; intros n; cbn [time.spanDigits]; [cbn; lia|].
  destruct (isDigit c); [|cbn; lia].
  destruct n as [|k].
  - destruct (time.spanDigits 0 r). cbn. lia.
  - specialize (IH k). destruct (time.spanDigits k r). cbn in *. lia.
Qed.

Lemma parseNanoseconds_range ds n :
  (String.length ds <= 9)%nat -> time.parseNanoseconds ds = Some n ->
  0 <= n < 1000000000.
Proof.
  unfold time.parseNanoseconds. intros L.
  destruct (time.atoiFrom 0 ds) as [ns|] eqn:A; [|discriminate].
  intros E. injection E as <-. apply atoiFrom_range in A; [|lia].
  assert (Ll : 0 <= len ds <= 9) by (unfold len; lia).
  assert (P : 10 ^ len ds * 10 ^ (9 - len ds) = 1000000000).
  { rewrite <- Z.pow_add_r by lia. replace (len ds + (9 - len ds)) with 9 by lia.
    reflexivity. }
  assert (Q : 0 < 10 ^ (9 - len ds)) by (apply Z.pow_pos_nonneg; lia).
  destruct A as [A1 A2]. rewrite Z.mul_0_l in A1. rewrite Z.add_0_l, Z.mul_1_l in A2.
  split; [apply Z.mul_nonneg_nonneg; lia|].
  rewrite <- P. apply Z.mul_lt_mono_pos_r; assumption.
Qed.

Lemma lookup_range tab i0 val i rest :
  time.lookup tab i0 val = Some (i, rest) -> i0 <= i < i0 + Z.of_nat (List.length tab).
Proof.
  revert i0. induction tab as [|v tab IH]; intros i0; cbn [time.lookup]; [discriminate|].
  destruct (time.matchPrefix v val).
  - intros E. injection E as <- _. cbn [List.length]. lia.
  - intros E. apply IH in E. cbn [List.length]. lia.
Qed.

(** One element read with success sets its field within range. *)
Lemma parseStd_reads e f value f' value' :
  time.parseStd e f value = time.mkStep f' value' "" false -> reads e f f'.
Proof.
  destruct f as [y mo d h mi s ns zo]. destruct e; cbn [time.parseStd reads].
  - (* Mon *)
    destruct (time.lookup time.shortDayNames 0 value) as [[i rest]|];
      intros E; [injection E as <- _; reflexivity | discriminate E].
  - (* 2 *)
    destruct (time.getnum value false) as [[v rest]|] eqn:G;
      intros E; [|discriminate E].
    injection E as <- _. exists v. split; [apply (getnum_range _ _ _ _ G)|reflexivity].
  - (* Jan *)
    destruct (time.lookup time.shortMonthNames 0 value) as [[i rest]|] eqn:L;
      intros E; [|discriminate E].
    injection E as <- _. exists (i + 1). apply lookup_range in L. cbn in L.
    split; [lia|reflexivity].
  - (* 2006 *)
    destruct value as [|c0 [|c1 [|c2 [|c3 rest]]]]; try (intros E; discriminate E).
    destruct (isDigit c0); cbn [negb]; [|intros E; discriminate E].
    destruct (time.atoiFrom 0 _) as [v|] eqn:A; intros E; [|discriminate E].
    injection E as <- _. exists v. apply atoiFrom_range in A; [|lia].
    change (10 ^ len _) with 10000 in A. split; [lia|reflexivity].
  - (* 15 *)
    destruct (time.getnum value false) as [[v rest]|] eqn:G;
      intros E; [|discriminate E].
    destruct ((v <? 0) || (24 <=? v)) eqn:B; [discriminate E|].
    injection E as <- _. exists v. apply orb_false_iff in B. destruct B as [B1 B2].
    apply Z.ltb_ge in B1. apply Z.leb_gt in B2. split; [lia|reflexivity].
  - (* 04 *)
    destruct (time.getnum value true) as [[v rest]|] eqn:G;
      intros E; [|discriminate E].
    destruct ((v <? 0) || (60 <=? v)) eqn:B; [discriminate E|].
    injection E as <- _. exists v. apply orb_false_iff in B. destruct B as [B1 B2].
    apply Z.ltb_ge in B1. apply Z.leb_gt in B2. split; [lia|reflexivity].
  - (* 05 *)
    destruct (time.getnum value true) as [[v rest]|] eqn:G;
      [|intros E; discriminate E].
    destruct ((v <? 0) || (60 <=? v)) eqn:B; [intros E; discriminate E|].
    apply orb_false_iff in B. destruct B as [B1 B2].
    apply Z.ltb_ge in B1. apply Z.leb_gt in B2.
    assert (K : forall value', time.mkStep (time.mkFields y mo d h mi v ns zo) rest "" false
                     = time.mkStep f' value' "" false ->
                exists v0 n, 0 <= v0 < 60 /\ (n = ns \/ 0 <= n < 1000000000) /\
                             f' = time.mkFields y mo d h mi v0 n zo).
    { intros ? E. injection E as <- _. exists v, ns.
      split; [lia|]. split; [left; reflexivity|reflexivity]. }
    destruct rest as [|c0 [|c1 r1]]; try (apply K).
    destruct (time.commaOrPeriod c0 && isDigit c1); [|apply K].
    pose proof (spanDigits_length 9 (String c1 r1)) as SL.
    destruct (time.spanDigits 9 (String c1 r1)) as [ds rest']. cbn [fst] in SL.
    destruct (time.parseNanoseconds ds) as [n|] eqn:PN; intros E; [|discriminate E].
    injection E as <- _. exists v, n. split; [lia|].
    split; [right; apply (parseNanoseconds_range _ _ SL PN)|reflexivity].
  - (* -0700 *)
    destruct value as [|sg [|h0 [|h1 [|m0 [|m1 rest]]]]]; try (intros E; discriminate E).
    destruct (time.getnum (String h0 (char h1)) true) as [[hv hr]|] eqn:GH.
    2:{ cbn zeta. destruct (Ascii.eqb sg "+"); [intros E; discriminate E|].
        destruct (Ascii.eqb sg "-"); intros E; discriminate E. }
    destruct (time.getnum (String m0 (char m1)) true) as [[mv mr]|] eqn:GM.
    2:{ cbn zeta. destruct (Ascii.eqb sg "+"); [intros E; discriminate E|].
        destruct (Ascii.eqb sg "-"); intros E; discriminate E. }
    cbn zeta. apply getnum_range in GH, GM.
    destruct (Z.ltb_spec 60 mv); destruct (Z.ltb_spec 24 hv);
      destruct (Ascii.eqb sg "+"); try (intros E; discriminate E);
      try (destruct (Ascii.eqb sg "-"); intros E; discriminate E).
    + intros E. injection E as <- _. eexists. split; [|split; [|reflexivity]].
      * Z.quot_rem_to_equations. lia.
      * lia.
    + destruct (Ascii.eqb sg "-"); intros E; [|discriminate E].
      injection E as <- _. eexists. split; [|split; [|reflexivity]].
      * Z.quot_rem_to_equations. lia.
      * lia.
Qed.

Lemma parseLoop_element k al av l value f t prefix e suffix :
  time.nextStdChunk l = (prefix, Some e, suffix) ->
  time.parseLoop (S k) al av l value f = Ok t ->
  exists f' value', reads e f f' /\ time.parseLoop k al av suffix value' f' = Ok t.
Proof.
  intros N. cbn [time.parseLoop]. rewrite N.
  destruct (time.skip value prefix) as [value1 [|]]; [|discriminate].
  destruct (time.parseStd e f value1) as [f' value' range bad] eqn:P.
  destruct range as [|c r]; cbn [String.length Nat.eqb negb]; [|discriminate].
  destruct bad; [discriminate|]. intros H.
  exists f', value'. split; [apply (parseStd_reads _ _ _ _ _ P)|exact H].
Qed.

Lemma parseLoop_end k al av l value f t prefix suffix :
  time.nextStdChunk l = (prefix, None, suffix) ->
  time.parseLoop (S k) al av l value f = Ok t ->
  exists value1, time.finish al av value1 f = Ok t.
Proof.
  intros N. cbn [time.parseLoop]. rewrite N.
  destruct (time.skip value prefix) as [value1 [|]]; [|discriminate].
  destruct (negb (String.length value1 =? 0)%nat); [discriminate|].
  intros H. exists value1. exact H.
Qed.

(** [Date] on fields in range adds up the day count and the clock. *)
Lemma Date_dayCount y m d h mi s ns :
  1 <= m <= 12 -> 0 <= h < 24 -> 0 <= mi < 60 -> 0 <= s < 60 ->
  0 <= ns < 1000000000 ->
  time.Date y m d h mi s ns
  = time.mkTime (dayCount y m d * time.secondsPerDay
                 + (h * time.secondsPerHour + mi * time.secondsPerMinute + s)) ns 0.
Proof.
  intros Hm Hh Hmi Hs Hns. unfold time.Date, dayCount.
  rewrite (norm_id y (m - 1) 12) by lia.
  rewrite (norm_id s ns 1000000000) by lia.
  rewrite (norm_id mi s 60) by lia.
  rewrite (norm_id h mi 60) by lia.
  rewrite (norm_id d h 24) by lia.
  replace (m - 1 + 1) with m by lia.
  f_equal.
  destruct (time.isLeap y && (m >=? 3)); lia.
Qed.

(** Every time that [Parse] gives for the layout is in range. *)
Lemma Parse_parseRange value t :
  time.Parse todoist.layout value = Ok t -> parseRange t = true.
Proof.
  unfold time.Parse. change (String.length todoist.layout) with 29%nat.
  unfold time.fields0. intros H.
  do 8 (eapply parseLoop_element in H; [|reflexivity];
        destruct H as (? & ? & ? & H)).
  eapply parseLoop_end in H; [|reflexivity]. destruct H as (? & H).
  cbn [reads] in *.
  repeat match goal with
    | R : exists _, _ |- _ => destruct R
    | R : _ /\ _ |- _ => destruct R
    | R : ?f = _ |- _ => is_var f; subst f; cbn [reads] in *
    end.
  match goal with
  | H : time.finish _ _ _ (time.mkFields ?y ?m ?d ?h ?mi ?s ?ns ?zo) = _ |- _ =>
      rename H into F;
      assert (Hns : 0 <= ns < 1000000000) by lia;
      unfold time.finish in F;
      destruct (Z.ltb_spec d 1); [discriminate F|];
      destruct (Z.gtb_spec d (time.daysIn m y)); [discriminate F|];
      cbn [orb] in F;
      rewrite (Date_dayCount y m d h mi s ns) in F by lia;
      cbn [time.sec time.nsec] in F;
      destruct (Z.eqb_spec zo (-1)) as [Ez|_];
      [ exfalso; subst zo;
        match goal with R : Z.rem (-1) 60 = 0 |- _ => vm_compute in R; discriminate R end
      | ];
      cbn [negb] in F; injection F as <-;
      destruct (absDate_dayCount y m d ltac:(lia) ltac:(lia)) as [yday AD];
      assert (Ey : time.Year
                     (time.mkTime
                        (dayCount y m d * time.secondsPerDay
                         + (h * time.secondsPerHour + mi * time.secondsPerMinute + s) - zo)
                        ns zo) = y)
        by (unfold time.Year, time.abs; cbn [time.sec time.offset];
            match goal with
            | |- context [time.absDate ?a] =>
                replace a with (dayCount y m d)
                  by (unfold time.secondsPerDay, time.secondsPerHour,
                        time.secondsPerMinute;
                      Z.div_mod_to_equations; lia)
            end;
            rewrite AD; reflexivity)
  end.
  unfold parseRange. rewrite Ey. cbn [time.nsec time.offset].
  rewrite !andb_true_iff, !Z.leb_le, Z.ltb_lt, Z.eqb_eq. lia.
Qed.

Lemma parseRange_fitsLayout t :
  parseRange t = true -> -90000 < time.offset t < 90000 -> fitsLayout t = true.
Proof.
  unfold parseRange, fitsLayout.
  rewrite !andb_true_iff, !Z.leb_le, !Z.ltb_lt, !Z.eqb_eq. lia.
Qed.

(** X7.  Whatever the bytes and whatever the receiver held, the [Time] that
    [UnmarshalJSON] leaves in the receiver has its nanoseconds within a
    second, an offset from UTC of whole minutes of 25 hours at most either
    way, and a year from 0 to 9999 in its own zone. *)
Theorem UnmarshalJSON_leaves_a_time_in_range (t0 : todoist.Time) (b : string) :
  parseRange (todoist.Time_ (fst (todoist.UnmarshalJSON t0 b))) = true.
Proof.
  unfold todoist.UnmarshalJSON, todoist.Parse.
  destruct (strconv.Unquote b) as [s|]; [|reflexivity].
  destruct (time.Parse todoist.layout s) as [t|e] eqn:P; [|reflexivity].
  cbn [fst todoist.Time_]. apply (Parse_parseRange _ _ P).
Qed.

(** X8.  A non-zero [Time] that [UnmarshalJSON] read without error, with an
    offset under 25 hours, is one that [MarshalJSON] and [UnmarshalJSON]
    carry: marshalling it and unmarshalling the bytes returns no error and
    gives the same second in the same zone.  (An offset of exactly 25 hours
    is read and not read back: see the example below.) *)
Theorem decoded_time_encodes_and_decodes (t0 t1 t : todoist.Time) (b : string) :
  todoist.UnmarshalJSON t0 b = (t, None) ->
  todoist.IsZero t = false ->
  -90000 < time.offset (todoist.Time_ t) < 90000 ->
  todoist.UnmarshalJSON t1 (fst (todoist.MarshalJSON t))
  = (todoist.mkTime (wholeSecond (todoist.Time_ t)), None).
Proof.
  intros U Z O.
  assert (R : parseRange (todoist.Time_ t) = true).
  { unfold todoist.UnmarshalJSON, todoist.Parse in U.
    destruct (strconv.Unquote b) as [s|]; [|injection U as <-; reflexivity].
    destruct (time.Parse todoist.layout s) as [t'|e] eqn:P; [|discriminate U].
    injection U as <-. apply (Parse_parseRange _ _ P). }
  rewrite MarshalJSON_quoted by assumption.
  apply UnmarshalJSON_quoted_Format, parseRange_fitsLayout; assumption.
Qed.

Lemma decoded_time_encodes_and_decodes_witness :
  todoist.UnmarshalJSON oneSecond
    (fst (todoist.MarshalJSON (fst (todoist.UnmarshalJSON todoist.zero fractionText))))
  = (todoist.mkTime
       (wholeSecond (todoist.Time_ (fst (todoist.UnmarshalJSON todoist.zero fractionText)))),
     None).
Proof.
  apply (decoded_time_encodes_and_decodes todoist.zero oneSecond
           (fst (todoist.UnmarshalJSON todoist.zero fractionText)) fractionText).
  - reflexivity.
  - reflexivity.
  - vm_compute. split; reflexivity.
Defined.

(** The bound on the offset is needed: [Parse] accepts an offset of 24
    hours and 60 minutes, [Format] writes it as 25 hours, and [Parse]
    rejects that. *)
Example offset_of_25_hours_is_not_read_back :
  snd (todoist.UnmarshalJSON todoist.zero wideOffsetText) = None /\
  time.offset (todoist.Time_ (fst (todoist.UnmarshalJSON todoist.zero wideOffsetText)))
  = 90000 /\
  fst (todoist.MarshalJSON (fst (todoist.UnmarshalJSON todoist.zero wideOffsetText)))
  = quoted "Thu 29 Feb 2024 12:00:00 +2500" /\
  isNone (snd (todoist.UnmarshalJSON todoist.zero
                 (fst (todoist.MarshalJSON
                         (fst (todoist.UnmarshalJSON todoist.zero wideOffsetText))))))
  = false.
Proof. vm_compute. repeat split. Qed.


(** *** [ShortString] *)

Lemma Format_shortLayout t :
  timeShort.Format t shortLayout =
  time.formatStd t time.stdLongYear ++ "-" ++
  timeShort.formatStd t timeShort.stdZeroMonth ++ "-" ++
  timeShort.formatStd t timeShort.stdZeroDay ++ "(" ++
  time.formatStd t time.stdWeekDay ++ ") " ++
  time.formatStd t time.stdHour ++ ":" ++ time.formatStd t time.stdZeroMinute ++ "".
Proof. reflexivity. Qed.

Lemma Format_InShortLayout t : InShortLayout (timeShort.Format t shortLayout).
Proof.
  rewrite Format_shortLayout, app_empty_r.
  pose proof (absDate_spec (time.abs t / time.secondsPerDay)) as D.
  pose proof (absClock_spec (time.abs t)) as C.
  pose proof (absWeekday_range (time.abs t)) as W.
  unfold time.formatStd, timeShort.formatStd.
  destruct (time.absDate _) as [[[year month] day] yday].
  destruct (time.absClock _) as [[h mi] s].
  destruct D as (D1 & D2 & _). destruct C as (C1 & C2 & _).
  pose proof (daysIn_bound month year D1) as D3.
  apply InShortLayout_intro.
  - apply isYearText_appendInt.
  - rewrite appendInt_2 by lia. apply digitsN_twoDigits. lia.
  - rewrite appendInt_2 by lia. apply digitsN_twoDigits. lia.
  - apply weekday_name, W.
  - rewrite appendInt_2 by lia. apply digitsN_twoDigits. lia.
  - rewrite appendInt_2 by lia. apply digitsN_twoDigits. lia.
Qed.

Lemma InShortLayout_not_empty s : InShortLayout s -> String.eqb s "" = false.
Proof.
  intros [year mon day wd hh mi Hy _ _ _ _ _].
  destruct year as [|c r]; [discriminate Hy|reflexivity].
Qed.

(** X9.  [ShortString] gives the empty text exactly for the zero [Time];
    for every other [Time], whatever the zone of the machine, it gives a text
    in the pattern of [shortLayout]: year, month and day in digits, the
    abbreviated weekday between brackets, hours and minutes. *)
Theorem ShortString_empty_or_shortLayout (localOffset : Z -> Z) (t : todoist.Time) :
  String.eqb (ShortString localOffset t) "" = todoist.IsZero t /\
  (if todoist.IsZero t then ShortString localOffset t = ""
   else InShortLayout (ShortString localOffset t)).
Proof.
  unfold ShortString. destruct (todoist.IsZero t).
  - split; reflexivity.
  - split; [apply InShortLayout_not_empty|]; apply Format_InShortLayout.
Qed.

Lemma absClock_minute a b :
  a / 60 = b / 60 ->
  a / time.secondsPerDay = b / time.secondsPerDay /\
  fst (time.absClock a) = fst (time.absClock b).
Proof.
  intros H. unfold time.absClock, time.secondsPerDay, time.secondsPerHour,
    time.secondsPerMinute. cbv zeta. cbn [fst].
  assert (E1 : a / 86400 = b / 86400).
  { change 86400 with (60 * 1440).
    rewrite <- (Z.div_div a 60 1440), <- (Z.div_div b 60 1440) by lia.
    rewrite H. reflexivity. }
  split; [exact E1|].
  assert (E2 : a mod 86400 / 60 = b mod 86400 / 60).
  { Z.div_mod_to_equations. lia. }
  assert (E3 : a mod 86400 / 3600 = b mod 86400 / 3600).
  { change 3600 with (60 * 60).
    rewrite <- (Z.div_div (a mod 86400) 60 60), <- (Z.div_div (b mod 86400) 60 60) by lia.
    rewrite E2. reflexivity. }
  rewrite E3. f_equal.
  Z.div_mod_to_equations. lia.
Qed.

(** X10.  [ShortString] shows neither seconds nor the zone of the [Time]: two
    non-zero [Time] values that fall in the same minute of the wall clock
    of the machine have the same short text. *)
Theorem ShortString_same_minute (localOffset : Z -> Z) (t u : todoist.Time) :
  todoist.IsZero t = false -> todoist.IsZero u = false ->
  wallMinute (localOffset (time.sec (todoist.Time_ t))) (todoist.Time_ t)
  = wallMinute (localOffset (time.sec (todoist.Time_ u))) (todoist.Time_ u) ->
  ShortString localOffset t = ShortString localOffset u.
Proof.
  intros Zt Zu M. unfold ShortString. rewrite Zt, Zu.
  rewrite !Format_shortLayout.
  unfold wallMinute in M.
  set (a := Local localOffset (todoist.Time_ t)).
  set (b := Local localOffset (todoist.Time_ u)).
  assert (Ma : time.abs a / 60 = time.abs b / 60) by exact M.
  destruct (absClock_minute _ _ Ma) as [D C].
  unfold time.formatStd, timeShort.formatStd, time.absWeekday.
  rewrite D.
  destruct (time.absDate _) as [[[year month] day] yday].
  destruct (time.absClock (time.abs a)) as [[h mi] s].
  destruct (time.absClock (time.abs b)) as [[h' mi'] s'].
  cbn [fst] in C. injection C as -> ->. reflexivity.
Qed.

Lemma ShortString_same_minute_witness :
  ShortString (fun _ => 3600) (atSecond 63844804805)
  = ShortString (fun _ => 3600) (atSecond 63844804855).
Proof.
  apply (ShortString_same_minute (fun _ => 3600)
           (atSecond 63844804805) (atSecond 63844804855));
    reflexivity.
Defined.

(* ================================================================= *)
(** ** More on the item commands *)
(* ================================================================= *)

(** *** The order [item add] sorts by *)

Lemma Before_true_iff t u :
  todoist.Before t u = true <->
  time.sec (todoist.Time_ t) < time.sec (todoist.Time_ u) \/
  (time.sec (todoist.Time_ t) = time.sec (todoist.Time_ u) /\
   time.nsec (todoist.Time_ t) < time.nsec (todoist.Time_ u)).
Proof.
  unfold todoist.Before, time.Before.
  rewrite orb_true_iff, andb_true_iff, Z.eqb_eq, !Z.ltb_lt. reflexivity.
Qed.

(** X11.  The order that [item add] hands to [sort.Slice], [DateAdded] of the
    one [Before] that of the other, is a strict weak order, as [sort.Slice]
    requires: it is irreflexive, asymmetric and transitive, and two items
    neither of which is before the other were added at equal instants, so
    that being unordered is transitive as well. *)
Theorem byDateAdded_strict_weak_order (a b c : Item) :
  byDateAdded a a = false /\
  (byDateAdded a b = true -> byDateAdded b a = false) /\
  (byDateAdded a b = true -> byDateAdded b c = true -> byDateAdded a c = true) /\
  (byDateAdded a b = false -> byDateAdded b a = false ->
   todoist.Equal (DateAdded a) (DateAdded b) = true) /\
  (byDateAdded a b = false -> byDateAdded b c = false -> byDateAdded a c = false).
Proof.
  unfold byDateAdded. split; [apply Before_irrefl|].
  split; [|split; [|split]].
  - intros H. apply Before_true_iff in H. apply Before_false_iff. lia.
  - intros H1 H2. apply Before_true_iff in H1, H2. apply Before_true_iff. lia.
  - intros H1 H2. apply Before_false_iff in H1, H2.
    unfold todoist.Equal, time.Equal. rewrite andb_true_iff, !Z.eqb_eq. lia.
  - intros H1 H2. apply Before_false_iff in H1, H2. apply Before_false_iff. lia.
Qed.

(** *** The labels of [add] and [update] *)

Lemma NewID_Ok s id : NewID s = Ok id -> id = s /\ notID s = false.
Proof.
  unfold notID, NewID. destruct (_ && _); [|discriminate].
  intros E. injection E as <-. split; reflexivity.
Qed.

Lemma NewID_Err s e : NewID s = Err e -> notID s = true.
Proof. unfold notID. intros ->. reflexivity. Qed.

Lemma addLabels_nil item : addLabels item [] = item.
Proof. destruct item. unfold addLabels. cbn. rewrite app_nil_r. reflexivity. Qed.

Lemma addLabels_withLabel item l ls :
  addLabels (withLabel item l) ls = addLabels item (l :: ls).
Proof. unfold withLabel, addLabels. cbn. rewrite <- app_assoc. reflexivity. Qed.

Lemma labelLookups_app {R} (a b : list (Event R)) :
  labelLookups (a ++ b) = (labelLookups a ++ labelLookups b)%list.
Proof.
  induction a as [|e a IH]; [reflexivity|].
  destruct e; cbn [app labelLookups]; rewrite IH; reflexivity.
Qed.

(** The loop over the pieces: what it looks up, and what it returns. *)
Lemma labelsLoop_spec {R} names item (tr : list (Event R)) a :
  runs (labelsLoop names item) tr a ->
  labelLookups tr = filter notID names /\
  exists extra,
    a = addLabels item extra /\
    (forall l, In l extra -> fromPieceOrLookup names tr l) /\
    (forall p, In p names -> notID p = false -> In p extra).
Proof.
  revert item tr. induction names as [|n rest IH]; intros item tr H; cbn [labelsLoop] in H.
  - destruct H as [-> ->]. split; [reflexivity|]. exists [].
    split; [symmetry; apply addLabels_nil|]. split; intros ? [].
  - apply runs_bind in H. destruct H as (tr1 & it & tr2 & -> & H1 & H2).
    destruct (IH _ _ H2) as (L & extra & -> & F & G). clear IH H2.
    rewrite labelLookups_app, L. cbn [filter].
    destruct (NewID n) as [lid|e] eqn:N; cbn [runs bind call] in H1.
    + destruct H1 as [-> ->]. destruct (NewID_Ok _ _ N) as [-> Nn]. rewrite Nn.
      split; [reflexivity|]. exists (n :: extra).
      split; [apply addLabels_withLabel|]. split.
      * intros l [<-|I]; [left; split; [left; reflexivity|exact Nn]|].
        destruct (F l I) as [[I1 I2]|(nm & lab & I1 & I2 & I3 & I4)].
        -- left. split; [right; exact I1|exact I2].
        -- right. exists nm, lab. split; [right; exact I1|]. split; [exact I2|].
           split; [exact I3|exact I4].
      * intros p [<-|I] Np; [left; reflexivity|right; apply G; assumption].
    + destruct H1 as (x & tr' & -> & -> & ->). rewrite (NewID_Err _ _ N).
      split; [reflexivity|].
      assert (F' : forall l, In l extra ->
                fromPieceOrLookup (n :: rest) (ELabel_FindOneByName n x :: tr2) l).
      { intros l I.
        destruct (F l I) as [[I1 I2]|(nm & lab & I1 & I2 & I3 & I4)].
        - left. split; [right; exact I1|exact I2].
        - right. exists nm, lab. split; [right; exact I1|]. split; [exact I2|].
          split; [right; exact I3|exact I4]. }
      assert (G' : forall p, In p (n :: rest) -> notID p = false -> In p extra).
      { intros p [<-|I] Np; [rewrite (NewID_Err _ _ N) in Np; discriminate|].
        apply G; assumption. }
      destruct x as [lab|].
      * exists (Label_ID lab :: extra).
        split; [apply addLabels_withLabel|]. split.
        -- intros l [<-|I]; [|apply F', I].
           right. exists n, lab. split; [left; reflexivity|].
           split; [apply (NewID_Err _ _ N)|]. split; [left; reflexivity|reflexivity].
        -- intros p I Np. right. apply G'; assumption.
      * exists extra. split; [reflexivity|]. split; [exact F'|exact G'].
Qed.

Lemma labelsOf_spec {R} s item (tr : list (Event R)) a :
  runs (labelsOf s item) tr a ->
  labelLookups tr = filter notID (labelPieces s) /\
  exists extra,
    a = addLabels item extra /\
    (forall l, In l extra -> fromPieceOrLookup (labelPieces s) tr l) /\
    (forall p, In p (labelPieces s) -> notID p = false -> In p extra).
Proof.
  unfold labelsOf, labelPieces. destruct (0 <? len s).
  - apply labelsLoop_spec.
  - intros [-> ->]. split; [reflexivity|]. exists [].
    split; [symmetry; apply addLabels_nil|]. split; intros ? [].
Qed.

Lemma fromPieceOrLookup_more {R} pieces (pre tr post : list (Event R)) l :
  fromPieceOrLookup pieces tr l -> fromPieceOrLookup pieces (pre ++ tr ++ post) l.
Proof.
  intros [H|(name & label & I1 & I2 & I3 & I4)]; [left; exact H|].
  right. exists name, label. split; [exact I1|]. split; [exact I2|].
  split; [|exact I4]. apply in_or_app. right. apply in_or_app. left. exact I3.
Qed.

(** Turn the calls that [labelsOf] made into what they looked up and what
    they appended. *)
Ltac labels_spec :=
  repeat match goal with
    | H : runs (labelsOf _ _) _ _ |- _ =>
        let L := fresh "L" in
        pose proof (labelsOf_trace _ _ _ _ H) as L;
        apply labelsOf_spec in H;
        destruct H as (? & ? & ? & ? & ?)
    end.

(** X12.  In every run of [item add] or [item update] that reaches its store
    call, the labels looked up by name are exactly the pieces of the text
    of [--label] (cut at the commas, none for an empty text) that are no
    identifiers, in the order of the text, an empty or a repeated piece
    included. *)
Theorem label_lookups_follow_the_flag (R : Type)
        (sort_Slice : (Item -> Item -> bool) -> list Item -> list Item)
        (args : list string) (flags : FlagSet) (cmd : Prog R (option error))
        (tr : list (Event R)) (res : option error) (s : string) (m : Event R) :
  cmd = itemAddCmd R sort_Slice args flags \/ cmd = itemUpdateCmd R args flags ->
  runs cmd tr res ->
  GetString flags "label" = Ok s ->
  In m tr -> isMutation m = true ->
  labelLookups tr = filter notID (labelPieces s).
Proof.
  intros C H G I M.
  destruct C as [-> | ->];
    [unfold itemAddCmd in H | unfold itemUpdateCmd in H]; rewrite ?G in H.
  all: run_inv; inj_all; labels_spec; in_trace I; subst; try discriminate.
  all: try (apply (labels_In _ _ ltac:(eassumption)) in I; destruct m; discriminate).
  all: cbn [event app labelLookups]; rewrite ?labelLookups_app;
       cbn [event app labelLookups]; rewrite ?app_nil_r; try assumption.
Qed.

Lemma label_lookups_follow_the_flag_witness :
  labelLookups updateRun = filter notID (labelPieces "5,urgent").
Proof.
  apply (label_lookups_follow_the_flag unit insertionSort ["7"] updateFlags
           (itemUpdateCmd unit ["7"] updateFlags) updateRun (Some offline)
           "5,urgent" (EItem_Update milkSent ("7", None))).
  - right. reflexivity.
  - run_ok.
  - reflexivity.
  - find_in.
  - reflexivity.
Defined.


(** X13.  Once the client is built, and with the four flags registered as
    [init] does, every run of [item add] calls [Item.Add]: no argument and
    no flag value stops it.  The item it passes has no identifier, the
    arguments joined by spaces as its content, the priority and the due
    text of the flags, and as project the identifier given, or the one of
    the project found by name, or none when no project has that name; each
    of its labels is an identifier given in [--label] or the identifier of
    a label found by name, and every identifier given is among them. *)
Theorem itemAddCmd_always_adds (R : Type)
        (sort_Slice : (Item -> Item -> bool) -> list Item -> list Item)
        (args : list string) (flags : FlagSet)
        (tr rest : list (Event R)) (res : option error) :
  runs (itemAddCmd R sort_Slice args flags) tr res ->
  tr = ENewClient None :: rest ->
  hasString flags "project" && hasString flags "label" && hasString flags "due"
  && hasInt flags "priority" = true ->
  exists item r proj s due,
    In (EItem_Add item r) tr /\
    GetString flags "project" = Ok proj /\ GetString flags "label" = Ok s /\
    GetString flags "due" = Ok due /\
    GetInt flags "priority" = Ok (Priority item) /\
    Item_ID item = "" /\ Content item = strings.Join args " " /\
    DateAdded item = todoist.zero /\
    Item_Due item = mkDue due todoist.zero /\
    (if notID proj
     then exists answer,
            In (EProject_FindOneByName proj answer) tr /\
            ProjectID item = match answer with
                             | Some p => Project_ID p
                             | None => ""
                             end
     else ProjectID item = proj /\ none isProjectLookup tr = true) /\
    (forall l, In l (Labels item) -> fromPieceOrLookup (labelPieces s) tr l) /\
    (forall p, In p (labelPieces s) -> notID p = false -> In p (Labels item)).
Proof.
  unfold itemAddCmd, hasString, hasInt. intros H E F.
  destruct (GetString flags "project") as [proj|] eqn:GP; [|discriminate F].
  destruct (GetString flags "label") as [s|] eqn:GL; [|discriminate F].
  destruct (GetString flags "due") as [due|] eqn:GD; [|discriminate F].
  destruct (GetInt flags "priority") as [p|] eqn:GI; [|discriminate F].
  clear F. destruct (NewID proj) as [pid|e] eqn:NP.
  all: run_inv; inj_all; labels_spec; subst; try discriminate.
  all: try (destruct (NewID_Ok _ _ NP) as [? NP']; subst).
  all: try (pose proof (NewID_Err _ _ NP) as NP').
  all: eexists _, _, _, _, _.
  all: split; [find_in|].
  all: do 4 (split; [reflexivity|]).
  all: assert (LD : due = "" \/ (0 <? len due) = true)
         by (destruct due; [left; reflexivity | right; reflexivity]).
  all: destruct LD as [-> | LD]; [|rewrite LD].
  all: try match goal with
       | |- context [match ?x with Some _ => _ | None => _ end] => destruct x
       end.
  all: cbn [withPriority withDueString withContent withProjectID addLabels
            Item_ID Content ProjectID Labels Item_Due Priority DateAdded
            Due_String Due_Date Item0 app len String.length Z.of_nat Z.ltb Z.compare].
  all: do 4 (split; [reflexivity|]).
  all: rewrite NP'.
  all: split;
       [ first
           [ split; [reflexivity|];
             cbn [event app]; unfold none; cbn [forallb isProjectLookup negb andb];
             rewrite ?forallb_app; cbn [forallb isProjectLookup negb andb];
             rewrite ?andb_true_r;
             apply (labels_none isProjectLookup);
             [intros [] ?; (discriminate || reflexivity) | assumption]
           | eexists; split; [find_in | reflexivity] ]
       | ].
  all: split; [|assumption].
  all: intros l' I';
       first [ apply (fromPieceOrLookup_more _ [_] _ _)
             | apply (fromPieceOrLookup_more _ [_; _] _ _) ]; auto.
Qed.

Lemma itemAddCmd_always_adds_witness :
  exists item r proj s due,
    In (EItem_Add item r) addRunUnknown /\
    GetString addFlagsUnknown "project" = Ok proj /\
    GetString addFlagsUnknown "label" = Ok s /\
    GetString addFlagsUnknown "due" = Ok due /\
    GetInt addFlagsUnknown "priority" = Ok (Priority item) /\
    Item_ID item = "" /\ Content item = strings.Join ["milk"] " " /\
    DateAdded item = todoist.zero /\
    Item_Due item = mkDue due todoist.zero /\
    (if notID proj
     then exists answer,
            In (EProject_FindOneByName proj answer) addRunUnknown /\
            ProjectID item = match answer with
                             | Some p => Project_ID p
                             | None => ""
                             end
     else ProjectID item = proj /\ none isProjectLookup addRunUnknown = true) /\
    (forall l, In l (Labels item) -> fromPieceOrLookup (labelPieces s) addRunUnknown l) /\
    (forall p, In p (labelPieces s) -> notID p = false -> In p (Labels item)).
Proof.
  apply (itemAddCmd_always_adds unit insertionSort ["milk"] addFlagsUnknown
           addRunUnknown (tl addRunUnknown) (Some offline)).
  - run_ok.
  - reflexivity.
  - reflexivity.
Defined.

(** X14.  The item that [item update] passes to [Item.Update] is the one the
    store resolved, with its identifier, project, date of addition and due
    date as they were; its content is replaced only when words follow the
    identifier; its due text only when [--due] is not empty; its priority
    always, by the value of [--priority] (so by the default 1 of the flag
    when it is not given); and its labels are the old ones followed by
    labels from [--label], none being removed. *)
Theorem itemUpdateCmd_sends (R : Type) (args : list string) (flags : FlagSet)
        (tr : list (Event R)) (res : option error) (u : Item) (r : ID * option error) :
  runs (itemUpdateCmd R args flags) tr res ->
  In (EItem_Update u r) tr ->
  exists id rest old s due extra,
    args = id :: rest /\ firstResolve tr = Some (id, Some old) /\
    GetString flags "label" = Ok s /\ GetString flags "due" = Ok due /\
    GetInt flags "priority" = Ok (Priority u) /\
    Item_ID u = Item_ID old /\ ProjectID u = ProjectID old /\
    DateAdded u = DateAdded old /\
    Due_Date (Item_Due u) = Due_Date (Item_Due old) /\
    Content u = match rest with
                | [] => Content old
                | _ :: _ => strings.Join rest " "
                end /\
    Due_String (Item_Due u)
    = (if 0 <? len due then due else Due_String (Item_Due old)) /\
    Labels u = (Labels old ++ extra)%list /\
    (forall l, In l extra -> fromPieceOrLookup (labelPieces s) tr l) /\
    (forall p, In p (labelPieces s) -> notID p = false -> In p extra).
Proof.
  unfold itemUpdateCmd. intros H I.
  run_inv; inj_all; labels_spec; in_trace I; subst; try discriminate.
  all: match goal with
       | E : NewID ?a = Ok ?i |- _ => destruct (NewID_Ok _ _ E) as [? _]; subst
       end.
  all: match goal with
       | F : forall l, In l ?extra -> fromPieceOrLookup _ _ l |- _ =>
           eexists _, _, _, _, _, extra
       end.
  all: split; [reflexivity|];
       split; [cbn [event app firstResolve];
               rewrite ?labels_firstResolve by assumption; reflexivity|];
       split; [reflexivity|]; split; [reflexivity|].
  all: match goal with
       | |- context [0 <? len ?d] => destruct (0 <? len d)
       end.
  all: match goal with
       | |- context [match ?l with [] => _ | _ :: _ => _ end] => destruct l
       end.
  all: cbn [withPriority withDueString withContent addLabels
            Item_ID Content ProjectID Labels Item_Due Priority DateAdded
            Due_String Due_Date].
  all: do 8 (split; [reflexivity|]).
  all: split; [|assumption].
  all: intros l' I'; apply (fromPieceOrLookup_more _ [_; _] _ _); auto.
Qed.

Lemma itemUpdateCmd_sends_witness :
  exists id rest old s due extra,
    ["7"] = id :: rest /\ firstResolve updateRun = Some (id, Some old) /\
    GetString updateFlags "label" = Ok s /\ GetString updateFlags "due" = Ok due /\
    GetInt updateFlags "priority" = Ok (Priority milkSent) /\
    Item_ID milkSent = Item_ID old /\ ProjectID milkSent = ProjectID old /\
    DateAdded milkSent = DateAdded old /\
    Due_Date (Item_Due milkSent) = Due_Date (Item_Due old) /\
    Content milkSent = match rest with
                       | [] => Content old
                       | _ :: _ => strings.Join rest " "
                       end /\
    Due_String (Item_Due milkSent)
    = (if 0 <? len due then due else Due_String (Item_Due old)) /\
    Labels milkSent = (Labels old ++ extra)%list /\
    (forall l, In l extra -> fromPieceOrLookup (labelPieces s) updateRun l) /\
    (forall p, In p (labelPieces s) -> notID p = false -> In p extra).
Proof.
  apply (itemUpdateCmd_sends unit ["7"] updateFlags updateRun (Some offline)
           milkSent ("7", None)).
  - run_ok.
  - find_in.
Defined.


Lemma none_labels_app {R} (p : Event R -> bool) (l rest : list (Event R)) :
  (forall e, isLabelLookup e = true -> p e = false) ->
  forallb isLabelLookup l = true -> none p (l ++ rest) = none p rest.
Proof.
  intros P L. rewrite none_app, (labels_none p l P L). reflexivity.
Qed.

Lemma label_not_println {R} (e : Event R) : isLabelLookup e = true -> isPrintln e = false.
Proof. destruct e; (discriminate || reflexivity). Qed.

Lemma none_cons {R} (p : Event R -> bool) e l : none p (e :: l) = negb (p e) && none p l.
Proof. reflexivity. Qed.

Lemma none_nil {R} (p : Event R -> bool) : none p [] = true.
Proof. reflexivity. Qed.

(** X15.  A run of [item add], [item update] or [item move] prints a line
    exactly when it returns no error; it then ends by asking the relation
    index about the one item, printing the success line of the command,
    having the table of that item made and printing it, after a [FullSync]
    that succeeded. *)
Theorem prints_only_on_success (R : Type)
        (sort_Slice : (Item -> Item -> bool) -> list Item -> list Item)
        (args : list string) (flags : FlagSet) (cmd : Prog R (option error))
        (line : string) (tr : list (Event R)) (res : option error) :
  (cmd = itemAddCmd R sort_Slice args flags /\ line = "Successful addition of an item.") \/
  (cmd = itemUpdateCmd R args flags /\ line = "success to update the item") \/
  (cmd = itemMoveCmd R args flags /\ line = "Successful move item.") ->
  runs cmd tr res ->
  none isPrintln tr = negb (isNone res) /\
  (res = None ->
   exists pre item relations table,
     tr = (pre ++ [ERelation_Items [item] relations; EPrintln line;
                   EItemTableString [item] relations table; EPrintln table])%list /\
     In (EFullSync [] None) pre).
Proof.
  intros C H.
  destruct C as [[-> ->]|[[-> ->]|[-> ->]]];
    [ unfold itemAddCmd in H | unfold itemUpdateCmd in H | unfold itemMoveCmd in H ].
  all: run_inv; inj_all; labels_facts.
  all: cbn [event app isNone negb].
  all: split;
       [ repeat (rewrite ?none_cons, ?none_nil;
                 rewrite ?(none_labels_app isPrintln)
                   by (assumption || apply label_not_println));
         reflexivity
       | try discriminate ].
  all: intros _.
  all: first
         [ match goal with
           | |- exists pre _ _ _,
                 (?h :: ?x ++ ?a :: ?b :: ?c :: ?d :: _)%list = _ /\ _ =>
               exists (h :: x ++ [a; b; c; d])%list
           | |- exists pre _ _ _,
                 (?h :: ?h' :: ?x ++ ?a :: ?b :: ?c :: ?d :: _)%list = _ /\ _ =>
               exists (h :: h' :: x ++ [a; b; c; d])%list
           end;
           eexists _, _, _; split;
           [ cbn [app]; rewrite <- app_assoc; reflexivity
           | cbn [In]; right; try right; apply in_or_app; right; find_in ]
         | eexists [_; _; _; _; _; _], _, _, _; split; [reflexivity|find_in] ].
Qed.

Lemma prints_only_on_success_witness :
  none isPrintln addRun = negb (isNone (@None error)) /\
  (@None error = None ->
   exists pre item relations table,
     addRun = (pre ++ [ERelation_Items [item] relations;
                       EPrintln "Successful addition of an item.";
                       EItemTableString [item] relations table; EPrintln table])%list /\
     In (EFullSync [] None) pre).
Proof.
  apply (prints_only_on_success unit insertionSort ["milk"] itemAddFlags
           (itemAddCmd unit insertionSort ["milk"] itemAddFlags)).
  - left. split; reflexivity.
  - run_ok.
Defined.

(** X16.  When [item move] calls [Item.Move], it is on the identifier given
    as first argument, which the store resolved, and the options hold the
    texts of [--parent] and [--project] as they were given, both of them
    identifiers (a flag that is not registered leaves its field empty). *)
Theorem itemMoveCmd_passes_the_flags (R : Type) (args : list string) (flags : FlagSet)
        (tr : list (Event R)) (res : option error)
        (id : ID) (opts : ItemMoveOpts) (r : option error) :
  runs (itemMoveCmd R args flags) tr res ->
  In (EItem_Move id opts r) tr ->
  (exists rest, args = id :: rest) /\ notID id = false /\
  (exists item, firstResolve tr = Some (id, Some item)) /\
  match GetString flags "parent" with
  | Ok parentID => Opts_ParentID opts = parentID /\ notID parentID = false
  | Err _ => Opts_ParentID opts = ""
  end /\
  match GetString flags "project" with
  | Ok projectID => Opts_ProjectID opts = projectID /\ notID projectID = false
  | Err _ => Opts_ProjectID opts = ""
  end.
Proof.
  unfold itemMoveCmd. intros H I.
  destruct (GetString flags "parent") as [p|] eqn:GP;
    [destruct (NewID p) eqn:NP|];
    (destruct (GetString flags "project") as [q|] eqn:GQ;
     [destruct (NewID q) eqn:NQ|]).
  all: run_inv; inj_all; in_trace I; subst; try discriminate.
  all: repeat match goal with
         | E : NewID _ = Ok _ |- _ => destruct (NewID_Ok _ _ E) as [? ?]; subst; clear E
         end.
  all: cbn [event app firstResolve Opts_ParentID Opts_ProjectID].
  all: split; [eexists; reflexivity|]; split; [assumption|];
       split; [eexists; reflexivity|].
  all: repeat split; try assumption; try reflexivity.
Qed.

Lemma itemMoveCmd_passes_the_flags_witness :
  (exists rest, ["7"] = "7" :: rest) /\ notID "7" = false /\
  (exists item, firstResolve moveRunGood = Some ("7", Some item)) /\
  match GetString moveFlagsGood "parent" with
  | Ok parentID =>
      Opts_ParentID (mkItemMoveOpts "8" "2") = parentID /\ notID parentID = false
  | Err _ => Opts_ParentID (mkItemMoveOpts "8" "2") = ""
  end /\
  match GetString moveFlagsGood "project" with
  | Ok projectID =>
      Opts_ProjectID (mkItemMoveOpts "8" "2") = projectID /\ notID projectID = false
  | Err _ => Opts_ProjectID (mkItemMoveOpts "8" "2") = ""
  end.
Proof.
  apply (itemMoveCmd_passes_the_flags unit ["7"] moveFlagsGood moveRunGood
           (Some offline) "7" (mkItemMoveOpts "8" "2") None).
  - run_ok.
  - find_in.
Defined.

(** X17.  [item delete] calls [Item.Delete] only on the identifier given as
    its one argument, after the client was built, the store resolved that
    identifier, the table of the item was printed, and the answer read was
    exactly [y] and a newline with no read error; and it calls no other
    store mutation after it. *)
Theorem itemDeleteCmd_deletes_after_yes (R : Type) (args : list string)
        (tr : list (Event R)) (res : option error) (id : ID) (r : option error) :
  runs (itemDeleteCmd R args) tr res ->
  In (EItem_Delete id r) tr ->
  args = [id] /\
  exists item relations table rest,
    tr = ([ENewClient None;
           EItem_Resolve id (Some item);
           ERelation_Items [item] relations;
           EItemTableString [item] relations table;
           EPrintln table;
           EPrint "are you sure to delete above item(s)? (y/[n]): ";
           EReadString "010"%char (yes, None);
           EItem_Delete id r] ++ rest)%list /\
    none isMutation rest = true.
Proof.
  unfold itemDeleteCmd, AutoCommit, itemDeleteFunc. intros H I.
  run_inv; inj_all; in_trace I; subst; try discriminate.
  all: match goal with
       | E : NewID ?a = Ok ?i |- _ => destruct (NewID_Ok _ _ E) as [? _]; subst
       end.
  all: match goal with
       | E : negb (String.eqb ?a _) || match ?o with Some _ => _ | None => _ end = false
         |- _ =>
           apply orb_false_iff in E; destruct E as [E E'];
           apply negb_false_iff, String.eqb_eq in E; subst a;
           destruct o; [discriminate E'|]
       end.
  all: split; [reflexivity|].
  all: eexists _, _, _, _; split; [cbn [event app]; reflexivity|reflexivity].
Qed.

Lemma itemDeleteCmd_deletes_after_yes_witness :
  ["7"] = ["7"] /\
  exists item relations table rest,
    deleteRunConfirmed
    = ([ENewClient None;
        EItem_Resolve "7" (Some item);
        ERelation_Items [item] relations;
        EItemTableString [item] relations table;
        EPrintln table;
        EPrint "are you sure to delete above item(s)? (y/[n]): ";
        EReadString "010"%char (yes, None);
        EItem_Delete "7" None] ++ rest)%list /\
    none isMutation rest = true.
Proof.
  apply (itemDeleteCmd_deletes_after_yes unit ["7"] deleteRunConfirmed (Some offline)).
  - run_ok.
  - find_in.
Defined.

Lemma endsWith_last {A} (l : list A) (x d : A) : endsWith l x -> last l d = x.
Proof. intros [pre ->]. apply last_last. Qed.

(** X18.  [item delete] compares the text of the error it gets with [abort]:
    it never returns an error with that text, and when any call of the run
    (building the client, [Delete], [Commit], [FullSync], reading the
    answer) failed with an error of that text, the command returns no error
    and does not end with its success line. *)
Theorem itemDeleteCmd_hides_abort (R : Type) (args : list string)
        (tr : list (Event R)) (res : option error) :
  runs (itemDeleteCmd R args) tr res ->
  (forall e, res = Some e -> String.eqb (Error e) "abort" = false) /\
  (forall c e,
      In c tr -> failure c = Some e -> String.eqb (Error e) "abort" = true ->
      res = None /\ ~ endsWith tr (EPrintln "Successful deleting of item(s).")).
Proof.
  unfold itemDeleteCmd, AutoCommit, itemDeleteFunc. intros H.
  split.
  - run_inv; inj_all; intros e' E'; inj_all; try discriminate; assumption.
  - intros c e' I F A.
    run_inv; inj_all; in_trace I; subst; cbn [failure snd] in F; inj_all;
      try discriminate; try congruence.
    all: try match goal with
         | E : _ || match ?o with Some _ => _ | None => _ end = false,
           F : ?o = Some _ |- _ =>
             rewrite F, orb_true_r in E; discriminate E
         end.
    all: split; [reflexivity|]; intros I';
         apply (endsWith_last _ _ (EPrint "")) in I'; discriminate I'.
Qed.

Lemma itemDeleteCmd_hides_abort_witness :
  (forall e, @None error = Some e -> String.eqb (Error e) "abort" = false) /\
  (forall c e,
      In c deleteRunStoreAborts -> failure c = Some e ->
      String.eqb (Error e) "abort" = true ->
      @None error = None /\
      ~ endsWith deleteRunStoreAborts (EPrintln "Successful deleting of item(s).")).
Proof.
  apply (itemDeleteCmd_hides_abort unit ["7"] deleteRunStoreAborts None).
  run_ok.
Defined.

(** X19.  A run of [item delete] ends with its success line exactly when
    [FullSync] was called and succeeded; the command then returns no error
    and the run ends with [Delete], [Commit] and [FullSync], all three
    without error, and the line, nothing before them having changed any
    state. *)
Theorem itemDeleteCmd_success_line (R : Type) (args : list string)
        (tr : list (Event R)) (res : option error) :
  runs (itemDeleteCmd R args) tr res ->
  (endsWith tr (EPrintln "Successful deleting of item(s).")
   <-> In (EFullSync [] None) tr) /\
  (In (EFullSync [] None) tr ->
   res = None /\
   exists id pre,
     tr = (pre ++ [EItem_Delete id None; ECommit None; EFullSync [] None;
                   EPrintln "Successful deleting of item(s)."])%list /\
     none changesState pre = true).
Proof.
  unfold itemDeleteCmd, AutoCommit, itemDeleteFunc. intros H.
  run_inv; inj_all.
  all: split;
       [ split;
         [ intros I; apply (endsWith_last _ _ (EPrint "")) in I;
           try discriminate I; find_in
         | intros I; in_trace I; try discriminate;
           eexists (_ :: _ :: _ :: _ :: _ :: _ :: _ :: _ :: _ :: _ :: nil);
           reflexivity ]
       | intros I; in_trace I; try discriminate ].
  subst. split; [reflexivity|]. cbn [event app].
  eexists _, (_ :: _ :: _ :: _ :: _ :: _ :: _ :: nil). split; reflexivity.
Qed.

Lemma itemDeleteCmd_success_line_witness :
  (endsWith deleteRunDone (EPrintln "Successful deleting of item(s).")
   <-> In (EFullSync [] None) deleteRunDone) /\
  (In (EFullSync [] None) deleteRunDone ->
   @None error = None /\
   exists id pre,
     deleteRunDone
     = (pre ++ [EItem_Delete id None; ECommit None; EFullSync [] None;
                EPrintln "Successful deleting of item(s)."])%list /\
     none changesState pre = true).
Proof.
  apply (itemDeleteCmd_success_line unit ["7"] deleteRunDone None).
  run_ok.
Defined.

(** *** [list], [complete], [uncomplete] *)

Lemma mruns_mbind {R A B} (p : MoreProg R A) (f : A -> MoreProg R B) tr b :
  mruns (mbind p f) tr b <->
  exists tr1 a tr2, tr = (tr1 ++ tr2)%list /\ mruns p tr1 a /\ mruns (f a) tr2 b.
Proof.
  revert tr. induction p as [a|X c k IH]; intros tr; cbn [mbind mruns].
  - split.
    + intros H. exists [], a, tr. repeat split. exact H.
    + intros (tr1 & a' & tr2 & -> & [-> ->] & H). exact H.
  - split.
    + intros (x & tr' & -> & H). apply IH in H.
      destruct H as (tr1 & a & tr2 & -> & H1 & H2).
      exists (moreEvent c x :: tr1), a, tr2. repeat split; [|exact H2].
      exists x, tr1. split; [reflexivity|exact H1].
    + intros (tr1 & a & tr2 & -> & (x & tr' & -> & H1) & H2).
      exists x, (tr' ++ tr2)%list. split; [reflexivity|].
      apply IH. exists tr', a, tr2. repeat split; assumption.
Qed.

(** A lifted program runs as the program does, call for call. *)
Lemma mruns_lift {R A} (p : Prog R A) tr a :
  mruns (lift p) tr a <-> exists tr0, tr = map EBase tr0 /\ runs p tr0 a.
Proof.
  revert tr. induction p as [x|X c k IH]; intros tr; cbn [lift mruns runs].
  - split.
    + intros [-> ->]. exists []. repeat split.
    + intros (tr0 & -> & -> & ->). split; reflexivity.
  - split.
    + intros (x & tr' & -> & H). apply IH in H. destruct H as (tr0 & -> & H).
      exists (event c x :: tr0). split; [reflexivity|]. exists x, tr0.
      split; [reflexivity|exact H].
    + intros (tr0 & -> & x & tr' & -> & H). exists x, (map EBase tr').
      split; [reflexivity|]. apply IH. exists tr'. split; [reflexivity|exact H].
Qed.

Ltac mrun_inv :=
  repeat (cbn [mruns mbind mcall] in *;
    match goal with
    | H : mruns (mbind _ _) _ _ |- _ =>
        apply mruns_mbind in H; destruct H as (? & ? & ? & ? & ? & ?); subst
    | H : mruns (match ?x with _ => _ end) _ _ |- _ => destruct x eqn:?
    | H : exists _, _ |- _ => destruct H
    | H : _ /\ _ |- _ => destruct H
    | H : ?tr = _ :: _ |- _ => is_var tr; subst tr
    | H : ?tr = [] |- _ => is_var tr; subst tr
    | H : ?a = ?b |- _ => is_var a; subst a
    end).

Ltac min_trace H :=
  cbn [moreEvent event app In] in H;
  repeat match type of H with
    | _ \/ _ =>
        destruct H as [H|H];
        [ try discriminate H; try (injection H; clear H; intros; subst) | ]
    | False => contradiction
    end.

Ltac mfind_in :=
  try match goal with
    | |- In _ ?l => let l' := eval hnf in l in change l with l'
    end;
  cbn [moreEvent event app];
  repeat match goal with
    | |- In _ (_ :: _) => first [ left; reflexivity | right ]
    end.

Ltac mrun_ok :=
  repeat (cbn;
          match goal with
          | |- exists x : unit, _ => exists tt
          | |- exists _, _ => eexists
          | |- _ /\ _ => split
          | |- _ = _ => reflexivity
          end).

(** The two models of [AutoCommit] agree on a function that makes the
    calls of the first. *)
Lemma MoreAutoCommit_lift {R} (f : Prog R (option error)) tr res :
  mruns (MoreAutoCommit R (lift f)) tr res <->
  exists tr0, tr = map EBase tr0 /\ runs (AutoCommit R f) tr0 res.
Proof.
  unfold MoreAutoCommit, AutoCommit. split.
  - intros H. mrun_inv; inj_all;
      repeat match goal with
        | H : mruns (lift _) _ _ |- _ =>
            apply mruns_lift in H; destruct H as (? & -> & H)
        end;
      cbn [moreEvent event app]; rewrite ?app_nil_r.
    + exists [ENewClient (Some e)]. split; [reflexivity|]. run_ok.
    + match goal with
      | H : runs f ?x _ |- _ => exists (ENewClient None :: x)%list
      end.
      split; [reflexivity|].
      cbn [runs bind call]. eexists; eexists; split; [reflexivity|].
      apply runs_bind. eexists; eexists; eexists. split; [symmetry; apply app_nil_r|].
      split; [eassumption|]. split; reflexivity.
    + match goal with
      | H : runs f ?x _ |- _ => exists (ENewClient None :: x ++ [ECommit (Some e)])%list
      end.
      split; [cbn [map]; rewrite map_app; reflexivity|].
      cbn [runs bind call]. eexists; eexists; split; [reflexivity|].
      apply runs_bind. eexists; eexists; eexists. split; [reflexivity|].
      split; [eassumption|]. run_ok.
    + match goal with
      | H : runs f ?x _ |- _ =>
          exists (ENewClient None :: x ++ [ECommit None; EFullSync [] (Some e)])%list
      end.
      split; [cbn [map]; rewrite map_app; reflexivity|].
      cbn [runs bind call]. eexists; eexists; split; [reflexivity|].
      apply runs_bind. eexists; eexists; eexists. split; [reflexivity|].
      split; [eassumption|]. run_ok.
    + match goal with
      | H : runs f ?x _ |- _ =>
          exists (ENewClient None :: x ++ [ECommit None; EFullSync [] None])%list
      end.
      split; [cbn [map]; rewrite map_app; reflexivity|].
      cbn [runs bind call]. eexists; eexists; split; [reflexivity|].
      apply runs_bind. eexists; eexists; eexists. split; [reflexivity|].
      split; [eassumption|]. run_ok.
  - intros (tr0 & -> & H). run_inv; inj_all.
    all: cbn [event app map mruns mbind mcall]; rewrite ?map_app; cbn [map].
    + mrun_ok.
    + eexists; eexists; split; [reflexivity|].
      apply mruns_mbind. eexists; eexists; eexists.
      split; [reflexivity|].
      split; [apply mruns_lift; eexists; split; [reflexivity|eassumption]|].
      split; reflexivity.
    + eexists; eexists; split; [reflexivity|].
      apply mruns_mbind. eexists; eexists; eexists.
      split; [reflexivity|].
      split; [apply mruns_lift; eexists; split; [reflexivity|eassumption]|].
      mrun_ok.
    + eexists; eexists; split; [reflexivity|].
      apply mruns_mbind. eexists; eexists; eexists.
      split; [reflexivity|].
      split; [apply mruns_lift; eexists; split; [reflexivity|eassumption]|].
      mrun_ok.
    + eexists; eexists; split; [reflexivity|].
      apply mruns_mbind. eexists; eexists; eexists.
      split; [reflexivity|].
      split; [apply mruns_lift; eexists; split; [reflexivity|eassumption]|].
      mrun_ok.
Qed.

(** X20.  [item list] makes no call that changes a store, the queue or
    reaches the network.  It returns an error only when the client cannot
    be built, and then does nothing else; otherwise it fetches all items,
    asks the relation index about them, has the table of exactly these
    items made and prints it. *)
Theorem itemListCmd_only_reads (R : Type) (args : list string)
        (tr : list (MoreEvent R)) (res : option error) :
  mruns (itemListCmd R args) tr res ->
  mnone moreChangesState tr = true /\
  match res with
  | Some e => tr = [EBase (ENewClient (Some e))]
  | None =>
      exists items relations table,
        tr = [EBase (ENewClient None); EItem_GetAll items;
              EBase (ERelation_Items items relations);
              EBase (EItemTableString items relations table);
              EBase (EPrintln table)]
  end.
Proof.
  unfold itemListCmd. intros H. mrun_inv; inj_all.
  - split; reflexivity.
  - split; [reflexivity|]. eexists; eexists; eexists; reflexivity.
Qed.

Lemma itemListCmd_only_reads_witness :
  mnone moreChangesState listRun = true /\
  exists items relations table,
    listRun = [EBase (ENewClient None); EItem_GetAll items;
               EBase (ERelation_Items items relations);
               EBase (EItemTableString items relations table);
               EBase (EPrintln table)].
Proof.
  apply (itemListCmd_only_reads unit [] listRun None). mrun_ok.
Defined.

(** X21.  When [item complete] calls [Item.Complete], it is on the identifier
    given as its one argument, with the force flag set, and with the
    instant that the clock just gave, moved to UTC; the client was built
    first and no other store mutation follows. *)
Theorem itemCompleteCmd_stamps_now_in_UTC (R : Type) (args : list string)
        (tr : list (MoreEvent R)) (res : option error)
        (id : ID) (date : todoist.Time) (force : bool) (r : option error) :
  mruns (itemCompleteCmd R args) tr res ->
  In (EItem_Complete id date force r) tr ->
  args = [id] /\ NewID id = Ok id /\ force = true /\
  time.offset (todoist.Time_ date) = 0 /\
  exists now rest,
    todoist.Equal date (todoist.mkTime now) = true /\
    tr = (EBase (ENewClient None) :: Etime_Now now
          :: EItem_Complete id date force r :: rest)%list /\
    mnone isStoreWrite rest = true.
Proof.
  unfold itemCompleteCmd, MoreAutoCommit, itemCompleteFunc. intros H I.
  mrun_inv; inj_all; min_trace I.
  all: match goal with
       | E : NewID ?a = Ok ?i |- _ =>
           assert (a = i)
             by (unfold NewID in E; destruct (_ && _); congruence);
           subst
       end.
  all: split; [reflexivity|]; split; [assumption|]; split; [reflexivity|];
       split; [reflexivity|].
  all: eexists; eexists; split;
       [ unfold todoist.Equal, time.Equal, UTC; cbn [todoist.Time_ time.sec time.nsec];
         rewrite !Z.eqb_refl; reflexivity | ].
  all: split; reflexivity.
Qed.

Lemma itemCompleteCmd_stamps_now_in_UTC_witness :
  ["7"] = ["7"] /\ NewID "7" = Ok "7" /\ true = true /\
  time.offset (todoist.Time_ (todoist.mkTime (UTC (todoist.Time_ sampleTime)))) = 0 /\
  exists now rest,
    todoist.Equal (todoist.mkTime (UTC (todoist.Time_ sampleTime))) (todoist.mkTime now)
    = true /\
    completeRun = (EBase (ENewClient None) :: Etime_Now now
          :: EItem_Complete "7" (todoist.mkTime (UTC (todoist.Time_ sampleTime))) true None
          :: rest)%list /\
    mnone isStoreWrite rest = true.
Proof.
  apply (itemCompleteCmd_stamps_now_in_UTC unit ["7"] completeRun None).
  - mrun_ok.
  - mfind_in.
Defined.

(** X22.  [item complete] and [item uncomplete] given anything but one
    argument that is an identifier return an error after building the
    client, and call nothing else: no store, no [Commit], no [FullSync]. *)
Theorem complete_uncomplete_need_one_id (R : Type) (args : list string)
        (cmd : MoreProg R (option error))
        (tr : list (MoreEvent R)) (res : option error) :
  cmd = itemCompleteCmd R args \/ cmd = itemUncompleteCmd R args ->
  mruns cmd tr res ->
  notOneID args = true ->
  (exists e, res = Some e) /\
  mnone moreChangesState tr = true /\
  (exists r, tr = [EBase (ENewClient r)]).
Proof.
  intros C H B.
  destruct C as [-> | ->];
    [ unfold itemCompleteCmd, MoreAutoCommit, itemCompleteFunc in H
    | unfold itemUncompleteCmd, MoreAutoCommit, itemUncompleteFunc in H ].
  all: destruct args as [|arg0 [|arg1 rest]]; cbn [notOneID] in B;
       try (destruct (NewID arg0); cbn [isErr] in B; try discriminate B).
  all: mrun_inv; inj_all.
  all: split; [eexists; reflexivity|]; split; [reflexivity|]; eexists; reflexivity.
Qed.

Lemma complete_uncomplete_need_one_id_witness :
  (exists e, Some (errorString "require one item id") = Some e) /\
  mnone moreChangesState completeRunNoArgs = true /\
  (exists r, completeRunNoArgs = [EBase (ENewClient r)]).
Proof.
  apply (complete_uncomplete_need_one_id unit [] (itemCompleteCmd unit [])
           completeRunNoArgs (Some (errorString "require one item id"))).
  - left. reflexivity.
  - mrun_ok.
  - reflexivity.
Defined.

(** X23.  [item complete] and [item uncomplete] print their success line
    exactly when they return no error, and then the run ends with the store
    call of the command, [Commit] and [FullSync] with no commands, and the
    line, nothing before them having changed any state. *)
Theorem complete_uncomplete_success_line (R : Type) (args : list string)
        (cmd : MoreProg R (option error)) (line : string)
        (tr : list (MoreEvent R)) (res : option error) :
  (cmd = itemCompleteCmd R args /\ line = "Successful completion of item(s).") \/
  (cmd = itemUncompleteCmd R args /\ line = "Successful uncompletion of item(s).") ->
  mruns cmd tr res ->
  (res = None <-> In (EBase (EPrintln line)) tr) /\
  (res = None ->
   exists pre w,
     tr = (pre ++ [w; EBase (ECommit None); EBase (EFullSync [] None);
                   EBase (EPrintln line)])%list /\
     isStoreWrite w = true /\ mnone moreChangesState pre = true).
Proof.
  intros C H.
  destruct C as [[-> ->] | [-> ->]];
    [ unfold itemCompleteCmd, MoreAutoCommit, itemCompleteFunc in H
    | unfold itemUncompleteCmd, MoreAutoCommit, itemUncompleteFunc in H ].
  all: mrun_inv; inj_all.
  all: split;
       [ split; [ try discriminate; intros _; mfind_in
                | try reflexivity; intros I; min_trace I ]
       | try discriminate ].
  all: intros _; cbn [moreEvent event app].
  all: first [ eexists [_; _], _; split; [reflexivity|]
             | eexists [_], _; split; [reflexivity|] ].
  all: split; reflexivity.
Qed.

Lemma complete_uncomplete_success_line_witness :
  (@None error = None <->
   In (EBase (EPrintln "Successful completion of item(s).")) completeRun) /\
  (@None error = None ->
   exists pre w,
     completeRun
     = (pre ++ [w; EBase (ECommit None); EBase (EFullSync [] None);
                EBase (EPrintln "Successful completion of item(s).")])%list /\
     isStoreWrite w = true /\ mnone moreChangesState pre = true).
Proof.
  apply (complete_uncomplete_success_line unit ["7"] (itemCompleteCmd unit ["7"])
           "Successful completion of item(s)." completeRun None).
  - left. split; reflexivity.
  - mrun_ok.
Defined.
